(** * The raw camera ADC codec of hessioxxx (io_hess.c)

    A shallow embedding of the sum-mode and sample-mode record codecs
    ([write_hess_teladc_sums], [read_hess_teladc_sums],
    [write_hess_teladc_samples], [read_hess_teladc_samples]) and of the
    small amplitude coders they are built from, followed by the properties
    of the codec that the specification states.

    Conventions.  C integers are values of [Z]; a conversion to a fixed
    width is written out ([uint8], [uint16], [uint32], [int16], [int32]).
    A C array is a total map from the index to the element ([Z -> A]);
    nothing is said about indices outside the declared bounds, and the
    theorems about well-formed data carry the bounds as hypotheses.  A
    vector handed to a primitive ("pointer and count") is the list of the
    elements concerned. *)

From Stdlib Require Import ZArith List Lia Bool.
Import ListNotations.
Local Open Scope Z_scope.

Set Implicit Arguments.

(* ===================================================================== *)
(** ** Machine integers and arrays *)
(* ===================================================================== *)

Definition to_uint (w x : Z) : Z := x mod 2 ^ w.
Definition to_int (w x : Z) : Z := (x + 2 ^ (w - 1)) mod 2 ^ w - 2 ^ (w - 1).

Definition uint8 : Z -> Z := to_uint 8.
Definition uint16 : Z -> Z := to_uint 16.
Definition uint32 : Z -> Z := to_uint 32.
Definition int16 : Z -> Z := to_int 16.
Definition int32 : Z -> Z := to_int 32.

(** [a[i] = v] *)
Definition upd {A : Type} (a : Z -> A) (i : Z) (v : A) : Z -> A :=
  fun j => if j =? i then v else a j.

(** [a[g][i] = v] *)
Definition upd2 {A : Type} (a : Z -> Z -> A) (g i : Z) (v : A) : Z -> Z -> A :=
  upd a g (upd (a g) i v).

(** The [n] elements [a[k], ..., a[k+n-1]] (what [&a[k]], [n] denotes). *)
Fixpoint slice {A : Type} (a : Z -> A) (k : Z) (n : nat) : list A :=
  match n with
  | O => []
  | S n' => a k :: slice a (k + 1) n'
  end.

(** Storing a vector at [&a[k]]. *)
Fixpoint store {A : Type} (a : Z -> A) (k : Z) (l : list A) : Z -> A :=
  match l with
  | [] => a
  | v :: l' => store (upd a k v) (k + 1) l'
  end.

Definition zlength {A : Type} (l : list A) : Z := Z.of_nat (length l).

(** [x & (1 << j)] as a truth value. *)
Definition bit (x j : Z) : bool := negb (Z.land x (Z.shiftl 1 j) =? 0).

(* ===================================================================== *)
(** ** The primitive codec (eventio) *)
(* ===================================================================== *)

Module EventIO.

(** Modelled from the spec: the primitive codec of eventio.c is not part of
    the sources at hand.  Section 6 of the specification names the
    encodings the core consumes: fixed 8-, 16- and 32-bit integers and a
    signed and an unsigned variable-length ("count") integer.  A record
    body is the sequence of such fields; each constructor carries the
    value as the wire holds it. *)
Inductive wire : Type :=
| W8 (v : Z)
| W16 (v : Z)
| W32 (v : Z)
| WCount (v : Z)
| WSCount (v : Z).

(** Modelled from the spec: a record ("item") is a typed, versioned,
    identified container around its body; the body of a sum-mode or
    sample-mode record nests no further record. *)
Record item : Type := Item {
  it_type : Z;
  it_version : Z;
  it_ident : Z;
  it_body : list wire
}.

(** The I/O buffer: the records still to be read, or written so far. *)
Definition IO_BUFFER : Type := list item.

(** *** Writing

    A put appends to the record under construction; the model names the
    fields a call appends. *)

Definition put_short (v : Z) : list wire := [W16 (uint16 v)].
Definition put_long (v : Z) : list wire := [W32 (uint32 v)].
Definition put_count (v : Z) : list wire := [WCount v].
Definition put_scount32 (v : Z) : list wire := [WSCount (int32 v)].
Definition put_scount (v : Z) : list wire := [WSCount v].
Definition put_vector_of_uint8 (l : list Z) : list wire :=
  map (fun v => W8 (uint8 v)) l.
Definition put_vector_of_uint16 (l : list Z) : list wire :=
  map (fun v => W16 (uint16 v)) l.
(** eventio writes a vector "of int" as 16-bit fields. *)
Definition put_vector_of_int (l : list Z) : list wire :=
  map (fun v => W16 (uint16 v)) l.
Definition put_vector_of_int_scount (l : list Z) : list wire :=
  map (fun v => WSCount v) l.

(** *** Reading

    A get consumes fields from the front of what is left of the body.
    Modelled from the spec: running out of data inside the record is the
    "hard read error" of section 4; the model has no value for the read
    then ([None]), and none when the field in front is of another
    encoding than the one asked for. *)
Definition get (A : Type) : Type := list wire -> option (A * list wire).

Definition ret {A : Type} (a : A) : get A := fun s => Some (a, s).

Definition bind {A B : Type} (m : get A) (k : A -> get B) : get B :=
  fun s => match m s with
           | Some (a, s') => k a s'
           | None => None
           end.

Notation "x <- m ;; k" := (bind m (fun x => k))
  (at level 61, m at next level, right associativity).

Definition get_uint8 : get Z :=
  fun s => match s with W8 v :: s' => Some (v, s') | _ => None end.
Definition get_uint16 : get Z :=
  fun s => match s with W16 v :: s' => Some (v, s') | _ => None end.
Definition get_short : get Z :=
  fun s => match s with W16 v :: s' => Some (int16 v, s') | _ => None end.
Definition get_long : get Z :=
  fun s => match s with W32 v :: s' => Some (int32 v, s') | _ => None end.
Definition get_count : get Z :=
  fun s => match s with WCount v :: s' => Some (v, s') | _ => None end.
Definition get_scount32 : get Z :=
  fun s => match s with WSCount v :: s' => Some (int32 v, s') | _ => None end.
Definition get_scount : get Z :=
  fun s => match s with WSCount v :: s' => Some (v, s') | _ => None end.

Fixpoint get_vector {A : Type} (g : get A) (n : nat) : get (list A) :=
  match n with
  | O => ret []
  | S n' => v <- g ;; l <- get_vector g n' ;; ret (v :: l)
  end.

Definition get_vector_of_uint8 (n : Z) : get (list Z) :=
  get_vector get_uint8 (Z.to_nat n).
Definition get_vector_of_uint16 (n : Z) : get (list Z) :=
  get_vector get_uint16 (Z.to_nat n).
Definition get_vector_of_int (n : Z) : get (list Z) :=
  get_vector get_short (Z.to_nat n).
Definition get_vector_of_int_scount (n : Z) : get (list Z) :=
  get_vector (v <- get_scount ;; ret (int32 v)) (Z.to_nat n).

(** *** Records

    Modelled from the spec: [put_item_begin] ... [put_item_end] add one
    record to the buffer and report 0; [get_item_begin] opens the next
    record when it has the type asked for and reports a negative status
    otherwise, leaving the buffer alone; [get_item_end] moves to the end
    of the open record whatever has been read of it, and reports 0. *)
Definition put_item (iobuf : IO_BUFFER) (type version ident : Z)
    (body : list wire) : Z * IO_BUFFER :=
  (0, iobuf ++ [Item type version ident body]).

Definition get_item_begin (iobuf : IO_BUFFER) (type : Z)
  : Z + (item * IO_BUFFER) :=
  match iobuf with
  | [] => inl (-2)
  | it :: rest => if it_type it =? type then inr (it, rest) else inl (-1)
  end.

Definition get_item_end : Z := 0.

End EventIO.

Import EventIO.

Notation "x <- m ;; k" := (bind m (fun x => k))
  (at level 61, m at next level, right associativity).

(* ===================================================================== *)
(** ** Constants and the raw data structure (io_hess.h) *)
(* ===================================================================== *)

Definition HI_GAIN : Z := 0.
Definition LO_GAIN : Z := 1.
Definition H_MAX_GAINS : Z := 2.
Definition RAWDATA_FLAG : Z := 1.
Definition RAWSUM_FLAG : Z := 2.
Definition IO_TYPE_HESS_BASE : Z := 2000.
Definition IO_TYPE_HESS_TELADCSUM : Z := IO_TYPE_HESS_BASE + 12.
Definition IO_TYPE_HESS_TELADCSAMP : Z := IO_TYPE_HESS_BASE + 13.

(** [struct hess_tel_event_adc_struct] *)
Record AdcData : Type := mkAdcData {
  known : Z;
  tel_id : Z;
  num_pixels : Z;
  num_gains : Z;
  num_samples : Z;
  zero_sup_mode : Z;
  data_red_mode : Z;
  offset_hg8 : Z;
  scale_hg8 : Z;
  threshold : Z;
  list_known : Z;
  list_size : Z;
  adc_list : Z -> Z;
  significant : Z -> Z;
  adc_known : Z -> Z -> Z;
  adc_sum : Z -> Z -> Z;
  adc_sample : Z -> Z -> Z -> Z
}.

Definition set_known (r : AdcData) (v : Z) : AdcData :=
  mkAdcData v (tel_id r) (num_pixels r) (num_gains r) (num_samples r)
    (zero_sup_mode r) (data_red_mode r) (offset_hg8 r) (scale_hg8 r)
    (threshold r) (list_known r) (list_size r) (adc_list r) (significant r)
    (adc_known r) (adc_sum r) (adc_sample r).
Definition set_tel_id (r : AdcData) (v : Z) : AdcData :=
  mkAdcData (known r) v (num_pixels r) (num_gains r) (num_samples r)
    (zero_sup_mode r) (data_red_mode r) (offset_hg8 r) (scale_hg8 r)
    (threshold r) (list_known r) (list_size r) (adc_list r) (significant r)
    (adc_known r) (adc_sum r) (adc_sample r).
Definition set_num_pixels (r : AdcData) (v : Z) : AdcData :=
  mkAdcData (known r) (tel_id r) v (num_gains r) (num_samples r)
    (zero_sup_mode r) (data_red_mode r) (offset_hg8 r) (scale_hg8 r)
    (threshold r) (list_known r) (list_size r) (adc_list r) (significant r)
    (adc_known r) (adc_sum r) (adc_sample r).
Definition set_num_gains (r : AdcData) (v : Z) : AdcData :=
  mkAdcData (known r) (tel_id r) (num_pixels r) v (num_samples r)
    (zero_sup_mode r) (data_red_mode r) (offset_hg8 r) (scale_hg8 r)
    (threshold r) (list_known r) (list_size r) (adc_list r) (significant r)
    (adc_known r) (adc_sum r) (adc_sample r).
Definition set_num_samples (r : AdcData) (v : Z) : AdcData :=
  mkAdcData (known r) (tel_id r) (num_pixels r) (num_gains r) v
    (zero_sup_mode r) (data_red_mode r) (offset_hg8 r) (scale_hg8 r)
    (threshold r) (list_known r) (list_size r) (adc_list r) (significant r)
    (adc_known r) (adc_sum r) (adc_sample r).
Definition set_zero_sup_mode (r : AdcData) (v : Z) : AdcData :=
  mkAdcData (known r) (tel_id r) (num_pixels r) (num_gains r) (num_samples r)
    v (data_red_mode r) (offset_hg8 r) (scale_hg8 r)
    (threshold r) (list_known r) (list_size r) (adc_list r) (significant r)
    (adc_known r) (adc_sum r) (adc_sample r).
Definition set_data_red_mode (r : AdcData) (v : Z) : AdcData :=
  mkAdcData (known r) (tel_id r) (num_pixels r) (num_gains r) (num_samples r)
    (zero_sup_mode r) v (offset_hg8 r) (scale_hg8 r)
    (threshold r) (list_known r) (list_size r) (adc_list r) (significant r)
    (adc_known r) (adc_sum r) (adc_sample r).
Definition set_offset_hg8 (r : AdcData) (v : Z) : AdcData :=
  mkAdcData (known r) (tel_id r) (num_pixels r) (num_gains r) (num_samples r)
    (zero_sup_mode r) (data_red_mode r) v (scale_hg8 r)
    (threshold r) (list_known r) (list_size r) (adc_list r) (significant r)
    (adc_known r) (adc_sum r) (adc_sample r).
Definition set_scale_hg8 (r : AdcData) (v : Z) : AdcData :=
  mkAdcData (known r) (tel_id r) (num_pixels r) (num_gains r) (num_samples r)
    (zero_sup_mode r) (data_red_mode r) (offset_hg8 r) v
    (threshold r) (list_known r) (list_size r) (adc_list r) (significant r)
    (adc_known r) (adc_sum r) (adc_sample r).
Definition set_threshold (r : AdcData) (v : Z) : AdcData :=
  mkAdcData (known r) (tel_id r) (num_pixels r) (num_gains r) (num_samples r)
    (zero_sup_mode r) (data_red_mode r) (offset_hg8 r) (scale_hg8 r)
    v (list_known r) (list_size r) (adc_list r) (significant r)
    (adc_known r) (adc_sum r) (adc_sample r).
Definition set_list_known (r : AdcData) (v : Z) : AdcData :=
  mkAdcData (known r) (tel_id r) (num_pixels r) (num_gains r) (num_samples r)
    (zero_sup_mode r) (data_red_mode r) (offset_hg8 r) (scale_hg8 r)
    (threshold r) v (list_size r) (adc_list r) (significant r)
    (adc_known r) (adc_sum r) (adc_sample r).
Definition set_list_size (r : AdcData) (v : Z) : AdcData :=
  mkAdcData (known r) (tel_id r) (num_pixels r) (num_gains r) (num_samples r)
    (zero_sup_mode r) (data_red_mode r) (offset_hg8 r) (scale_hg8 r)
    (threshold r) (list_known r) v (adc_list r) (significant r)
    (adc_known r) (adc_sum r) (adc_sample r).
Definition set_adc_list (r : AdcData) (v : Z -> Z) : AdcData :=
  mkAdcData (known r) (tel_id r) (num_pixels r) (num_gains r) (num_samples r)
    (zero_sup_mode r) (data_red_mode r) (offset_hg8 r) (scale_hg8 r)
    (threshold r) (list_known r) (list_size r) v (significant r)
    (adc_known r) (adc_sum r) (adc_sample r).
Definition set_significant (r : AdcData) (v : Z -> Z) : AdcData :=
  mkAdcData (known r) (tel_id r) (num_pixels r) (num_gains r) (num_samples r)
    (zero_sup_mode r) (data_red_mode r) (offset_hg8 r) (scale_hg8 r)
    (threshold r) (list_known r) (list_size r) (adc_list r) v
    (adc_known r) (adc_sum r) (adc_sample r).
Definition set_adc_known (r : AdcData) (v : Z -> Z -> Z) : AdcData :=
  mkAdcData (known r) (tel_id r) (num_pixels r) (num_gains r) (num_samples r)
    (zero_sup_mode r) (data_red_mode r) (offset_hg8 r) (scale_hg8 r)
    (threshold r) (list_known r) (list_size r) (adc_list r) (significant r)
    v (adc_sum r) (adc_sample r).
Definition set_adc_sum (r : AdcData) (v : Z -> Z -> Z) : AdcData :=
  mkAdcData (known r) (tel_id r) (num_pixels r) (num_gains r) (num_samples r)
    (zero_sup_mode r) (data_red_mode r) (offset_hg8 r) (scale_hg8 r)
    (threshold r) (list_known r) (list_size r) (adc_list r) (significant r)
    (adc_known r) v (adc_sample r).
Definition set_adc_sample (r : AdcData) (v : Z -> Z -> Z -> Z) : AdcData :=
  mkAdcData (known r) (tel_id r) (num_pixels r) (num_gains r) (num_samples r)
    (zero_sup_mode r) (data_red_mode r) (offset_hg8 r) (scale_hg8 r)
    (threshold r) (list_known r) (list_size r) (adc_list r) (significant r)
    (adc_known r) (adc_sum r) v.

(* ===================================================================== *)
(** ** Amplitude coders (io_hess.c, lines 3037-3127) *)
(* ===================================================================== *)

(** Old format: 16-bit unsigned. *)
Definition put_adcsum_as_uint16 (adc_sum : list Z) : list wire :=
  put_vector_of_uint16
    (map (fun a => if a <? 65535 then uint16 a else 65535) adc_sum).

Definition get_adcsum_as_uint16 (n : Z) : get (list Z) :=
  short_adc_sum <- get_vector_of_uint16 n ;;
  ret short_adc_sum.

(** New format: the difference from one pixel to the next one, as a
    variable-size integer. *)
Fixpoint put_adcsum_differential_from (prev_amp : Z) (adc_sum : list Z)
  : list wire :=
  match adc_sum with
  | [] => []
  | a :: rest =>
      let this_amp := int32 a in
      let amp_diff := int32 (this_amp - prev_amp) in
      put_scount32 amp_diff ++ put_adcsum_differential_from this_amp rest
  end.

Definition put_adcsum_differential (adc_sum : list Z) : list wire :=
  put_adcsum_differential_from 0 adc_sum.

Fixpoint get_adcsum_differential_from (prev_amp : Z) (n : nat)
  : get (list Z) :=
  match n with
  | O => ret []
  | S n' =>
      d <- get_scount32 ;;
      let this_amp := int32 (d + prev_amp) in
      l <- get_adcsum_differential_from this_amp n' ;;
      ret (uint32 this_amp :: l)
  end.

Definition get_adcsum_differential (n : Z) : get (list Z) :=
  get_adcsum_differential_from 0 (Z.to_nat n).

(** Modelled from the spec: [get_vector_of_uint32_scount_differential] is a
    primitive of eventio.c; it is the inverse of the differential coder of
    section 4.1, as is [get_adcsum_differential], which the reader calls in
    its place when built with OLD_CODE. *)
Definition get_vector_of_uint32_scount_differential (n : Z) : get (list Z) :=
  get_adcsum_differential n.

Fixpoint put_adcsample_differential_from (prev_amp : Z) (adc_sample : list Z)
  : list wire :=
  match adc_sample with
  | [] => []
  | a :: rest =>
      let this_amp := a in
      let amp_diff := int32 (this_amp - prev_amp) in
      put_scount32 amp_diff ++ put_adcsample_differential_from this_amp rest
  end.

Definition put_adcsample_differential (adc_sample : list Z) : list wire :=
  put_adcsample_differential_from 0 adc_sample.

Fixpoint get_adcsample_differential_from (prev_amp : Z) (n : nat)
  : get (list Z) :=
  match n with
  | O => ret []
  | S n' =>
      d <- get_scount32 ;;
      let this_amp := int32 (d + prev_amp) in
      l <- get_adcsample_differential_from this_amp n' ;;
      ret (uint16 this_amp :: l)
  end.

Definition get_adcsample_differential (n : Z) : get (list Z) :=
  get_adcsample_differential_from 0 (Z.to_nat n).

(** Modelled from the spec: [get_vector_of_uint16_scount_differential] is a
    primitive of eventio.c, the inverse of the differential coder for
    16-bit samples; the reader calls [get_adcsample_differential] in its
    place when built with OLD_CODE. *)
Definition get_vector_of_uint16_scount_differential (n : Z) : get (list Z) :=
  get_adcsample_differential n.

(* ===================================================================== *)
(** ** write_hess_teladc_sums (io_hess.c, lines 3139-3817) *)
(* ===================================================================== *)

(** The test of the high-gain amplitude against the 8-bit representation
    (the same lines in each zero-suppression mode: 3372-3378, 3560-3566,
    3745-3751): [Some v8] when [f8] is set, [None] otherwise. *)
Definition reduce_hg8 (amp offset_hg8 scale_hg8 scale_hg8half : Z) : option Z :=
  let v8 := int32 amp - offset_hg8 in
  if v8 >=? 0 then
    let v8 := Z.quot (v8 + scale_hg8half) scale_hg8 in
    if v8 <? 255 then Some v8 else None
  else None.

(** What the reader computes for a reduced pixel (lines 4095, 4235, 4338). *)
Definition expand_hg8 (v8 scale_hg8 offset_hg8 : Z) : Z :=
  uint32 (v8 * scale_hg8 + offset_hg8).

(** The values collected for one group of up to 16 pixels:
    [zbits], [cflags], [bflags] and the vectors [lgval], [hgval],
    [hgval8] with their fill counts [mlg], [m] or [mhg16], [mhg8]. *)
Record group : Type := mkGroup {
  zbits : Z;
  cflags : Z;
  bflags : Z;
  lgval : list Z;
  hgval : list Z;
  hgval8 : list Z
}.

Definition group0 : group := mkGroup 0 0 0 [] [] [].

(** The loop shared by the plain and bitmap modes:
[[
   n = raw->num_pixels; j = k = 0; (counters and flags) = 0;
   while ( n-- > 0 )
   {
      (step for pixel k, bit j)
      k++;
      if ( ++j == 16 || n == 0 )
      {
         (flush)
         (counters and flags) = 0; j = 0;
      }
   }
]]
    [n] is the number of pixels still to come, this one included. *)
Fixpoint group_loop (step : group -> Z -> Z -> group)
    (flush : group -> Z -> Z -> list wire)
    (n : nat) (j k : Z) (g : group) : list wire :=
  match n with
  | O => []
  | S n' =>
      let g := step g j k in
      let k := k + 1 in
      let j := j + 1 in
      if (j =? 16) || (Nat.eqb n' 0)
      then flush g j k ++ group_loop step flush n' 0 k group0
      else group_loop step flush n' j k g
  end.

(** Lines 3305-3308 and the like: the amplitude coder the version asks for. *)
Definition put_adcsum (version : Z) (l : list Z) : list wire :=
  if version <=? 2 then put_adcsum_as_uint16 l else put_adcsum_differential l.

Definition set_bit (x j : Z) : Z := Z.lor x (Z.shiftl 1 j).

Section WriteSums.

Variable raw : AdcData.
Variable version : Z.
Variables offset_hg8' scale_hg8' scale_hg8half : Z.

Definition lo_present_known (k : Z) : bool :=
  negb (Z.land (adc_known raw LO_GAIN k) 1 =? 0) && (num_gains raw >=? 2).

Definition lo_present_threshold (k : Z) : bool :=
  (int32 (adc_sum raw HI_GAIN k) >=? threshold raw) && (num_gains raw >=? 2).

Definition put_lg (l : list Z) : list wire :=
  if num_gains raw >=? 2 then put_adcsum version l else [].

(** Zero suppression mode 0, data reduction 0 (lines 3303-3309). *)
Fixpoint write_plain_gains (n : nat) (i : Z) : list wire :=
  match n with
  | O => []
  | S n' =>
      put_adcsum version (slice (adc_sum raw i) 0 (Z.to_nat (num_pixels raw)))
        ++ write_plain_gains n' (i + 1)
  end.

(** Mode 0, reduction 1 (lines 3312-3352). *)
Definition step_z0_r1 (g : group) (j k : Z) : group :=
  if lo_present_known k
  then mkGroup (zbits g) (set_bit (cflags g) j) (bflags g)
         (lgval g ++ [adc_sum raw LO_GAIN k]) (hgval g) (hgval8 g)
  else g.

Definition flush_z0_r1 (g : group) (j k : Z) : list wire :=
  put_vector_of_uint16 [cflags g]
    ++ put_lg (lgval g)
    ++ put_adcsum version (slice (adc_sum raw HI_GAIN) (k - j) (Z.to_nat j)).

(** The high-gain part of the step of reduction 2 for a pixel without
    low gain (lines 3371-3387). *)
Definition step_hg8 (g : group) (j k : Z) : group :=
  match reduce_hg8 (adc_sum raw HI_GAIN k) offset_hg8' scale_hg8' scale_hg8half with
  | Some v8 =>
      mkGroup (zbits g) (cflags g) (set_bit (bflags g) j)
        (lgval g) (hgval g) (hgval8 g ++ [uint8 v8])
  | None =>
      mkGroup (zbits g) (cflags g) (bflags g)
        (lgval g) (hgval g ++ [adc_sum raw HI_GAIN k]) (hgval8 g)
  end.

(** Mode 0, reduction 2 (lines 3355-3418). *)
Definition step_z0_r2 (g : group) (j k : Z) : group :=
  if lo_present_threshold k
  then mkGroup (zbits g) (set_bit (cflags g) j) (bflags g)
         (lgval g ++ [adc_sum raw LO_GAIN k])
         (hgval g ++ [adc_sum raw HI_GAIN k]) (hgval8 g)
  else step_hg8 g j k.

Definition flush_z0_r2 (g : group) (j k : Z) : list wire :=
  put_vector_of_uint16 [cflags g]
    ++ put_vector_of_uint16 [bflags g]
    ++ put_lg (lgval g)
    ++ put_adcsum version (hgval g)
    ++ put_vector_of_uint8 (hgval8 g).

Definition with_zbit (g : group) (j : Z) : group :=
  mkGroup (set_bit (zbits g) j) (cflags g) (bflags g)
    (lgval g) (hgval g) (hgval8 g).

(** Mode 1, reduction 0 (lines 3430-3479). *)
Definition step_z1_r0 (g : group) (j k : Z) : group :=
  if negb (significant raw k =? 0)
  then let g := with_zbit g j in
       mkGroup (zbits g) (cflags g) (bflags g)
         (lgval g ++ [adc_sum raw LO_GAIN k])
         (hgval g ++ [adc_sum raw HI_GAIN k]) (hgval8 g)
  else g.

Definition flush_z1_r0 (g : group) (j k : Z) : list wire :=
  put_vector_of_uint16 [zbits g]
    ++ (if negb (zbits g =? 0)
        then put_lg (lgval g) ++ put_adcsum version (hgval g)
        else []).

(** Mode 1, reduction 1 (lines 3483-3534). *)
Definition step_z1_r1 (g : group) (j k : Z) : group :=
  if negb (significant raw k =? 0)
  then let g := with_zbit g j in
       let g := if lo_present_known k
                then mkGroup (zbits g) (set_bit (cflags g) j) (bflags g)
                       (lgval g ++ [adc_sum raw LO_GAIN k]) (hgval g) (hgval8 g)
                else g in
       mkGroup (zbits g) (cflags g) (bflags g)
         (lgval g) (hgval g ++ [adc_sum raw HI_GAIN k]) (hgval8 g)
  else g.

Definition flush_z1_r1 (g : group) (j k : Z) : list wire :=
  put_vector_of_uint16 [zbits g]
    ++ (if negb (zbits g =? 0)
        then put_vector_of_uint16 [cflags g]
               ++ put_lg (lgval g) ++ put_adcsum version (hgval g)
        else []).

(** Mode 1, reduction 2 (lines 3540-3615). *)
Definition step_z1_r2 (g : group) (j k : Z) : group :=
  if negb (significant raw k =? 0)
  then let g := with_zbit g j in
       if lo_present_threshold k
       then mkGroup (zbits g) (set_bit (cflags g) j) (bflags g)
              (lgval g ++ [adc_sum raw LO_GAIN k])
              (hgval g ++ [adc_sum raw HI_GAIN k]) (hgval8 g)
       else step_hg8 g j k
  else g.

Definition flush_z1_r2 (g : group) (j k : Z) : list wire :=
  put_vector_of_uint16 [zbits g]
    ++ (if negb (zbits g =? 0)
        then put_vector_of_uint16 [cflags g]
               ++ put_vector_of_uint16 [bflags g]
               ++ put_lg (lgval g) ++ put_adcsum version (hgval g)
               ++ put_vector_of_uint8 (hgval8 g)
        else []).

(** The pixel list as written (lines 3642-3651 and the like). *)
Definition put_pixel_list (l : list Z) : list wire :=
  if version >=? 4
  then put_count (list_size raw) ++ put_vector_of_int_scount l
  else put_short (list_size raw) ++ put_vector_of_int l.

(** Mode 2, reduction 0 (lines 3632-3667). *)
Definition write_list_r0 : list wire :=
  let n := Z.to_nat (list_size raw) in
  let idx := slice (adc_list raw) 0 n in
  let hi := map (fun k => adc_sum raw HI_GAIN k) idx in
  let lo := map (fun k => adc_sum raw LO_GAIN k) idx in
  put_pixel_list idx ++ put_lg lo ++ put_adcsum version hi.

(** The working arrays of mode 2: the list with markup bits
    [adc_list_l], an array in automatic storage that is not initialised,
    and the vectors [adc_sum_l[LO_GAIN]], [adc_sum_l[HI_GAIN]],
    [adc_hg8] with their fill counts. *)
Record list_work : Type := mkListWork {
  adc_list_l : Z -> Z;
  lo_l : list Z;
  hi_l : list Z;
  hg8_l : list Z
}.

Definition mark_no_lg : Z := if version >=? 4 then 0x200000 else 0x2000.
Definition mark_hg8 : Z := if version >=? 4 then 0x600000 else 0x6000.

(** Mode 2, reduction 1, one turn of the loop over the list
    (lines 3678-3696). *)
Definition step_list_r1 (w : list_work) (j : Z) : list_work :=
  let k := adc_list raw j in
  let w :=
    if lo_present_known k
    then let mlg := zlength (lo_l w) in
         mkListWork (upd (adc_list_l w) mlg k)
           (lo_l w ++ [adc_sum raw LO_GAIN k]) (hi_l w) (hg8_l w)
    else mkListWork (upd (adc_list_l w) j (Z.lor (adc_list raw j) mark_no_lg))
           (lo_l w) (hi_l w) (hg8_l w) in
  mkListWork (adc_list_l w) (lo_l w) (hi_l w ++ [adc_sum raw HI_GAIN k]) (hg8_l w).

(** Mode 2, reduction 2, one turn of the loop (lines 3732-3768). *)
Definition step_list_r2 (w : list_work) (j : Z) : list_work :=
  let k := adc_list raw j in
  if lo_present_threshold k
  then mkListWork (upd (adc_list_l w) j (adc_list raw j))
         (lo_l w ++ [adc_sum raw LO_GAIN k])
         (hi_l w ++ [adc_sum raw HI_GAIN k]) (hg8_l w)
  else
    match reduce_hg8 (adc_sum raw HI_GAIN k) offset_hg8' scale_hg8' scale_hg8half with
    | Some v8 =>
        mkListWork (upd (adc_list_l w) j (Z.lor (adc_list raw j) mark_hg8))
          (lo_l w) (hi_l w) (hg8_l w ++ [uint8 v8])
    | None =>
        mkListWork (upd (adc_list_l w) j (Z.lor (adc_list raw j) mark_no_lg))
          (lo_l w) (hi_l w ++ [adc_sum raw HI_GAIN k]) (hg8_l w)
    end.

Fixpoint list_loop (step : list_work -> Z -> list_work) (n : nat) (j : Z)
    (w : list_work) : list_work :=
  match n with
  | O => w
  | S n' => list_loop step n' (j + 1) (step w j)
  end.

Definition write_list_r1 (adc_list_l0 : Z -> Z) : list wire :=
  let n := Z.to_nat (list_size raw) in
  let w := list_loop step_list_r1 n 0 (mkListWork adc_list_l0 [] [] []) in
  put_pixel_list (slice (adc_list_l w) 0 n)
    ++ put_lg (lo_l w) ++ put_adcsum version (hi_l w).

Definition write_list_r2 (adc_list_l0 : Z -> Z) : list wire :=
  let n := Z.to_nat (list_size raw) in
  let w := list_loop step_list_r2 n 0 (mkListWork adc_list_l0 [] [] []) in
  put_pixel_list (slice (adc_list_l w) 0 n)
    ++ put_lg (lo_l w) ++ put_adcsum version (hi_l w)
    ++ (if zlength (hg8_l w) >? 0 then put_vector_of_uint8 (hg8_l w) else []).

(** The [switch] over the two modes (lines 3289-3810); an [assert(0)]
    that is reached ends the program: no record. *)
Definition write_sums_data (adc_list_l0 : Z -> Z) (zero_sup_mode' data_red_mode' : Z)
  : option (list wire) :=
  let np := Z.to_nat (num_pixels raw) in
  match zero_sup_mode', data_red_mode' with
  | 0, 0 => Some (write_plain_gains (Z.to_nat (num_gains raw)) 0)
  | 0, 1 => Some (group_loop step_z0_r1 flush_z0_r1 np 0 0 group0)
  | 0, 2 => Some (group_loop step_z0_r2 flush_z0_r2 np 0 0 group0)
  | 1, 0 => Some (group_loop step_z1_r0 flush_z1_r0 np 0 0 group0)
  | 1, 1 => Some (group_loop step_z1_r1 flush_z1_r1 np 0 0 group0)
  | 1, 2 => Some (group_loop step_z1_r2 flush_z1_r2 np 0 0 group0)
  | 2, 0 => Some write_list_r0
  | 2, 1 => Some (write_list_r1 adc_list_l0)
  | 2, 2 => Some (write_list_r2 adc_list_l0)
  | _, _ => None
  end.

End WriteSums.

(** Lines 3205-3207: the list of the pixels with any significance bit. *)
Fixpoint make_pixel_list (sig : Z -> Z) (n : nat) (i : Z)
    (lst : Z -> Z) (nlst : Z) : (Z -> Z) * Z :=
  match n with
  | O => (lst, nlst)
  | S n' =>
      if negb (sig i =? 0)
      then make_pixel_list sig n' (i + 1) (upd lst nlst i) (nlst + 1)
      else make_pixel_list sig n' (i + 1) lst nlst
  end.

(** Lines 3267-3269: [mm += (int) raw->adc_sum[HI_GAIN][k]]. *)
Fixpoint sum_hi_gain (hi : Z -> Z) (n : nat) (k : Z) (mm : Z) : Z :=
  match n with
  | O => mm
  | S n' => sum_hi_gain hi n' (k + 1) (int32 (mm + int32 (hi k)))
  end.

(** Lines 3164-3168. *)
Definition sums_version (raw : AdcData) : Z :=
  let version := 3 in
  let version :=
    if (num_pixels raw >? 32767) && (zero_sup_mode raw >=? 2)
    then 4 else version in
  if (num_pixels raw >? 8191) && (zero_sup_mode raw >=? 2)
       && negb (data_red_mode raw =? 0)
  then 4 else version.

(** The modes after lines 3147-3148 and 3171-3184. *)
Definition sums_zero_sup_mode (raw : AdcData) : Z :=
  let zero_sup_mode' := Z.land (zero_sup_mode raw) 0x1f in
  if (num_pixels raw >=? 32768) && (zero_sup_mode' >=? 2)
       && (sums_version raw <? 4)
  then 1 else zero_sup_mode'.

Definition sums_data_red_mode (raw : AdcData) : Z :=
  let data_red_mode' := Z.land (data_red_mode raw) 0x1f in
  let data_red_mode' := if threshold raw =? 0 then 0 else data_red_mode' in
  if (num_pixels raw >=? 8192) && (data_red_mode' >? 0)
       && (sums_version raw <? 4)
  then 0 else data_red_mode'.

(** Lines 3187-3192: the combination of options is not supported. *)
Definition sums_unsupported (raw : AdcData) : bool :=
  let version := sums_version raw in
  let zero_sup_mode' := sums_zero_sup_mode raw in
  let data_red_mode' := sums_data_red_mode raw in
  (list_known raw <? 0) || (list_known raw >? 2)
  || (zero_sup_mode' <? 0) || (zero_sup_mode' >? 4)
  || (data_red_mode' <? 0) || (data_red_mode' >? 2)
  || (num_pixels raw <? 0)
  || ((num_pixels raw >? 4095) && (version <? 2))
  || (num_gains raw <? 1) || (num_gains raw >? 2).

(** Lines 3202-3230: create the pixel list where asked for and find the
    suppression scheme; the structure is updated and the mode returned. *)
Definition sums_select_mode (raw : AdcData) (zero_sup_mode' : Z)
  : AdcData * Z :=
  let '(raw, zero_sup_mode') :=
    if (zero_sup_mode' =? 3)
         || ((zero_sup_mode' =? 2) && (list_known raw =? 0))
    then
      let '(lst, nlst) :=
        make_pixel_list (significant raw) (Z.to_nat (num_pixels raw)) 0
          (adc_list raw) 0 in
      let raw := set_adc_list raw lst in
      let raw := set_list_known raw 1 in
      let raw := set_list_size raw nlst in
      if zero_sup_mode' =? 3
      then
        if Z.quot (17 * nlst) 16 >? num_pixels raw then (raw, 0)
        else if 15 * nlst >? num_pixels raw then (raw, 1)
        else (raw, 2)
      else (raw, zero_sup_mode')
    else (raw, zero_sup_mode') in
  if zero_sup_mode' =? 2 then (set_list_known raw 1, zero_sup_mode')
  else if zero_sup_mode' =? 3 then (raw, 1)
  else (raw, zero_sup_mode').

(** Lines 3234-3242: the identifier. *)
Definition sums_flags (raw : AdcData) (version zero_sup_mode' data_red_mode' : Z)
  : Z :=
  let flags :=
    Z.lor (Z.lor zero_sup_mode' (Z.shiftl data_red_mode' 5))
      (Z.shiftl (if negb (list_known raw =? 0) then 1 else 0) 10) in
  if version <? 2
  then Z.lor flags
         (Z.lor (Z.lor (Z.shiftl (num_pixels raw) 12)
                   (Z.shiftl (if num_gains raw =? 2 then 1 else 0) 24))
            (Z.shiftl (Z.land (tel_id raw) 0x1f) 25))
  else Z.lor flags (Z.shiftl (Z.land (tel_id raw) 0xffff) 12).

(** Lines 3260-3283: offset and scale of the 8-bit representation as
    used and written; a camera without pixels has no mean amplitude. *)
Definition sums_hg8_params (raw : AdcData) : option (Z * Z) :=
  let offset_hg8' := offset_hg8 raw in
  let scale_hg8' := scale_hg8 raw in
  let offset_opt :=
    if offset_hg8' <=? 0
    then
      let mm := sum_hi_gain (adc_sum raw HI_GAIN)
                  (Z.to_nat (num_pixels raw)) 0 0 in
      if num_pixels raw =? 0 then None
      else Some (Z.quot mm (num_pixels raw))
    else Some offset_hg8' in
  match offset_opt with
  | None => None
  | Some offset_hg8' =>
      let offset_hg8' := if offset_hg8' >? 32767 then 32767 else offset_hg8' in
      let scale_hg8' :=
        if scale_hg8' <? 1 then 1
        else if scale_hg8' >? 100 then 100 else scale_hg8' in
      Some (offset_hg8', scale_hg8')
  end.

(** The body of the record (lines 3247-3810). *)
Definition write_sums_body (adc_list_l0 : Z -> Z) (raw : AdcData)
    (version zero_sup_mode' data_red_mode' : Z) : option (list wire) :=
  let params :=
    if (version >=? 4) && (data_red_mode raw =? 2)
    then put_scount32 (threshold raw) ++ put_scount32 (offset_hg8 raw)
           ++ put_scount32 (scale_hg8 raw)
    else [] in
  let counts :=
    if version >=? 2
    then put_long (num_pixels raw) ++ put_short (num_gains raw)
    else [] in
  let hg8 :=
    if data_red_mode' =? 2
    then match sums_hg8_params raw with
         | Some (o, s) => Some (o, s, Z.quot s 2, put_short o ++ put_short s)
         | None => None
         end
    else Some (0, 0, 0, []) in
  match hg8 with
  | None => None
  | Some (offset_hg8', scale_hg8', scale_hg8half, hg8_fields) =>
      match write_sums_data raw version offset_hg8' scale_hg8' scale_hg8half
              adc_list_l0 zero_sup_mode' data_red_mode' with
      | None => None
      | Some data => Some (params ++ counts ++ hg8_fields ++ data)
      end
  end.

(** [write_hess_teladc_sums]: the status, the buffer and the structure
    after the call; [adc_list_l0] is what the automatic array
    [adc_list_l] holds before anything is assigned to it.  The pointers
    are taken to be valid (a null pointer is answered with -1 before the
    structure is looked at). *)
Definition write_hess_teladc_sums (adc_list_l0 : Z -> Z) (iobuf : IO_BUFFER)
    (raw : AdcData) : option (Z * IO_BUFFER * AdcData) :=
  if known raw =? 0 then Some (0, iobuf, raw)
  else
    let version := sums_version raw in
    if sums_unsupported raw then Some (-1, iobuf, raw)
    else
      let '(raw, zero_sup_mode') :=
        sums_select_mode raw (sums_zero_sup_mode raw) in
      let data_red_mode' := sums_data_red_mode raw in
      let flags := sums_flags raw version zero_sup_mode' data_red_mode' in
      match write_sums_body adc_list_l0 raw version zero_sup_mode'
              data_red_mode' with
      | None => None
      | Some body =>
          let '(rc, iobuf) :=
            put_item iobuf IO_TYPE_HESS_TELADCSUM version flags body in
          Some (rc, iobuf, raw)
      end.

(* ===================================================================== *)
(** ** read_hess_teladc_sums (io_hess.c, lines 3823-4376) *)
(* ===================================================================== *)

(** [for (j=0; j<n; j++) a[j] = v], also what [memset] does for [v = 0]. *)
Definition fill (a : Z -> Z) (n v : Z) : Z -> Z :=
  fun j => if (0 <=? j) && (j <? n) then v else a j.

(** [for (i=0; i<ng; i++) for (j=0; j<n; j++) a[i][j] = v] *)
Definition fill2 (a : Z -> Z -> Z) (ng n v : Z) : Z -> Z -> Z :=
  fun i => if (0 <=? i) && (i <? ng) then fill (a i) n v else a i.

Definition get_adcsum (version n : Z) : get (list Z) :=
  if version <? 3 then get_adcsum_as_uint16 n
  else get_vector_of_uint32_scount_differential n.

(** [get_vector_of_uint16(&x,1,iobuf)] *)
Definition get_flags : get Z :=
  l <- get_vector_of_uint16 1 ;; ret (nth 0 l 0).

Definition znth (l : list Z) (i : Z) : Z := nth (Z.to_nat i) l 0.

Definition set_sum (raw : AdcData) (g k v : Z) : AdcData :=
  set_adc_sum raw (upd2 (adc_sum raw) g k v).
Definition set_kn (raw : AdcData) (g k v : Z) : AdcData :=
  set_adc_known raw (upd2 (adc_known raw) g k v).
Definition set_sig (raw : AdcData) (k v : Z) : AdcData :=
  set_significant raw (upd (significant raw) k v).

(** How many of the first [n] bits of [flags] are set, from bit [j] on. *)
Fixpoint count_flags (flags : Z) (n : nat) (j : Z) : Z :=
  match n with
  | O => 0
  | S n' => (if bit flags j then 1 else 0) + count_flags flags n' (j + 1)
  end.

Section ReadSums.

Variable version : Z.
(** What [scale_hg8] and [offset_hg8] hold (16-bit unsigned locals). *)
Variables scale_hg8' offset_hg8' : Z.
(** What the automatic array [lgval] holds before anything is read into it. *)
Variable lgval0 : Z -> Z.

(** The low-gain vector of a group: read for two gains, left alone
    otherwise. *)
Definition get_lg (ng mlg : Z) : get (list Z) :=
  if ng >=? 2 then get_adcsum version mlg
  else ret (slice lgval0 0 (Z.to_nat mlg)).

(** Mode 0, reduction 0 (lines 3963-3974). *)
Fixpoint read_plain_gains (n : nat) (i : Z) (raw : AdcData) : get AdcData :=
  match n with
  | O => ret raw
  | S n' =>
      l <- get_adcsum version (num_pixels raw) ;;
      read_plain_gains n' (i + 1)
        (set_adc_sum raw (upd (adc_sum raw) i (store (adc_sum raw i) 0 l)))
  end.

(** Mode 0, reduction 1: the assignments for one group (lines 4014-4029). *)
Fixpoint assign_z0_r1 (cfl : Z) (lg : list Z) (k : Z) (n : nat)
    (j mlg : Z) (raw : AdcData) : AdcData :=
  match n with
  | O => raw
  | S n' =>
      let '(raw, mlg) :=
        if bit cfl j
        then (set_kn (set_sum raw LO_GAIN (k + j) (znth lg mlg)) LO_GAIN (k + j) 1,
              mlg + 1)
        else (set_kn (set_sum raw LO_GAIN (k + j) 0) LO_GAIN (k + j) 0, mlg) in
      let raw := set_kn raw HI_GAIN (k + j) 1 in
      let raw := set_sig raw (k + j) 1 in
      assign_z0_r1 cfl lg k n' (j + 1) mlg raw
  end.

(** Mode 0, reduction 1: one group (lines 3981-4030). *)
Definition read_group_z0_r1 (k n : Z) (raw : AdcData) : get AdcData :=
  cfl <- get_flags ;;
  let mlg := count_flags cfl (Z.to_nat n) 0 in
  lg <- get_lg (num_gains raw) mlg ;;
  hg <- get_adcsum version n ;;
  let raw := set_adc_sum raw
               (upd (adc_sum raw) HI_GAIN (store (adc_sum raw HI_GAIN) k hg)) in
  ret (assign_z0_r1 cfl lg k (Z.to_nat n) 0 0 raw).

(** Mode 0, reduction 2: the counts for one group (lines 4044-4055),
    as [(mlg, mhg16, mhg8)]. *)
Fixpoint count_z0_r2 (cfl bfl : Z) (n : nat) (j : Z) : Z * Z * Z :=
  match n with
  | O => (0, 0, 0)
  | S n' =>
      let '(mlg, mhg16, mhg8) := count_z0_r2 cfl bfl n' (j + 1) in
      if bit cfl j then (mlg + 1, mhg16 + 1, mhg8)
      else if bit bfl j then (mlg, mhg16, mhg8 + 1)
      else (mlg, mhg16 + 1, mhg8)
  end.

(** Mode 0, reduction 2: the assignments for one group (lines 4083-4101). *)
Fixpoint assign_z0_r2 (cfl bfl : Z) (lg hg hg8 : list Z) (k : Z) (n : nat)
    (j mlg mhg16 mhg8 : Z) (raw : AdcData) : AdcData :=
  match n with
  | O => raw
  | S n' =>
      let '(raw, mlg, mhg16, mhg8) :=
        if bit cfl j
        then (set_sum (set_kn (set_sum raw LO_GAIN (k + j) (znth lg mlg))
                         LO_GAIN (k + j) 1)
                HI_GAIN (k + j) (znth hg mhg16),
              mlg + 1, mhg16 + 1, mhg8)
        else if bit bfl j
        then (set_sum raw HI_GAIN (k + j)
                (expand_hg8 (znth hg8 mhg8) scale_hg8' offset_hg8'),
              mlg, mhg16, mhg8 + 1)
        else (set_sum raw HI_GAIN (k + j) (znth hg mhg16),
              mlg, mhg16 + 1, mhg8) in
      let raw := set_kn raw HI_GAIN (k + j) 1 in
      let raw := set_sig raw (k + j) 1 in
      assign_z0_r2 cfl bfl lg hg hg8 k n' (j + 1) mlg mhg16 mhg8 raw
  end.

(** Mode 0, reduction 2: one group (lines 4037-4102). *)
Definition read_group_z0_r2 (k n : Z) (raw : AdcData) : get AdcData :=
  cfl <- get_flags ;;
  bfl <- get_flags ;;
  let '(mlg, mhg16, mhg8) := count_z0_r2 cfl bfl (Z.to_nat n) 0 in
  lg <- get_lg (num_gains raw) mlg ;;
  hg <- get_adcsum version mhg16 ;;
  hg8 <- get_vector_of_uint8 mhg8 ;;
  ret (assign_z0_r2 cfl bfl lg hg hg8 k (Z.to_nat n) 0 0 0 0 raw).

(** Mode 1: the counts for one group with data reduction
    (lines 4150-4171), as [(mlg, mhg16, mhg8)]. *)
Fixpoint count_z1 (drm zb cfl bfl : Z) (n : nat) (j : Z) : Z * Z * Z :=
  match n with
  | O => (0, 0, 0)
  | S n' =>
      let '(mlg, mhg16, mhg8) := count_z1 drm zb cfl bfl n' (j + 1) in
      if negb (bit zb j) then (mlg, mhg16, mhg8)
      else if bit cfl j then (mlg + 1, mhg16 + 1, mhg8)
      else if drm =? 2
      then if bit bfl j then (mlg, mhg16, mhg8 + 1)
           else (mlg, mhg16 + 1, mhg8)
      else (mlg, mhg16 + 1, mhg8)
  end.

(** Mode 1: the assignments for one group (lines 4207-4241). *)
Fixpoint assign_z1 (drm zb cfl bfl : Z) (lg hg hg8 : list Z) (k : Z) (n : nat)
    (j mlg mhg16 mhg8 : Z) (raw : AdcData) : AdcData :=
  match n with
  | O => raw
  | S n' =>
      let '(raw, mlg, mhg16, mhg8) :=
        if bit zb j
        then
          let raw := set_sig raw (k + j) 1 in
          if (drm <? 1) || bit cfl j
          then
            let raw := set_sum raw LO_GAIN (k + j) (znth lg mlg) in
            let raw := set_sum raw HI_GAIN (k + j) (znth hg mhg16) in
            let raw := set_kn raw LO_GAIN (k + j) 1 in
            let raw := set_kn raw HI_GAIN (k + j) 1 in
            (raw, mlg + 1, mhg16 + 1, mhg8)
          else
            let raw := set_sum raw LO_GAIN (k + j) 0 in
            let '(raw, mhg16, mhg8) :=
              if (drm =? 2) && bit bfl j
              then (set_sum raw HI_GAIN (k + j)
                      (expand_hg8 (znth hg8 mhg8) scale_hg8' offset_hg8'),
                    mhg16, mhg8 + 1)
              else (set_sum raw HI_GAIN (k + j) (znth hg mhg16),
                    mhg16 + 1, mhg8) in
            let raw := set_kn raw HI_GAIN (k + j) 1 in
            (raw, mlg, mhg16, mhg8)
        else (raw, mlg, mhg16, mhg8) in
      assign_z1 drm zb cfl bfl lg hg hg8 k n' (j + 1) mlg mhg16 mhg8 raw
  end.

(** Mode 1: one group (lines 4121-4244).  [hgval8] keeps what it held
    when no reduced amplitude is read; none is used then. *)
Definition read_group_z1 (k n : Z) (raw : AdcData) : get AdcData :=
  zb <- get_flags ;;
  if zb >? 0
  then
    let m := count_flags zb (Z.to_nat n) 0 in
    let drm := data_red_mode raw in
    flags_counts <-
      (if drm >=? 1
       then
         cfl <- get_flags ;;
         bfl <- (if drm =? 2 then get_flags else ret 0) ;;
         ret (cfl, bfl, count_z1 drm zb cfl bfl (Z.to_nat n) 0)
       else ret (0, 0, (m, m, 0))) ;;
    let '(cfl, bfl, (mlg, mhg16, mhg8)) := flags_counts in
    if m >? 0
    then
      lg <- get_lg (num_gains raw) mlg ;;
      hg <- get_adcsum version mhg16 ;;
      hg8 <- (if mhg8 >? 0 then get_vector_of_uint8 mhg8 else ret []) ;;
      ret (assign_z1 drm zb cfl bfl lg hg hg8 k (Z.to_nat n) 0 0 0 0 raw)
    else ret raw
  else ret raw.

(** The loop over the groups of 16 pixels:
[[
   k = 0;
   while ( k < raw->num_pixels )
   {
      if ( k + 16 <= raw->num_pixels ) n = 16; else n = raw->num_pixels - k;
      (one group)
      k += n;
   }
]]
    Every turn moves [k] forward, so [num_pixels] turns are enough. *)
Fixpoint read_groups (one : Z -> Z -> AdcData -> get AdcData) (fuel : nat)
    (k : Z) (raw : AdcData) : get AdcData :=
  match fuel with
  | O => ret raw
  | S fuel' =>
      if k <? num_pixels raw
      then
        let n := if k + 16 <=? num_pixels raw then 16
                 else num_pixels raw - k in
        raw' <- one k n raw ;;
        read_groups one fuel' (k + n) raw'
      else ret raw
  end.

(** Mode 2: the markup bits of the list entries (lines 4277-4305),
    giving the pixel, [without_lg] and [reduced_width]. *)
Definition list_entry (e : Z) : Z * bool * bool :=
  if version >=? 4
  then (Z.land e 0x1fffff, negb (Z.land e 0x200000 =? 0),
        negb (Z.land e 0x400000 =? 0))
  else (Z.land e 0x1fff, negb (Z.land e 0x2000 =? 0),
        negb (Z.land e 0x4000 =? 0)).

Fixpoint count_list (ng : Z) (l : list Z) : Z * Z * Z :=
  match l with
  | [] => (0, 0, 0)
  | e :: l' =>
      let '(mlg, mhg16, mhg8) := count_list ng l' in
      let '(_, without_lg, reduced_width) := list_entry e in
      if reduced_width then (mlg, mhg16, mhg8 + 1)
      else if (ng <? 2) || without_lg then (mlg, mhg16 + 1, mhg8)
      else (mlg + 1, mhg16 + 1, mhg8)
  end.

(** Mode 2: the assignments (lines 4333-4356). *)
Fixpoint assign_list (l : list Z) (lg hg hg8 : list Z) (j mlg mhg16 mhg8 : Z)
    (raw : AdcData) : AdcData :=
  match l with
  | [] => raw
  | e :: l' =>
      let '(k, without_lg, reduced_width) := list_entry e in
      let raw := set_adc_list raw (upd (adc_list raw) j k) in
      let raw := set_sig raw k 1 in
      let '(raw, mhg16, mhg8) :=
        if reduced_width
        then (set_sum raw HI_GAIN k
                (expand_hg8 (znth hg8 mhg8) scale_hg8' offset_hg8'),
              mhg16, mhg8 + 1)
        else (set_sum raw HI_GAIN k (znth hg mhg16), mhg16 + 1, mhg8) in
      let raw := set_kn raw HI_GAIN k 1 in
      let '(raw, mlg) :=
        if num_gains raw <=? 1 then (set_kn raw LO_GAIN k 0, mlg)
        else if without_lg
        then (set_kn (set_sum raw LO_GAIN k 0) LO_GAIN k 0, mlg)
        else (set_kn (set_sum raw LO_GAIN k (znth lg mlg)) LO_GAIN k 1,
              mlg + 1) in
      assign_list l' lg hg hg8 (j + 1) mlg mhg16 mhg8 raw
  end.

(** Mode 2 (lines 4266-4356).  The list is read and decoded first, the
    amplitudes after it; the entries of [raw->adc_list] are assigned in
    the first loop of the source and, for the model, together with the
    rest in the second one. *)
Definition read_list (raw : AdcData) : get AdcData :=
  ls <- (if version >=? 4 then get_count else get_short) ;;
  let raw := set_list_size raw (int32 ls) in
  l <- (if version >=? 4 then get_vector_of_int_scount (list_size raw)
        else get_vector_of_int (list_size raw)) ;;
  let '(mlg, mhg16, mhg8) := count_list (num_gains raw) l in
  lg <- (if num_gains raw >=? 2
         then (if version <? 2 then get_adcsum_as_uint16 mlg
               else get_adcsum_differential mlg)
         else ret []) ;;
  hg <- (if version <? 2 then get_adcsum_as_uint16 mhg16
         else get_adcsum_differential mhg16) ;;
  hg8 <- (if mhg8 >? 0 then get_vector_of_uint8 mhg8 else ret []) ;;
  ret (assign_list l lg hg hg8 0 0 0 0 raw).

(** The [switch] over the modes (lines 3949-4367). *)
Definition read_sums_data (raw : AdcData) : get AdcData :=
  let fuel := Z.to_nat (num_pixels raw) in
  match zero_sup_mode raw, data_red_mode raw with
  | 0, 0 => read_plain_gains (Z.to_nat (num_gains raw)) 0 raw
  | 0, 1 => read_groups read_group_z0_r1 fuel 0 raw
  | 0, 2 => read_groups read_group_z0_r2 fuel 0 raw
  | 1, 0 | 1, 1 | 1, 2 => read_groups read_group_z1 fuel 0 raw
  | 2, 0 | 2, 1 | 2, 2 => read_list raw
  | _, _ => fun _ => None
  end.

End ReadSums.

Section Limits.

(** The compiled maxima of io_hess.h; their values depend on the
    configuration the library is built for. *)
Variable H_MAX_PIX : Z.
Variable H_MAX_SLICES : Z.

(** Lines 3858-3885: the fields of the header that follow the modes. *)
Definition read_sums_header (version flags : Z) (raw : AdcData) : get AdcData :=
  raw <- (if (version >=? 4) && (data_red_mode raw =? 2)
          then
            t <- get_scount32 ;;
            o <- get_scount32 ;;
            s <- get_scount32 ;;
            ret (set_scale_hg8 (set_offset_hg8 (set_threshold raw t) o) s)
          else ret raw) ;;
  let raw := set_list_known raw (Z.land (Z.shiftr flags 10) 0x01) in
  raw <- (if version =? 0
          then
            let raw := set_tel_id raw (Z.land (Z.shiftr flags 25) 0x1f) in
            let raw := set_num_pixels raw (Z.land (Z.shiftr flags 12) 0x07ff) in
            ret (set_num_gains raw (Z.land (Z.shiftr flags 23) 0x03))
          else if version =? 1
          then
            let raw := set_tel_id raw (Z.land (Z.shiftr flags 25) 0x1f) in
            let raw := set_num_pixels raw (Z.land (Z.shiftr flags 12) 0x0fff) in
            ret (set_num_gains raw
                   (if negb (Z.land (Z.shiftr flags 24) 0x01 =? 0) then 2 else 1))
          else
            let raw := set_tel_id raw (Z.land (Z.shiftr flags 12) 0xffff) in
            np <- get_long ;;
            ng <- get_short ;;
            ret (set_num_gains (set_num_pixels raw np) ng)) ;;
  ret (set_num_samples raw 0).

(** Lines 3887-3895: limits exceeded or bad mode. *)
Definition sums_invalid (raw : AdcData) : bool :=
  (num_pixels raw >? H_MAX_PIX)
  || (num_gains raw >? H_MAX_GAINS)
  || ((num_pixels raw >=? 32768) && (zero_sup_mode raw >? 1))
  || (zero_sup_mode raw >? 2)
  || (data_red_mode raw >? 2).

(** Lines 3905-3943: the parameters of the 8-bit representation, as
    [(raw, scale_hg8, offset_hg8)], and the initial values. *)
Definition read_sums_hg8 (raw : AdcData) : get (AdcData * Z * Z) :=
  if data_red_mode raw =? 2
  then
    o <- get_short ;;
    let offset_hg8' := uint16 o in
    let raw := set_offset_hg8 raw offset_hg8' in
    s <- get_short ;;
    let scale_hg8' := uint16 s in
    let raw := set_scale_hg8 raw scale_hg8' in
    let scale_hg8' := if scale_hg8' <=? 0 then 1 else scale_hg8' in
    ret (raw, scale_hg8', offset_hg8')
  else ret (raw, 1, 0).

Definition init_sums (raw : AdcData) : AdcData :=
  let k := if (zero_sup_mode raw =? 0) && (data_red_mode raw =? 0)
           then 1 else 0 in
  let raw := set_significant raw (fill (significant raw) (num_pixels raw) k) in
  let raw := set_adc_known raw
               (fill2 (adc_known raw) (num_gains raw) (num_pixels raw) k) in
  set_adc_sum raw (fill2 (adc_sum raw) (num_gains raw) (num_pixels raw) 0).

(** [read_hess_teladc_sums]: the status, the structure and the buffer
    after the call; [lgval0] is what the automatic array [lgval] holds on
    entry.  The pointers are taken to be valid. *)
Definition read_hess_teladc_sums (lgval0 : Z -> Z) (iobuf : IO_BUFFER)
    (raw : AdcData) : option (Z * AdcData * IO_BUFFER) :=
  let raw := set_known raw 0 in
  let raw := set_num_pixels raw 0 in
  match get_item_begin iobuf IO_TYPE_HESS_TELADCSUM with
  | inl rc => Some (rc, raw, iobuf)
  | inr (it, rest) =>
      let version := it_version it in
      if version >? 4 then Some (-1, raw, rest)
      else
        let flags := uint32 (it_ident it) in
        let raw := set_zero_sup_mode raw (Z.land flags 0x1f) in
        let raw := set_data_red_mode raw (Z.land (Z.shiftr flags 5) 0x1f) in
        match read_sums_header version flags raw (it_body it) with
        | None => None
        | Some (raw, s) =>
            if sums_invalid raw
            then Some (-1, set_num_pixels raw 0, rest)
            else
              match (p <- read_sums_hg8 raw ;;
                     let '(raw, scale_hg8', offset_hg8') := p in
                     read_sums_data version scale_hg8' offset_hg8' lgval0
                       (init_sums raw)) s with
              | None => None
              | Some (raw, _) => Some (get_item_end, set_known raw 1, rest)
              end
        end
  end.

(* ===================================================================== *)
(** ** write_hess_teladc_samples (io_hess.c, lines 4504-4674) *)
(* ===================================================================== *)

(** The pixel ranges are kept with the most recent one in front:
    [pixel_list[list_size-1]] is the head, [list_size] the length. *)
Definition range_step (pl : list (Z * Z)) (s sl ipix : Z) : list (Z * Z) :=
  if negb (s =? 0) && (s =? sl) && (zlength pl >? 0)
  then match pl with
       | (first, _) :: older => (first, ipix) :: older
       | [] => []
       end
  else if negb (s =? 0) then (ipix, ipix) :: pl
  else pl.

(** Lines 4574-4601. *)
Fixpoint make_ranges (raw : AdcData) (with_lg : bool) (n : nat)
    (ipix sl slx : Z) (pl pl_lg : list (Z * Z)) : list (Z * Z) * list (Z * Z) :=
  match n with
  | O => (pl, pl_lg)
  | S n' =>
      let s := Z.land (significant raw ipix) 0x20 in
      let pl := range_step pl s sl ipix in
      let sl := s in
      if with_lg
      then
        let sx := s in
        let sx := if negb (sx =? 0)
                       && (Z.land (adc_known raw LO_GAIN ipix) 0x02 =? 0)
                  then 0 else sx in
        let pl_lg := range_step pl_lg sx slx ipix in
        make_ranges raw with_lg n' (ipix + 1) sl sx pl pl_lg
      else make_ranges raw with_lg n' (ipix + 1) sl slx pl pl_lg
  end.

(** Lines 4604-4614. *)
Fixpoint put_ranges (l : list (Z * Z)) : list wire :=
  match l with
  | [] => []
  | (a, b) :: l' =>
      (if a =? b then put_scount (- a - 1)
       else put_scount a ++ put_scount b) ++ put_ranges l'
  end.

Definition put_range_list (l : list (Z * Z)) : list wire :=
  put_scount32 (zlength l) ++ put_ranges l.

(** [for ( ipix=first; ipix<=last; ipix++ ) put_adcsample_differential(...)] *)
Fixpoint put_traces (tr : Z -> Z -> Z) (ns : Z) (n : nat) (ipix : Z) : list wire :=
  match n with
  | O => []
  | S n' =>
      put_adcsample_differential (slice (tr ipix) 0 (Z.to_nat ns))
        ++ put_traces tr ns n' (ipix + 1)
  end.

Fixpoint put_range_traces (tr : Z -> Z -> Z) (ns : Z) (l : list (Z * Z))
  : list wire :=
  match l with
  | [] => []
  | (a, b) :: l' =>
      put_traces tr ns (Z.to_nat (b - a + 1)) a ++ put_range_traces tr ns l'
  end.

(** [for (igain=...; igain<raw->num_gains; igain++) (one gain)] *)
Fixpoint put_gains (one : Z -> list wire) (n : nat) (igain : Z) : list wire :=
  match n with
  | O => []
  | S n' => one igain ++ put_gains one n' (igain + 1)
  end.

(** Lines 4509-4510 and 4527-4530. *)
Definition samples_zero_sup_mode (raw : AdcData) : Z :=
  Z.shiftr (Z.land (zero_sup_mode raw) 0x20) 5.

Definition samples_data_red_mode (raw : AdcData) : Z :=
  if negb (Z.land (data_red_mode raw) 0x20 =? 0)
       && negb (samples_zero_sup_mode raw =? 0)
  then 1 else 0.

Definition samples_version (raw : AdcData) : Z :=
  if samples_data_red_mode raw >? 0 then 4 else 3.

(** Lines 4542-4552: the identifier, with the zero-suppression mode as it
    is after line 4549. *)
Definition samples_flags (raw : AdcData) (version zero_sup_mode' : Z) : Z :=
  let flags :=
    if version <? 2
    then uint32 (Z.lor (Z.lor (Z.shiftl (num_pixels raw) 12)
                          (Z.shiftl (if num_gains raw =? 2 then 1 else 0) 24))
                   (Z.shiftl (Z.land (tel_id raw) 0x1f) 25))
    else uint32 (Z.shiftl (Z.land (tel_id raw) 0xffff) 12) in
  let flags := Z.lor flags (Z.land zero_sup_mode' 0x1f) in
  if negb (samples_data_red_mode raw =? 0) then Z.lor flags 0x20 else flags.

(** The body of the record (lines 4557-4671). *)
Definition write_samples_body (raw : AdcData) (version zero_sup_mode' : Z)
  : list wire :=
  let data_red_mode' := samples_data_red_mode raw in
  let ns := num_samples raw in
  let counts :=
    if version >=? 2
    then put_long (num_pixels raw) ++ put_short (num_gains raw)
    else [] in
  counts ++ put_short ns ++
  (if negb (zero_sup_mode' =? 0)
   then
     let with_lg := negb (data_red_mode' =? 0) && (num_gains raw >? 1) in
     let '(pl, pl_lg) :=
       make_ranges raw with_lg (Z.to_nat (num_pixels raw)) 0 (-1) (-1) [] [] in
     let pixel_list := rev pl in
     let pixel_list_lg := rev pl_lg in
     put_range_list pixel_list
     ++ (if with_lg then put_range_list pixel_list_lg else [])
     ++ (if negb (data_red_mode raw =? 0)
         then
           put_range_traces (adc_sample raw HI_GAIN) ns pixel_list
           ++ (if num_gains raw >? 1
               then put_range_traces (adc_sample raw LO_GAIN) ns pixel_list_lg
               else [])
         else
           put_gains
             (fun igain => put_range_traces (adc_sample raw igain) ns pixel_list)
             (Z.to_nat (num_gains raw)) 0)
   else if version <? 3
   then
     put_gains
       (fun igain =>
          flat_map (fun ipix =>
                      put_vector_of_uint16
                        (slice (adc_sample raw igain ipix) 0 (Z.to_nat ns)))
            (slice (fun i => i) 0 (Z.to_nat (num_pixels raw))))
       (Z.to_nat (num_gains raw)) 0
   else
     put_gains
       (fun igain =>
          put_traces (adc_sample raw igain) ns (Z.to_nat (num_pixels raw)) 0)
       (Z.to_nat (num_gains raw)) 0).

(** [write_hess_teladc_samples]: the status and the buffer after the
    call.  (The test of the pointers in the source comes after [raw] has
    been read; the pointers are taken to be valid.) *)
Definition write_hess_teladc_samples (iobuf : IO_BUFFER) (raw : AdcData)
  : Z * IO_BUFFER :=
  let zero_sup_mode' := samples_zero_sup_mode raw in
  if known raw =? 0 then (0, iobuf)
  else
    let version := samples_version raw in
    if (num_pixels raw <? 0)
       || ((num_pixels raw >? 4095) && (version <? 2))
       || (num_gains raw <? 1) || (num_gains raw >? H_MAX_GAINS)
    then (-1, iobuf)
    else
      let zero_sup_mode' := if version <? 3 then 0 else zero_sup_mode' in
      put_item iobuf IO_TYPE_HESS_TELADCSAMP version
        (samples_flags raw version zero_sup_mode')
        (write_samples_body raw version zero_sup_mode').

(* ===================================================================== *)
(** ** read_hess_teladc_samples (io_hess.c, lines 4681-4940) *)
(* ===================================================================== *)

(** Lines 4790-4802: the list of pixel ranges. *)
Fixpoint get_ranges (n : nat) : get (list (Z * Z)) :=
  match n with
  | O => ret []
  | S n' =>
      v <- get_scount ;;
      let ipix1 := int32 v in
      r <- (if ipix1 <? 0
            then let ipix2 := - ipix1 - 1 in ret (ipix2, ipix2)
            else v2 <- get_scount ;; ret (ipix1, int32 v2)) ;;
      l <- get_ranges n' ;;
      ret (r :: l)
  end.

(** [sum = 0; for (isamp=0; isamp<n; isamp++) sum += trace[isamp]],
    in 32-bit unsigned arithmetic. *)
Fixpoint sum_samples (trace : Z -> Z) (n : nat) (isamp : Z) (sum : Z) : Z :=
  match n with
  | O => sum
  | S n' => sum_samples trace n' (isamp + 1) (uint32 (sum + trace isamp))
  end.

Definition set_trace (raw : AdcData) (g p : Z) (l : list Z) : AdcData :=
  set_adc_sample raw
    (upd2 (adc_sample raw) g p (store (adc_sample raw g p) 0 l)).

Section ReadSamples.

Variable what : Z.

Definition rawsum_wanted : bool := negb (Z.land what RAWSUM_FLAG =? 0).

(** Lines 4772-4779. *)
Definition clear_sample_bits (raw : AdcData) : AdcData :=
  let np := num_pixels raw in
  let inside j := (0 <=? j) && (j <? np) in
  let raw := set_significant raw
               (fun j => if inside j
                         then Z.land (significant raw j) (Z.lnot 0xe0)
                         else significant raw j) in
  set_adc_known raw
    (fun g j => if ((g =? 0) || (g =? 1)) && inside j
                then Z.land (adc_known raw g j) 0x01
                else adc_known raw g j).

(** Lines 4859-4885: one channel of a zero-suppressed record. *)
Definition read_channel_zs (igain ipix : Z) (raw : AdcData) : get AdcData :=
  l <- get_vector_of_uint16_scount_differential (num_samples raw) ;;
  let raw := set_trace raw igain ipix l in
  let raw := set_sig raw ipix (Z.lor (significant raw ipix) 0x20) in
  let raw :=
    if adc_known raw igain ipix =? 0
    then
      if rawsum_wanted
      then
        let sum := sum_samples (adc_sample raw igain ipix)
                     (Z.to_nat (num_samples raw)) 0 0 in
        set_kn (set_sum raw igain ipix sum) igain ipix 1
      else set_sum raw igain ipix 0
    else raw in
  ret (set_kn raw igain ipix (Z.lor (adc_known raw igain ipix) 2)).

(** Lines 4897-4930: one channel of a record without zero suppression. *)
Definition read_channel_plain (version igain ipix : Z) (raw : AdcData)
  : get AdcData :=
  l <- (if version <? 3 then get_vector_of_uint16 (num_samples raw)
        else get_vector_of_uint16_scount_differential (num_samples raw)) ;;
  let raw := set_trace raw igain ipix l in
  let raw :=
    if adc_known raw igain ipix =? 0
    then
      let raw :=
        if rawsum_wanted
        then
          let sum := sum_samples (adc_sample raw igain ipix)
                       (Z.to_nat (num_samples raw)) 0 0 in
          set_sum raw igain ipix sum
        else set_sum raw igain ipix 0 in
      set_kn raw igain ipix 1
    else raw in
  ret (set_kn raw igain ipix (Z.lor (adc_known raw igain ipix) 2)).

(** Lines 4832-4834 and 4840-4841: the channels of a record with
    low-gain reduction. *)
Definition read_channel_red_hg (ipix : Z) (raw : AdcData) : get AdcData :=
  l <- get_vector_of_uint16_scount_differential (num_samples raw) ;;
  let raw := set_trace raw HI_GAIN ipix l in
  let raw := set_sig raw ipix (Z.lor (significant raw ipix) 0x20) in
  ret (set_kn raw HI_GAIN ipix (Z.lor (adc_known raw HI_GAIN ipix) 2)).

Definition read_channel_red_lg (ipix : Z) (raw : AdcData) : get AdcData :=
  l <- get_vector_of_uint16_scount_differential (num_samples raw) ;;
  let raw := set_trace raw LO_GAIN ipix l in
  ret (set_kn raw LO_GAIN ipix (Z.lor (adc_known raw LO_GAIN ipix) 2)).

(** [for ( ipix=first; ipix<=last; ipix++ ) (one channel)] *)
Fixpoint read_pixels (one : Z -> AdcData -> get AdcData) (n : nat) (ipix : Z)
    (raw : AdcData) : get AdcData :=
  match n with
  | O => ret raw
  | S n' => raw' <- one ipix raw ;; read_pixels one n' (ipix + 1) raw'
  end.

Fixpoint read_ranges (one : Z -> AdcData -> get AdcData) (l : list (Z * Z))
    (raw : AdcData) : get AdcData :=
  match l with
  | [] => ret raw
  | (a, b) :: l' =>
      raw' <- read_pixels one (Z.to_nat (b - a + 1)) a raw ;;
      read_ranges one l' raw'
  end.

(** [for (igain=...; igain<raw->num_gains; igain++) (one gain)] *)
Fixpoint read_gains (one : Z -> AdcData -> get AdcData) (n : nat) (igain : Z)
    (raw : AdcData) : get AdcData :=
  match n with
  | O => ret raw
  | S n' => raw' <- one igain raw ;; read_gains one n' (igain + 1) raw'
  end.

(** Lines 4765-4935: the data; [inl] is the way out at lines 4783-4788
    and 4809-4814, with the structure as it is then. *)
Definition read_samples_data (version zero_sup_mode' data_red_mode' : Z)
    (raw : AdcData) : get (AdcData + AdcData) :=
  if negb (zero_sup_mode' =? 0)
  then
    let raw := clear_sample_bits raw in
    list_size <- get_scount32 ;;
    if list_size >? H_MAX_PIX then ret (inl raw)
    else
      pixel_list <- get_ranges (Z.to_nat list_size) ;;
      if negb (data_red_mode' =? 0) && (num_gains raw >? 1)
      then
        list_size_lg <- get_scount32 ;;
        if list_size_lg >? H_MAX_PIX then ret (inl raw)
        else
          pixel_list_lg <- get_ranges (Z.to_nat list_size_lg) ;;
          raw <- read_ranges read_channel_red_hg pixel_list raw ;;
          raw <- read_ranges read_channel_red_lg pixel_list_lg raw ;;
          ret (inr raw)
      else
        raw <- read_gains
                 (fun igain => read_ranges (read_channel_zs igain) pixel_list)
                 (Z.to_nat (num_gains raw)) 0 raw ;;
        ret (inr raw)
  else
    raw <- read_gains
             (fun igain raw =>
                read_pixels (read_channel_plain version igain)
                  (Z.to_nat (num_pixels raw)) 0 raw)
             (Z.to_nat (num_gains raw)) 0 raw ;;
    ret (inr (set_significant raw (fill (significant raw) (num_pixels raw) 1))).

(** Lines 4732-4751. *)
Definition read_samples_header (version flags : Z) (raw : AdcData)
  : get AdcData :=
  raw <- (if version =? 0
          then
            let raw := set_tel_id raw (Z.land (Z.shiftr flags 25) 0x1f) in
            let raw := set_num_pixels raw (Z.land (Z.shiftr flags 12) 0x07ff) in
            ret (set_num_gains raw (Z.land (Z.shiftr flags 23) 0x03))
          else if version =? 1
          then
            let raw := set_tel_id raw (Z.land (Z.shiftr flags 25) 0x1f) in
            let raw := set_num_pixels raw (Z.land (Z.shiftr flags 12) 0x0fff) in
            ret (set_num_gains raw
                   (if negb (Z.land (Z.shiftr flags 24) 0x01 =? 0) then 2 else 1))
          else
            let raw := set_tel_id raw (Z.land (Z.shiftr flags 12) 0xffff) in
            np <- get_long ;;
            ng <- get_short ;;
            ret (set_num_gains (set_num_pixels raw np) ng)) ;;
  ns <- get_short ;;
  ret (set_num_samples raw ns).

(** [read_hess_teladc_samples]: the status, the structure and the buffer
    after the call.  The pointers are taken to be valid. *)
Definition read_hess_teladc_samples (iobuf : IO_BUFFER) (raw : AdcData)
  : option (Z * AdcData * IO_BUFFER) :=
  let raw := set_num_pixels raw 0 in
  match get_item_begin iobuf IO_TYPE_HESS_TELADCSAMP with
  | inl rc => Some (rc, raw, iobuf)
  | inr (it, rest) =>
      let version := it_version it in
      if version >? 3 then Some (-1, raw, rest)
      else
        let flags := uint32 (it_ident it) in
        let zero_sup_mode' := Z.land flags 0x1f in
        let data_red_mode' := Z.land (Z.shiftr flags 5) 0x1f in
        let list_known' := Z.land (Z.shiftr flags 10) 0x01 in
        if (negb (zero_sup_mode' =? 0) && (version <? 3))
           || negb (data_red_mode' =? 0)
           || negb (list_known' =? 0)
        then Some (-1, raw, rest)
        else
          let raw := set_zero_sup_mode raw
                       (Z.lor (zero_sup_mode raw) (Z.shiftl zero_sup_mode' 5)) in
          let raw := set_data_red_mode raw
                       (Z.lor (data_red_mode raw) (Z.shiftl data_red_mode' 5)) in
          let raw := set_list_known raw 0 in
          match read_samples_header version flags raw (it_body it) with
          | None => None
          | Some (raw, s) =>
              if (num_pixels raw >? H_MAX_PIX)
                 || (num_gains raw >? H_MAX_GAINS)
                 || (num_samples raw >? H_MAX_SLICES)
              then Some (-1, set_num_pixels raw 0, rest)
              else
                match read_samples_data version zero_sup_mode' data_red_mode'
                        raw s with
                | None => None
                | Some (inl raw, _) => Some (-1, raw, rest)
                | Some (inr raw, _) =>
                    Some (get_item_end, set_known raw (Z.lor (known raw) 2), rest)
                end
          end
  end.

End ReadSamples.

End Limits.

(* ===================================================================== *)
(** ** The telescope index lookup (io_hess.c, lines 118-213) *)
(* ===================================================================== *)

(** [g_tel_idx], [g_tel_idx_init] and [g_tel_idx_ref]: three lookup
    tables from the telescope ID to the index, the marks of the tables
    that have been set up, and the table in use. *)
Record TelIdx : Type := mkTelIdx {
  g_tel_idx : Z -> Z -> Z;
  g_tel_idx_init : Z -> Z;
  g_tel_idx_ref : Z
}.

(** Objects of static storage start as zero. *)
Definition tel_idx_start : TelIdx := mkTelIdx (fun _ _ => 0) (fun _ => 0) 0.

(** [set_tel_idx_ref]: the message of the other branch goes to stderr. *)
Definition set_tel_idx_ref (iref : Z) (st : TelIdx) : TelIdx :=
  if (iref >=? 0) && (iref <? 3)
  then mkTelIdx (g_tel_idx st) (g_tel_idx_init st) iref
  else st.

Section TelescopeIndex.

(** The compiled maximum of the number of telescopes (io_hess.h); a
    table has [H_MAX_TEL+1] entries. *)
Variable H_MAX_TEL : Z.

(** The second loop of [set_tel_idx] on the table in use; [None] is
    [exit(1)]. *)
Fixpoint set_tel_idx_loop (idx : Z -> Z) (n : nat) (i : Z) (row : Z -> Z)
  : option (Z -> Z) :=
  match n with
  | O => Some row
  | S n' =>
      if (idx i <? 0) || (idx i >=? H_MAX_TEL + 1) then None
      else if negb (row (idx i) =? -1) then None
      else set_tel_idx_loop idx n' (i + 1) (upd row (idx i) i)
  end.

(** [set_tel_idx]: [idx] is the array of the [ntel] telescope IDs. *)
Definition set_tel_idx (ntel : Z) (idx : Z -> Z) (st : TelIdx)
  : option TelIdx :=
  let ref := g_tel_idx_ref st in
  let row := fill (g_tel_idx st ref) (H_MAX_TEL + 1) (-1) in
  match set_tel_idx_loop idx (Z.to_nat ntel) 0 row with
  | None => None
  | Some row =>
      Some (mkTelIdx (upd (g_tel_idx st) ref row)
              (upd (g_tel_idx_init st) ref 1) ref)
  end.

(** [find_tel_idx] *)
Definition find_tel_idx (tel_id : Z) (st : TelIdx) : Z :=
  let ref := g_tel_idx_ref st in
  if g_tel_idx_init st ref =? 0 then -2
  else if (tel_id <? 0) || (tel_id >=? H_MAX_TEL + 1) then -1
  else g_tel_idx st ref tel_id.

End TelescopeIndex.

(* ===================================================================== *)
(** ** adc_reset (io_hess.c, lines 5097-5127) *)
(* ===================================================================== *)

(** The body of the inner loop: one pixel of one gain.  [memset] clears
    the [num_samples] samples of the trace ([num_samples] is taken not
    to be negative). *)
Definition adc_reset_pixel (igain ipix : Z) (raw : AdcData) : AdcData :=
  let raw := set_sig raw ipix 0 in
  let raw := set_kn raw igain ipix 0 in
  let raw := set_sum raw igain ipix 0 in
  set_adc_sample raw
    (upd2 (adc_sample raw) igain ipix
       (fill (adc_sample raw igain ipix) (num_samples raw) 0)).

Fixpoint adc_reset_pixels (igain : Z) (n : nat) (ipix : Z) (raw : AdcData)
  : AdcData :=
  match n with
  | O => raw
  | S n' => adc_reset_pixels igain n' (ipix + 1) (adc_reset_pixel igain ipix raw)
  end.

Fixpoint adc_reset_gains (n : nat) (igain : Z) (raw : AdcData) : AdcData :=
  match n with
  | O => raw
  | S n' =>
      adc_reset_gains n' (igain + 1)
        (adc_reset_pixels igain (Z.to_nat (num_pixels raw)) 0 raw)
  end.

(** [adc_reset]; the pointer is taken to be valid. *)
Definition adc_reset (raw : AdcData) : AdcData :=
  let raw := set_known raw 0 in
  let raw := set_list_known raw 0 in
  let raw := set_list_size raw 0 in
  adc_reset_gains (Z.to_nat (num_gains raw)) 0 raw.

(* ===================================================================== *)
(** ** Flat records of integers (io_hess.c) *)
(* ===================================================================== *)

(** Modelled from the spec: [put_int32] and [get_int32] are the fixed
    32-bit signed integer of section 6, [put_vector_of_int32] and
    [get_vector_of_int32] a sequence of them. *)
Definition put_int32 (v : Z) : list wire := [W32 (uint32 v)].
Definition get_int32 : get Z :=
  fun s => match s with W32 v :: s' => Some (int32 v, s') | _ => None end.
Definition put_vector_of_int32 (l : list Z) : list wire :=
  map (fun v => W32 (uint32 v)) l.
Definition get_vector_of_int32 (n : Z) : get (list Z) :=
  get_vector get_int32 (Z.to_nat n).

Definition IO_TYPE_HESS_PIXELDISABLE : Z := IO_TYPE_HESS_BASE + 5.
Definition IO_TYPE_HESS_CAMSOFTSET : Z := IO_TYPE_HESS_BASE + 6.
Definition IO_TYPE_HESS_RUNSTAT : Z := IO_TYPE_HESS_BASE + 24.
Definition IO_TYPE_HESS_MC_RUNSTAT : Z := IO_TYPE_HESS_BASE + 25.
Definition IO_TYPE_HESS_PIXELLIST : Z := IO_TYPE_HESS_BASE + 27.

(** [struct hess_pixel_list] *)
Module PixelList.
Record t : Type := mk {
  code : Z;
  pixels : Z;
  pixel_list : Z -> Z
}.
End PixelList.

(** [struct hess_pixel_disabled_struct] *)
Module PixelDisabled.
Record t : Type := mk {
  tel_id : Z;
  num_trig_disabled : Z;
  trigger_disabled : Z -> Z;
  num_HV_disabled : Z;
  HV_disabled : Z -> Z
}.
End PixelDisabled.

(** [struct hess_run_end_statistics_struct] *)
Module RunStat.
Record t : Type := mk {
  run_num : Z;
  num_tel : Z;
  tel_ids : Z -> Z;
  num_central_trig : Z;
  num_local_trig : Z -> Z;
  num_local_sys_trig : Z -> Z;
  num_events : Z -> Z
}.
End RunStat.

(** [struct hess_run_end_mc_statistics_struct] *)
Module MCRunStat.
Record t : Type := mk {
  run_num : Z;
  num_showers : Z;
  num_events : Z
}.
End MCRunStat.

(** [struct hess_time_struct] *)
Module HTime.
Record t : Type := mk {
  seconds : Z;
  nanoseconds : Z
}.
End HTime.

(** [put_time_blob], [get_time_blob], [reset_htime], [copy_htime]
    (lines 8750-8801). *)
Definition put_time_blob (t : HTime.t) : list wire :=
  put_long (HTime.seconds t) ++ put_long (HTime.nanoseconds t).

Definition get_time_blob : get HTime.t :=
  s <- get_long ;;
  ns <- get_long ;;
  ret (HTime.mk s ns).

Definition reset_htime (t : HTime.t) : HTime.t := HTime.mk 0 0.

Definition copy_htime (t2 t1 : HTime.t) : HTime.t :=
  HTime.mk (HTime.seconds t1) (HTime.nanoseconds t1).

(** [write_hess_run_stat] and [read_hess_run_stat] (lines 9525-9582);
    the pointers are taken to be valid. *)
Definition write_hess_run_stat (iobuf : IO_BUFFER) (rs : RunStat.t)
  : Z * IO_BUFFER :=
  let n := Z.to_nat (RunStat.num_tel rs) in
  put_item iobuf IO_TYPE_HESS_RUNSTAT 0 (RunStat.run_num rs)
    (put_int32 (RunStat.num_tel rs)
       ++ put_int32 (RunStat.num_central_trig rs)
       ++ put_vector_of_int32 (slice (RunStat.tel_ids rs) 0 n)
       ++ put_vector_of_int32 (slice (RunStat.num_local_trig rs) 0 n)
       ++ put_vector_of_int32 (slice (RunStat.num_local_sys_trig rs) 0 n)
       ++ put_vector_of_int32 (slice (RunStat.num_events rs) 0 n)).

Definition read_run_stat_body (ident : Z) (rs : RunStat.t) : get RunStat.t :=
  nt <- get_int32 ;;
  nc <- get_int32 ;;
  ids <- get_vector_of_int32 nt ;;
  lt <- get_vector_of_int32 nt ;;
  ls <- get_vector_of_int32 nt ;;
  ev <- get_vector_of_int32 nt ;;
  ret (RunStat.mk (int32 ident) nt (store (RunStat.tel_ids rs) 0 ids) nc
         (store (RunStat.num_local_trig rs) 0 lt)
         (store (RunStat.num_local_sys_trig rs) 0 ls)
         (store (RunStat.num_events rs) 0 ev)).

Definition read_hess_run_stat (iobuf : IO_BUFFER) (rs : RunStat.t)
  : option (Z * RunStat.t * IO_BUFFER) :=
  match get_item_begin iobuf IO_TYPE_HESS_RUNSTAT with
  | inl rc => Some (rc, rs, iobuf)
  | inr (it, rest) =>
      if negb (it_version it =? 0) then Some (-1, rs, rest)
      else
        match read_run_stat_body (it_ident it) rs (it_body it) with
        | None => None
        | Some (rs, _) => Some (get_item_end, rs, rest)
        end
  end.

(** [write_hess_mc_run_stat] and [read_hess_mc_run_stat]
    (lines 9634-9683). *)
Definition write_hess_mc_run_stat (iobuf : IO_BUFFER) (mcrs : MCRunStat.t)
  : Z * IO_BUFFER :=
  put_item iobuf IO_TYPE_HESS_MC_RUNSTAT 0 (MCRunStat.run_num mcrs)
    (put_int32 (MCRunStat.num_showers mcrs)
       ++ put_int32 (MCRunStat.num_events mcrs)).

Definition read_hess_mc_run_stat (iobuf : IO_BUFFER) (mcrs : MCRunStat.t)
  : option (Z * MCRunStat.t * IO_BUFFER) :=
  match get_item_begin iobuf IO_TYPE_HESS_MC_RUNSTAT with
  | inl rc => Some (rc, mcrs, iobuf)
  | inr (it, rest) =>
      if negb (it_version it =? 0) then Some (-1, mcrs, rest)
      else
        match (ns <- get_int32 ;; ne <- get_int32 ;;
               ret (MCRunStat.mk (int32 (it_ident it)) ns ne)) (it_body it) with
        | None => None
        | Some (mcrs, _) => Some (get_item_end, mcrs, rest)
        end
  end.

(** [struct hess_camera_software_setting_struct] *)
Module CameraSoftSet.
Record t : Type := mk {
  tel_id : Z;
  dyn_trig_mode : Z;
  dyn_trig_threshold : Z;
  dyn_HV_mode : Z;
  dyn_HV_threshold : Z;
  data_red_mode : Z;
  zero_sup_mode : Z;
  zero_sup_num_thr : Z;
  zero_sup_thresholds : Z -> Z;
  unbiased_scale : Z;
  dyn_ped_mode : Z;
  dyn_ped_events : Z;
  dyn_ped_period : Z;
  monitor_cur_period : Z;
  report_cur_period : Z;
  monitor_HV_period : Z;
  report_HV_period : Z
}.
End CameraSoftSet.

(** [write_hess_camsoftset] (lines 2025-2054). *)
Definition write_hess_camsoftset (iobuf : IO_BUFFER) (cs : CameraSoftSet.t)
  : Z * IO_BUFFER :=
  put_item iobuf IO_TYPE_HESS_CAMSOFTSET 0 (CameraSoftSet.tel_id cs)
    (put_int32 (CameraSoftSet.dyn_trig_mode cs)
       ++ put_int32 (CameraSoftSet.dyn_trig_threshold cs)
       ++ put_int32 (CameraSoftSet.dyn_HV_mode cs)
       ++ put_int32 (CameraSoftSet.dyn_HV_threshold cs)
       ++ put_int32 (CameraSoftSet.data_red_mode cs)
       ++ put_int32 (CameraSoftSet.zero_sup_mode cs)
       ++ put_int32 (CameraSoftSet.zero_sup_num_thr cs)
       ++ put_vector_of_int32
            (slice (CameraSoftSet.zero_sup_thresholds cs) 0
               (Z.to_nat (CameraSoftSet.zero_sup_num_thr cs)))
       ++ put_int32 (CameraSoftSet.unbiased_scale cs)
       ++ put_int32 (CameraSoftSet.dyn_ped_mode cs)
       ++ put_int32 (CameraSoftSet.dyn_ped_events cs)
       ++ put_int32 (CameraSoftSet.dyn_ped_period cs)
       ++ put_int32 (CameraSoftSet.monitor_cur_period cs)
       ++ put_int32 (CameraSoftSet.report_cur_period cs)
       ++ put_int32 (CameraSoftSet.monitor_HV_period cs)
       ++ put_int32 (CameraSoftSet.report_HV_period cs)).

(** [read_hess_camsoftset] (lines 2062-2112): the fields of the body;
    [inl] is the way out at lines 2091-2097, with the structure as it is
    then. *)
Definition read_camsoftset_body (cs : CameraSoftSet.t)
  : get (CameraSoftSet.t + CameraSoftSet.t) :=
  a1 <- get_int32 ;;
  a2 <- get_int32 ;;
  a3 <- get_int32 ;;
  a4 <- get_int32 ;;
  a5 <- get_int32 ;;
  a6 <- get_int32 ;;
  n <- get_int32 ;;
  let thr := CameraSoftSet.zero_sup_thresholds cs in
  if (n <? 0) || (n >? 10)
  then
    ret (inl (CameraSoftSet.mk (CameraSoftSet.tel_id cs) a1 a2 a3 a4 a5 a6 0
                thr (CameraSoftSet.unbiased_scale cs)
                (CameraSoftSet.dyn_ped_mode cs)
                (CameraSoftSet.dyn_ped_events cs)
                (CameraSoftSet.dyn_ped_period cs)
                (CameraSoftSet.monitor_cur_period cs)
                (CameraSoftSet.report_cur_period cs)
                (CameraSoftSet.monitor_HV_period cs)
                (CameraSoftSet.report_HV_period cs)))
  else
    l <- get_vector_of_int32 n ;;
    b1 <- get_int32 ;;
    b2 <- get_int32 ;;
    b3 <- get_int32 ;;
    b4 <- get_int32 ;;
    b5 <- get_int32 ;;
    b6 <- get_int32 ;;
    b7 <- get_int32 ;;
    b8 <- get_int32 ;;
    ret (inr (CameraSoftSet.mk (CameraSoftSet.tel_id cs) a1 a2 a3 a4 a5 a6 n
                (store thr 0 l) b1 b2 b3 b4 b5 b6 b7 b8)).

Definition read_hess_camsoftset (iobuf : IO_BUFFER) (cs : CameraSoftSet.t)
  : option (Z * CameraSoftSet.t * IO_BUFFER) :=
  match get_item_begin iobuf IO_TYPE_HESS_CAMSOFTSET with
  | inl rc => Some (rc, cs, iobuf)
  | inr (it, rest) =>
      if negb (it_version it =? 0) then Some (-1, cs, rest)
      else if (CameraSoftSet.tel_id cs >=? 0)
              && negb (it_ident it =? CameraSoftSet.tel_id cs)
      then Some (-1, cs, rest)
      else
        match read_camsoftset_body cs (it_body it) with
        | None => None
        | Some (inl cs, _) => Some (-1, cs, rest)
        | Some (inr cs, _) => Some (get_item_end, cs, rest)
        end
  end.

Section FlatRecords.

(** The compiled maximum of the number of pixels (io_hess.h). *)
Variable H_MAX_PIX : Z.

(** [write_hess_pixeldis] (lines 1899-1916). *)
Definition write_hess_pixeldis (iobuf : IO_BUFFER) (pd : PixelDisabled.t)
  : Z * IO_BUFFER :=
  put_item iobuf IO_TYPE_HESS_PIXELDISABLE 0 (PixelDisabled.tel_id pd)
    (put_int32 (PixelDisabled.num_trig_disabled pd)
       ++ put_vector_of_int32
            (slice (PixelDisabled.trigger_disabled pd) 0
               (Z.to_nat (PixelDisabled.num_trig_disabled pd)))
       ++ put_int32 (PixelDisabled.num_HV_disabled pd)
       ++ put_vector_of_int32
            (slice (PixelDisabled.HV_disabled pd) 0
               (Z.to_nat (PixelDisabled.num_HV_disabled pd)))).

(** [read_hess_pixeldis] (lines 1924-1968): the fields of the body;
    [inl] is the way out at lines 1948-1954 and 1957-1963. *)
Definition read_pixeldis_body (pd : PixelDisabled.t)
  : get (PixelDisabled.t + PixelDisabled.t) :=
  nt <- get_int32 ;;
  if (nt <? 0) || (nt >? H_MAX_PIX)
  then
    ret (inl (PixelDisabled.mk (PixelDisabled.tel_id pd) 0
                (PixelDisabled.trigger_disabled pd)
                (PixelDisabled.num_HV_disabled pd)
                (PixelDisabled.HV_disabled pd)))
  else
    lt <- get_vector_of_int32 nt ;;
    let trg := store (PixelDisabled.trigger_disabled pd) 0 lt in
    nh <- get_int32 ;;
    if (nh <? 0) || (nh >? H_MAX_PIX)
    then
      ret (inl (PixelDisabled.mk (PixelDisabled.tel_id pd) nt trg 0
                  (PixelDisabled.HV_disabled pd)))
    else
      lh <- get_vector_of_int32 nh ;;
      ret (inr (PixelDisabled.mk (PixelDisabled.tel_id pd) nt trg nh
                  (store (PixelDisabled.HV_disabled pd) 0 lh))).

Definition read_hess_pixeldis (iobuf : IO_BUFFER) (pd : PixelDisabled.t)
  : option (Z * PixelDisabled.t * IO_BUFFER) :=
  match get_item_begin iobuf IO_TYPE_HESS_PIXELDISABLE with
  | inl rc => Some (rc, pd, iobuf)
  | inr (it, rest) =>
      if negb (it_version it =? 0) then Some (-1, pd, rest)
      else if (PixelDisabled.tel_id pd >=? 0)
              && negb (it_ident it =? PixelDisabled.tel_id pd)
      then Some (-1, pd, rest)
      else
        match read_pixeldis_body pd (it_body it) with
        | None => None
        | Some (inl pd, _) => Some (-1, pd, rest)
        | Some (inr pd, _) => Some (get_item_end, pd, rest)
        end
  end.

(** [write_hess_pixel_list] (lines 9949-9976): the version is chosen
    when the library is compiled; the identifier is computed in [int]. *)
Definition pixel_list_version : Z := if H_MAX_PIX >=? 32768 then 1 else 0.

Definition write_hess_pixel_list (iobuf : IO_BUFFER) (pl : PixelList.t)
    (telescope : Z) : Z * IO_BUFFER :=
  let version := pixel_list_version in
  let l := slice (PixelList.pixel_list pl) 0 (Z.to_nat (PixelList.pixels pl)) in
  put_item iobuf IO_TYPE_HESS_PIXELLIST version
    (int32 (telescope + int32 (1000000 * PixelList.code pl)))
    (if version <? 1
     then put_short (PixelList.pixels pl) ++ put_vector_of_int l
     else put_scount (PixelList.pixels pl) ++ put_vector_of_int_scount l).

(** [read_hess_pixel_list] (lines 9984-10025): the status, the list, the
    telescope ([*telescope], the pointer taken to be valid) and the
    buffer after the call. *)
Definition read_hess_pixel_list (iobuf : IO_BUFFER) (pl : PixelList.t)
    (telescope : Z) : option (Z * PixelList.t * Z * IO_BUFFER) :=
  match get_item_begin iobuf IO_TYPE_HESS_PIXELLIST with
  | inl rc => Some (rc, pl, telescope, iobuf)
  | inr (it, rest) =>
      let version := it_version it in
      if version >? 1 then Some (-1, pl, telescope, rest)
      else
        let code := int32 (Z.quot (it_ident it) 1000000) in
        let telescope := int32 (Z.rem (it_ident it) 1000000) in
        match (if version <? 1 then get_short else get_scount32) (it_body it) with
        | None => None
        | Some (n, s) =>
            if n >? H_MAX_PIX
            then Some (-1, PixelList.mk code 0 (PixelList.pixel_list pl),
                       telescope, rest)
            else
              match (if version <? 1 then get_vector_of_int n
                     else get_vector_of_int_scount n) s with
              | None => None
              | Some (l, _) =>
                  Some (get_item_end,
                        PixelList.mk code n
                          (store (PixelList.pixel_list pl) 0 l),
                        telescope, rest)
              end
        end
  end.

End FlatRecords.

(* ===================================================================== *)
(** ** Notions used to state the properties *)
(* ===================================================================== *)

(** A structure with nothing in it. *)
Definition blank : AdcData :=
  mkAdcData 0 0 0 0 0 0 0 0 0 0 0 0
    (fun _ => 0) (fun _ => 0) (fun _ _ => 0) (fun _ _ => 0) (fun _ _ _ => 0).

(** What a 16-bit field keeps of an amplitude. *)
Definition saturate16 (a : Z) : Z := if a <=? 65535 then a else 65535.

(** Amplitudes around the 16-bit limit. *)
Definition amplitudes_around_limit : list Z :=
  [0; 4000; 65535; 65536; 70000; 4294967295].

(** The header of a sum-mode record as [read_hess_teladc_sums] decodes
    it (lines 3840-3885): the modes from the identifier, the counts from
    the identifier or from the body, depending on the version. *)
Definition sums_declared (it : item) (raw : AdcData)
  : option (AdcData * list wire) :=
  let raw := set_num_pixels (set_known raw 0) 0 in
  let flags := uint32 (it_ident it) in
  let raw := set_zero_sup_mode raw (Z.land flags 0x1f) in
  let raw := set_data_red_mode raw (Z.land (Z.shiftr flags 5) 0x1f) in
  read_sums_header (it_version it) flags raw (it_body it).

(** A record that [read_hess_teladc_sums] has to refuse. *)
Definition sums_out_of_limits (H_MAX_PIX : Z) (it : item) (raw : AdcData)
  : Prop :=
  it_version it > 4
  \/ exists h s,
       sums_declared it raw = Some (h, s)
       /\ (num_pixels h > H_MAX_PIX
           \/ num_gains h > H_MAX_GAINS
           \/ zero_sup_mode h > 2
           \/ data_red_mode h > 2
           \/ (num_pixels h >= 32768 /\ zero_sup_mode h > 1)).

(** A version-3 record that declares 50000 pixels in list mode. *)
Definition oversized_record : item :=
  Item IO_TYPE_HESS_TELADCSUM 3 2 [W32 50000; W16 2; W16 0].

(** The number of pixels with any significance bit, among the [n] pixels
    from [i] on. *)
Fixpoint count_significant (sig : Z -> Z) (n : nat) (i : Z) : Z :=
  match n with
  | O => 0
  | S n' => (if sig i =? 0 then 0 else 1) + count_significant sig n' (i + 1)
  end.

(** The scheme the density of the list asks for: plain (0) when
    [17*n/16 > pixel_count], else bitmap (1) when [15*n > pixel_count],
    else list (2). *)
Definition density_mode (n np : Z) : Z :=
  if Z.quot (17 * n) 16 >? np then 0
  else if 15 * n >? np then 1
  else 2.

(** The zero-suppression mode in the header of a record. *)
Definition header_zero_sup_mode (it : item) : Z := Z.land (it_ident it) 0x1f.

(** A camera of 16 pixels, all of them significant, with one gain, for
    which list mode is asked and no list is there yet. *)
Definition dense_camera : AdcData :=
  mkAdcData 1 1 16 1 0 2 0 0 0 0 0 0
    (fun _ => 0) (fun _ => 1) (fun _ _ => 1) (fun _ p => 100 + p)
    (fun _ _ _ => 0).

(** The same camera when the writer is left to choose (mode 3). *)
Definition dense_camera_auto : AdcData := set_zero_sup_mode dense_camera 3.




(** The part of the structure that the amplitude loops leave alone. *)
Definition same_header (a b : AdcData) : Prop :=
  num_pixels a = num_pixels b /\ num_gains a = num_gains b
  /\ zero_sup_mode a = zero_sup_mode b /\ data_red_mode a = data_red_mode b.

(** A pixel that is significant and whose high gain is known. *)
Definition marked (raw : AdcData) (p : Z) : Prop :=
  significant raw p = 1 /\ adc_known raw HI_GAIN p = 1.

(** [raw'] is [raw] with the pixels from [a] up to [b] (excluded) marked
    and the marks of the other pixels as they were. *)
Definition marks (raw raw' : AdcData) (a b : Z) : Prop :=
  same_header raw' raw
  /\ (forall p, a <= p < b -> marked raw' p)
  /\ (forall p, ~ (a <= p < b) ->
        significant raw' p = significant raw p
        /\ adc_known raw' HI_GAIN p = adc_known raw HI_GAIN p).


(** A camera of 8 pixels with two gains, written in list mode with
    data-reduction mode 1.  The list holds the pixels 5 and 7; the low
    gain is known for pixel 7 and not for pixel 5, which comes first. *)
Definition gap_camera : AdcData :=
  mkAdcData 1 1 8 2 0 2 1 0 0 1 1 2
    (fun j => if j =? 0 then 5 else if j =? 1 then 7 else 0)
    (fun p => if (p =? 5) || (p =? 7) then 1 else 0)
    (fun g p => if g =? 0 then 1 else if p =? 7 then 1 else 0)
    (fun g p => if g =? 0 then 10 * p else if p =? 7 then 700 else 0)
    (fun _ _ _ => 0).

(** The record written for it; [w] is the second entry of the pixel list
    as it goes to the stream. *)
Definition gap_record (w : Z) : item :=
  Item IO_TYPE_HESS_TELADCSUM 3 5154
    [W32 8; W16 2; W16 2; W16 7; W16 w; WSCount 700; WSCount 50; WSCount 20].

(** The structure when the reader comes to the data of [gap_record]. *)
Definition gap_reader_state : AdcData :=
  init_sums
    (set_num_samples
       (set_num_gains
          (set_num_pixels
             (set_tel_id
                (set_list_known
                   (set_data_red_mode (set_zero_sup_mode blank 2) 1) 1) 1) 8) 2) 0).

(** The sum of a pixel and gain is known. *)
Definition sum_known (raw : AdcData) (g p : Z) : Prop :=
  Z.land (adc_known raw g p) 1 = 1.


(** The sum of the trace of a pixel and gain. *)
Definition trace_sum (raw : AdcData) (g p : Z) : Z :=
  sum_samples (adc_sample raw g p) (Z.to_nat (num_samples raw)) 0 0.

(** The sum of a pixel and gain is the sum of its trace, and known. *)
Definition sum_derived (raw : AdcData) (g p : Z) : Prop :=
  adc_sum raw g p = trace_sum raw g p /\ sum_known raw g p.

(** The counts of a sample-mode record, and everything that belongs to
    another pixel and gain than those listed by [touched]. *)
Definition same_but (touched : Z -> Z -> Prop) (raw raw' : AdcData) : Prop :=
  num_pixels raw' = num_pixels raw
  /\ num_gains raw' = num_gains raw
  /\ num_samples raw' = num_samples raw
  /\ forall g p, ~ touched g p ->
       adc_known raw' g p = adc_known raw g p
       /\ adc_sum raw' g p = adc_sum raw g p
       /\ adc_sample raw' g p = adc_sample raw g p.

(** What decoding the trace of one pixel and gain does: nothing to the
    other pixels and gains; a sum that anything was known of stays, with
    the samples bit added; where nothing was known and sums are asked
    for, the sum is derived from the trace. *)
Definition channel_decoded (what : Z) (raw raw1 : AdcData) (g p : Z) : Prop :=
  same_but (fun g' p' => g' = g /\ p' = p) raw raw1
  /\ (adc_known raw g p <> 0 ->
      adc_sum raw1 g p = adc_sum raw g p
      /\ adc_known raw1 g p = Z.lor (adc_known raw g p) 2)
  /\ (adc_known raw g p = 0 -> rawsum_wanted what = true ->
      sum_derived raw1 g p).

(** The same for a set of pixels and gains, each decoded once. *)
Definition region_decoded (what : Z) (touched : Z -> Z -> Prop)
    (raw raw' : AdcData) : Prop :=
  same_but touched raw raw'
  /\ (forall g p, touched g p -> adc_known raw g p = 0 ->
                  rawsum_wanted what = true -> sum_derived raw' g p).

(** A version-3 sample-mode record without zero suppression: one pixel,
    one gain, the trace 1, 2, 3. *)
Definition short_trace_record : item :=
  Item IO_TYPE_HESS_TELADCSAMP 3 0
    [W32 1; W16 1; W16 3; WSCount 1; WSCount 1; WSCount 1].


(** A structure in which the sum of pixel 0, 77, is known. *)
Definition sum_present : AdcData :=
  set_adc_sum (set_adc_known blank (fun _ _ => 1)) (fun _ _ => 77).

(** The values collected by the writer's loop over [m] pixels of one
    group, from bit [j] and pixel [k] on. *)
Fixpoint group_accum (step : group -> Z -> Z -> group) (m : nat) (j k : Z)
    (g : group) : group :=
  match m with
  | O => g
  | S m' => group_accum step m' (j + 1) (k + 1) (step g j k)
  end.






(** The data of a record in plain or bitmap mode without data reduction. *)
Definition low_mode_data (raw : AdcData) (version z : Z) : list wire :=
  if z =? 0
  then write_plain_gains raw version (Z.to_nat (num_gains raw)) 0
  else group_loop (step_z1_r0 raw) (flush_z1_r0 raw version)
         (Z.to_nat (num_pixels raw)) 0 0 group0.













(** A setup of the lookup table with the telescopes 3, 7 and 5. *)
Definition three_telescopes (i : Z) : Z :=
  if i =? 0 then 3 else if i =? 1 then 7 else 5.

(** Nothing is known of the pixel and gain: no sum, no samples. *)
Definition channel_clear (r : AdcData) (g p : Z) : Prop :=
  adc_known r g p = 0 /\ adc_sum r g p = 0
  /\ forall i, 0 <= i < num_samples r -> adc_sample r g p i = 0.

(** [r] is [raw] with the pixels and gains in [R] cleared: the scalar
    fields and the pixel list are the same; what is in [R] is clear and
    not significant; what was clear or not significant stays so; what
    is not in [R] is as it was. *)
Definition reset_on (R : Z -> Z -> Prop) (raw r : AdcData) : Prop :=
  (known r = known raw /\ tel_id r = tel_id raw
   /\ num_pixels r = num_pixels raw /\ num_gains r = num_gains raw
   /\ num_samples r = num_samples raw
   /\ zero_sup_mode r = zero_sup_mode raw
   /\ data_red_mode r = data_red_mode raw
   /\ list_known r = list_known raw /\ list_size r = list_size raw)
  /\ (forall g p, R g p -> channel_clear r g p /\ significant r p = 0)
  /\ (forall g p, channel_clear raw g p -> channel_clear r g p)
  /\ (forall p, significant raw p = 0 -> significant r p = 0)
  /\ (forall g p, ~ R g p ->
        adc_known r g p = adc_known raw g p
        /\ adc_sum r g p = adc_sum raw g p
        /\ adc_sample r g p = adc_sample raw g p)
  /\ (forall p, (forall g, ~ R g p) -> significant r p = significant raw p).

(** A structure of one pixel and one gain that holds the sum 77 of an
    earlier event. *)
Definition stale_pixel : AdcData :=
  set_num_gains (set_num_pixels sum_present 1) 1.

(** The value is a C [int] (32 bits). *)
Definition is_int (v : Z) : Prop := - 2 ^ 31 <= v < 2 ^ 31.

(** A list of two pixels, for telescope 12. *)
Definition two_pixels : PixelList.t :=
  PixelList.mk 1 2 (fun i => if i =? 0 then 17 else 230).

(** Two pixels without trigger and one without high voltage. *)
Definition some_disabled : PixelDisabled.t :=
  PixelDisabled.mk 4 2 (fun i => if i =? 0 then 5 else 9) 1 (fun _ => 100).

(** Settings with two thresholds for the zero suppression. *)
Definition some_settings : CameraSoftSet.t :=
  CameraSoftSet.mk 4 1 20 0 0 2 1 2 (fun i => if i =? 0 then 30 else -5)
    1 0 100 60 500 1000 500 1000.

(** The statistics of a run with two telescopes. *)
Definition two_tel_stat : RunStat.t :=
  RunStat.mk 1234 2 (fun i => i + 1) 50 (fun _ => 70) (fun _ => 60)
    (fun _ => 40).

(** The fields that [write_hess_camsoftset] writes are C [int]s, and
    the thresholds in use fit the array of 10. *)
Definition camsoftset_valid (cs : CameraSoftSet.t) : Prop :=
  is_int (CameraSoftSet.dyn_trig_mode cs)
  /\ is_int (CameraSoftSet.dyn_trig_threshold cs)
  /\ is_int (CameraSoftSet.dyn_HV_mode cs)
  /\ is_int (CameraSoftSet.dyn_HV_threshold cs)
  /\ is_int (CameraSoftSet.data_red_mode cs)
  /\ is_int (CameraSoftSet.zero_sup_mode cs)
  /\ 0 <= CameraSoftSet.zero_sup_num_thr cs <= 10
  /\ (forall i, 0 <= i < CameraSoftSet.zero_sup_num_thr cs ->
                is_int (CameraSoftSet.zero_sup_thresholds cs i))
  /\ is_int (CameraSoftSet.unbiased_scale cs)
  /\ is_int (CameraSoftSet.dyn_ped_mode cs)
  /\ is_int (CameraSoftSet.dyn_ped_events cs)
  /\ is_int (CameraSoftSet.dyn_ped_period cs)
  /\ is_int (CameraSoftSet.monitor_cur_period cs)
  /\ is_int (CameraSoftSet.report_cur_period cs)
  /\ is_int (CameraSoftSet.monitor_HV_period cs)
  /\ is_int (CameraSoftSet.report_HV_period cs).

(** The scalar settings of two structures are the same. *)
Definition same_settings (a b : CameraSoftSet.t) : Prop :=
  CameraSoftSet.dyn_trig_mode a = CameraSoftSet.dyn_trig_mode b
  /\ CameraSoftSet.dyn_trig_threshold a = CameraSoftSet.dyn_trig_threshold b
  /\ CameraSoftSet.dyn_HV_mode a = CameraSoftSet.dyn_HV_mode b
  /\ CameraSoftSet.dyn_HV_threshold a = CameraSoftSet.dyn_HV_threshold b
  /\ CameraSoftSet.data_red_mode a = CameraSoftSet.data_red_mode b
  /\ CameraSoftSet.zero_sup_mode a = CameraSoftSet.zero_sup_mode b
  /\ CameraSoftSet.zero_sup_num_thr a = CameraSoftSet.zero_sup_num_thr b
  /\ CameraSoftSet.unbiased_scale a = CameraSoftSet.unbiased_scale b
  /\ CameraSoftSet.dyn_ped_mode a = CameraSoftSet.dyn_ped_mode b
  /\ CameraSoftSet.dyn_ped_events a = CameraSoftSet.dyn_ped_events b
  /\ CameraSoftSet.dyn_ped_period a = CameraSoftSet.dyn_ped_period b
  /\ CameraSoftSet.monitor_cur_period a = CameraSoftSet.monitor_cur_period b
  /\ CameraSoftSet.report_cur_period a = CameraSoftSet.report_cur_period b
  /\ CameraSoftSet.monitor_HV_period a = CameraSoftSet.monitor_HV_period b
  /\ CameraSoftSet.report_HV_period a = CameraSoftSet.report_HV_period b.

(** A structure of settings with nothing in it, for any telescope. *)
Definition no_settings : CameraSoftSet.t :=
  CameraSoftSet.mk (-1) 0 0 0 0 0 0 0 (fun _ => 0) 0 0 0 0 0 0 0 0.

(** A camera of 3 pixels with two gains and amplitudes up to the 32-bit
    limit, written without zero suppression and data reduction. *)
Definition plain_camera : AdcData :=
  mkAdcData 1 70000 3 2 0 0 0 0 0 0 0 0
    (fun _ => 0) (fun _ => 0) (fun _ _ => 1)
    (fun g p => if p =? 1 then 4294967295 else if g =? 0 then 5 else 7)
    (fun _ _ _ => 0).

(** A pixel as [read_hess_teladc_sums] has it from a bitmap-mode record
    of [x] without data reduction in which it is significant. *)
Definition pixel_restored (x r : AdcData) (p : Z) : Prop :=
  significant r p = 1
  /\ adc_known r HI_GAIN p = 1 /\ adc_known r LO_GAIN p = 1
  /\ adc_sum r HI_GAIN p = adc_sum x HI_GAIN p
  /\ (2 <= num_gains x -> adc_sum r LO_GAIN p = adc_sum x LO_GAIN p).

(** The significance and the sums of the pixel are the same in both. *)
Definition pixel_same (a b : AdcData) (p : Z) : Prop :=
  significant b p = significant a p
  /\ forall g, adc_known b g p = adc_known a g p
               /\ adc_sum b g p = adc_sum a g p.

(** [r] is [raw] with the significant pixels of [x] from [a] up to [b]
    (excluded) restored. *)
Definition bitmap_decoded (x : AdcData) (a b : Z) (raw r : AdcData) : Prop :=
  same_header r raw /\ tel_id r = tel_id raw
  /\ forall p,
       (a <= p < b -> significant x p <> 0 -> pixel_restored x r p)
       /\ (~ (a <= p < b /\ significant x p <> 0) -> pixel_same raw r p).

(** What the writer has collected of the pixels [k0 .. k0+j-1] of [x]
    in bitmap mode without data reduction: a flag for each significant
    pixel and, in the order of the pixels, their sums. *)
Definition group_holds (x : AdcData) (k0 : Z) (g : group) (j : Z) : Prop :=
  0 <= zbits g < 2 ^ j
  /\ zlength (hgval g) = count_flags (zbits g) (Z.to_nat j) 0
  /\ zlength (lgval g) = zlength (hgval g)
  /\ forall j', 0 <= j' < j ->
       bit (zbits g) j' = negb (significant x (k0 + j') =? 0)
       /\ (bit (zbits g) j' = true ->
           znth (hgval g) (count_flags (zbits g) (Z.to_nat j') 0)
           = adc_sum x HI_GAIN (k0 + j')
           /\ znth (lgval g) (count_flags (zbits g) (Z.to_nat j') 0)
              = adc_sum x LO_GAIN (k0 + j')).

(** A camera of 20 pixels with two gains of which the pixels 3 and 17
    are significant, written in bitmap mode. *)
Definition bitmap_camera : AdcData :=
  mkAdcData 1 9 20 2 0 1 0 0 0 0 0 0
    (fun _ => 0) (fun p => if (p =? 3) || (p =? 17) then 1 else 0)
    (fun _ _ => 1)
    (fun g p => if g =? 0 then 1000 else 50)
    (fun _ _ _ => 0).

(** The first [nlst] entries of [lst] are, in ascending order, the
    pixels from [i0] up to [i] (excluded) that have a significance bit. *)
Definition lists_significant (sig : Z -> Z) (i0 i : Z) (lst : Z -> Z)
    (nlst : Z) : Prop :=
  0 <= nlst <= i - i0
  /\ (forall a, 0 <= a < nlst -> i0 <= lst a < i /\ sig (lst a) <> 0)
  /\ (forall a b, 0 <= a < b -> b < nlst -> lst a < lst b)
  /\ (forall p, i0 <= p < i -> sig p <> 0 ->
        exists a, 0 <= a < nlst /\ lst a = p).

(** A camera of six pixels of which the pixels 1 and 4 are significant,
    with an outdated pixel list and the choice of the mode left to the
    writer. *)
Definition unlisted_camera : AdcData :=
  mkAdcData 1 1 6 2 0 3 0 0 0 0 0 5
    (fun _ => 9) (fun p => if (p =? 1) || (p =? 4) then 1 else 0)
    (fun _ _ => 1) (fun _ _ => 10) (fun _ _ _ => 0).

(* ===================================================================== *)
(** * Properties *)
(* ===================================================================== *)

Unset Implicit Arguments.

(** ** Machine integers *)

Lemma uint16_small (x : Z) : 0 <= x < 65536 -> uint16 x = x.
Proof. intros H. unfold uint16, to_uint. apply Z.mod_small. lia. Qed.


Lemma uint32_small (x : Z) : 0 <= x < 2 ^ 32 -> uint32 x = x.
Proof. intros H. unfold uint32, to_uint. apply Z.mod_small. lia. Qed.

Lemma int32_small (x : Z) : - 2 ^ 31 <= x < 2 ^ 31 -> int32 x = x.
Proof.
  intros H. unfold int32, to_int. change (2 ^ (32 - 1)) with (2 ^ 31).
  rewrite Z.mod_small; lia.
Qed.

Lemma int16_small (x : Z) : - 2 ^ 15 <= x < 2 ^ 15 -> int16 x = x.
Proof.
  intros H. unfold int16, to_int. change (2 ^ (16 - 1)) with (2 ^ 15).
  rewrite Z.mod_small; lia.
Qed.

Lemma int16_uint16 (x : Z) : - 2 ^ 15 <= x < 2 ^ 15 -> int16 (uint16 x) = x.
Proof.
  intros H. unfold int16, uint16, to_int, to_uint.
  change (2 ^ (16 - 1)) with (2 ^ 15).
  rewrite Zplus_mod_idemp_l. rewrite Z.mod_small; lia.
Qed.

Lemma int32_uint32 (x : Z) : - 2 ^ 31 <= x < 2 ^ 31 -> int32 (uint32 x) = x.
Proof.
  intros H. unfold int32, uint32, to_int, to_uint.
  change (2 ^ (32 - 1)) with (2 ^ 31).
  rewrite Zplus_mod_idemp_l. rewrite Z.mod_small; lia.
Qed.

Lemma int32_range (x : Z) : - 2 ^ 31 <= int32 x < 2 ^ 31.
Proof.
  unfold int32, to_int. change (2 ^ (32 - 1)) with (2 ^ 31).
  pose proof (Z.mod_pos_bound (x + 2 ^ 31) (2 ^ 32)). lia.
Qed.

Lemma uint32_range (x : Z) : 0 <= uint32 x < 2 ^ 32.
Proof. unfold uint32, to_uint. apply Z.mod_pos_bound. lia. Qed.

Lemma uint16_range (x : Z) : 0 <= uint16 x < 65536.
Proof. unfold uint16, to_uint. apply Z.mod_pos_bound. lia. Qed.

(** ** Arrays *)

Lemma upd_same {A : Type} (a : Z -> A) (i : Z) (v : A) : upd a i v i = v.
Proof. unfold upd. now rewrite Z.eqb_refl. Qed.

Lemma upd_other {A : Type} (a : Z -> A) (i j : Z) (v : A) :
  j <> i -> upd a i v j = a j.
Proof. intros H. unfold upd. apply Z.eqb_neq in H. now rewrite H. Qed.

Lemma store_below {A : Type} (l : list A) (a : Z -> A) (k j : Z) :
  j < k -> store a k l j = a j.
Proof.
  revert a k. induction l as [|v l IH]; intros a k H; simpl; [reflexivity|].
  rewrite IH by lia. apply upd_other. lia.
Qed.

Lemma store_above {A : Type} (l : list A) (a : Z -> A) (k j : Z) :
  k + zlength l <= j -> store a k l j = a j.
Proof.
  revert a k. unfold zlength.
  induction l as [|v l IH]; intros a k H; simpl in *; [reflexivity|].
  rewrite IH by lia. apply upd_other. lia.
Qed.

Lemma store_slice {A : Type} (n : nat) (a b : Z -> A) (k j : Z) :
  k <= j < k + Z.of_nat n -> store a k (slice b k n) j = b j.
Proof.
  revert a k. induction n as [|n IH]; intros a k H; [lia|].
  cbn [slice store].
  destruct (Z.eq_dec j k) as [->|Hne].
  - rewrite store_below by lia. apply upd_same.
  - apply IH. lia.
Qed.

Lemma length_slice {A : Type} (n : nat) (a : Z -> A) (k : Z) :
  length (slice a k n) = n.
Proof. revert k. induction n; intros k; simpl; congruence. Qed.

(** ** The primitive codec *)

Lemma bind_app {A B : Type} (m : get A) (k : A -> get B) (s : list wire) :
  (x <- m ;; k x) s = match m s with Some (a, s') => k a s' | None => None end.
Proof. reflexivity. Qed.

Lemma get_vector_of_uint16_put (l : list Z) (rest : list wire) :
  get_vector get_uint16 (length l) (put_vector_of_uint16 l ++ rest)
  = Some (map uint16 l, rest).
Proof.
  induction l as [|v l IH]; [reflexivity|].
  cbn [length get_vector put_vector_of_uint16 map app].
  unfold bind at 1. cbn [get_uint16].
  unfold bind at 1. unfold put_vector_of_uint16 in IH. rewrite IH.
  reflexivity.
Qed.

Lemma get_vector_of_uint8_put (l : list Z) (rest : list wire) :
  get_vector get_uint8 (length l) (put_vector_of_uint8 l ++ rest)
  = Some (map uint8 l, rest).
Proof.
  induction l as [|v l IH]; [reflexivity|].
  cbn [length get_vector put_vector_of_uint8 map app].
  unfold bind at 1. cbn [get_uint8].
  unfold bind at 1. unfold put_vector_of_uint8 in IH. rewrite IH.
  reflexivity.
Qed.

(** ** The legacy 16-bit amplitude coder *)

Lemma saturate16_fits (a : Z) :
  0 <= a -> uint16 (if a <? 65535 then uint16 a else 65535) = saturate16 a.
Proof.
  intros H. unfold saturate16.
  destruct (a <? 65535) eqn:E1, (a <=? 65535) eqn:E2;
    try apply Z.ltb_lt in E1; try apply Z.ltb_ge in E1;
    try apply Z.leb_le in E2; try apply Z.leb_gt in E2; try lia.
  - rewrite !(uint16_small a); lia.
  - assert (a = 65535) by lia. subst. reflexivity.
  - reflexivity.
Qed.

Lemma adcsum_as_uint16_roundtrip (l : list Z) (rest : list wire) :
  Forall (fun a => 0 <= a) l ->
  get_adcsum_as_uint16 (zlength l) (put_adcsum_as_uint16 l ++ rest)
  = Some (map saturate16 l, rest).
Proof.
  intros H. unfold get_adcsum_as_uint16, put_adcsum_as_uint16,
    get_vector_of_uint16, zlength.
  rewrite Nat2Z.id. unfold bind.
  rewrite <- (length_map (fun a => if a <? 65535 then uint16 a else 65535) l).
  rewrite get_vector_of_uint16_put. unfold ret. rewrite map_map.
  f_equal. f_equal. apply map_ext_in. intros a Ha.
  apply saturate16_fits. rewrite Forall_forall in H. now apply H.
Qed.

(** C7.  An amplitude that is sent through the legacy 16-bit coder
    ([put_adcsum_as_uint16], then [get_adcsum_as_uint16]) comes back
    unchanged when it is at most 65535 and as exactly 65535 when it is
    larger: never wrapped, never negative. *)
Theorem legacy_uint16_saturates (l : list Z) (rest : list wire) :
  Forall (fun a => 0 <= a) l ->
  exists l',
    get_adcsum_as_uint16 (zlength l) (put_adcsum_as_uint16 l ++ rest)
    = Some (l', rest)
    /\ length l' = length l
    /\ forall i a, nth_error l i = Some a ->
         exists a', nth_error l' i = Some a'
           /\ (a <= 65535 -> a' = a) /\ (a > 65535 -> a' = 65535).
Proof.
  intros H. exists (map saturate16 l). split; [|split].
  - now apply adcsum_as_uint16_roundtrip.
  - apply length_map.
  - intros i a Hi. exists (saturate16 a). split.
    + rewrite nth_error_map, Hi. reflexivity.
    + unfold saturate16. split; intros Ha.
      * apply Z.leb_le in Ha. now rewrite Ha.
      * assert (E : (a <=? 65535) = false) by (apply Z.leb_gt; lia).
        now rewrite E.
Qed.

Lemma legacy_uint16_saturates_witness :
  Forall (fun a => 0 <= a) amplitudes_around_limit
  /\ exists l',
       get_adcsum_as_uint16 (zlength amplitudes_around_limit)
         (put_adcsum_as_uint16 amplitudes_around_limit ++ [W8 7])
       = Some (l', [W8 7])
       /\ length l' = length amplitudes_around_limit
       /\ forall i a, nth_error amplitudes_around_limit i = Some a ->
            exists a', nth_error l' i = Some a'
              /\ (a <= 65535 -> a' = a) /\ (a > 65535 -> a' = 65535).
Proof.
  assert (H : Forall (fun a => 0 <= a) amplitudes_around_limit)
    by (repeat constructor; lia).
  split; [exact H|].
  exact (legacy_uint16_saturates amplitudes_around_limit [W8 7] H).
Defined.

(** ** Writing a structure that holds no data *)

(** C10.  When the [known] flag of the structure is clear, both
    [write_hess_teladc_sums] and [write_hess_teladc_samples] return 0 and
    leave the output buffer (and the structure) as it was. *)
Theorem write_without_data_is_noop (adc_list_l0 : Z -> Z) (iobuf : IO_BUFFER)
    (raw : AdcData) :
  known raw = 0 ->
  write_hess_teladc_sums adc_list_l0 iobuf raw = Some (0, iobuf, raw)
  /\ write_hess_teladc_samples iobuf raw = (0, iobuf).
Proof.
  intros H. unfold write_hess_teladc_sums, write_hess_teladc_samples.
  rewrite H. simpl. split; reflexivity.
Qed.

Lemma write_without_data_is_noop_witness :
  known blank = 0
  /\ write_hess_teladc_sums (fun _ => 0) [] blank = Some (0, [], blank)
  /\ write_hess_teladc_samples [] blank = (0, []).
Proof.
  split; [reflexivity|].
  apply (write_without_data_is_noop (fun _ => 0) [] blank). reflexivity.
Defined.


(** ** Records that the sum-mode reader refuses *)

Lemma some_pair_inv {A B : Type} (a a' : A) (b b' : B) :
  Some (a, b) = Some (a', b') -> a = a' /\ b = b'.
Proof. intros H. split; congruence. Qed.

Lemma read_sums_header_known (version flags : Z) (raw h : AdcData)
    (s s' : list wire) :
  read_sums_header version flags raw s = Some (h, s') -> known h = known raw.
Proof.
  unfold read_sums_header, bind, ret.
  destruct ((version >=? 4) && (data_red_mode raw =? 2)).
  - destruct (get_scount32 s) as [[t s1]|]; [|discriminate].
    destruct (get_scount32 s1) as [[o s2]|]; [|discriminate].
    destruct (get_scount32 s2) as [[c s3]|]; [|discriminate].
    destruct (version =? 0); [intros H; apply some_pair_inv in H; destruct H as [<- _]; reflexivity|].
    destruct (version =? 1); [intros H; apply some_pair_inv in H; destruct H as [<- _]; reflexivity|].
    destruct (get_long s3) as [[np s4]|]; [|discriminate].
    destruct (get_short s4) as [[ng s5]|]; [|discriminate].
    intros H; apply some_pair_inv in H; destruct H as [<- _]; reflexivity.
  - destruct (version =? 0); [intros H; apply some_pair_inv in H; destruct H as [<- _]; reflexivity|].
    destruct (version =? 1); [intros H; apply some_pair_inv in H; destruct H as [<- _]; reflexivity|].
    destruct (get_long s) as [[np s4]|]; [|discriminate].
    destruct (get_short s4) as [[ng s5]|]; [|discriminate].
    intros H; apply some_pair_inv in H; destruct H as [<- _]; reflexivity.
Qed.

(** C6.  A record whose version exceeds 4, or that declares more pixels
    than [H_MAX_PIX], more gains than [H_MAX_GAINS], a zero-suppression or
    data-reduction mode above 2, or 32768 or more pixels together with a
    zero-suppression mode above 1, makes [read_hess_teladc_sums] return the
    negative status -1; the buffer is then at the next record and the
    [known] flag of the structure is 0. *)
Theorem read_sums_refuses_out_of_limits (H_MAX_PIX : Z) (lgval0 : Z -> Z)
    (it : item) (rest : IO_BUFFER) (raw : AdcData) :
  it_type it = IO_TYPE_HESS_TELADCSUM ->
  sums_out_of_limits H_MAX_PIX it raw ->
  exists raw',
    read_hess_teladc_sums H_MAX_PIX lgval0 (it :: rest) raw
    = Some (-1, raw', rest)
    /\ known raw' = 0.
Proof.
  intros Ht Hbad. unfold read_hess_teladc_sums, get_item_begin.
  rewrite Ht, Z.eqb_refl.
  destruct Hbad as [Hv | (h & s & Hh & Hlim)].
  - assert (E : (it_version it >? 4) = true) by (apply Z.gtb_lt; lia).
    rewrite E. eexists. split; reflexivity.
  - destruct (it_version it >? 4) eqn:E.
    + eexists. split; reflexivity.
    + unfold sums_declared in Hh. rewrite Hh.
      assert (Hk : known h = 0).
      { apply read_sums_header_known in Hh. exact Hh. }
      assert (Ei : sums_invalid H_MAX_PIX h = true).
      { unfold sums_invalid. rewrite !orb_true_iff, andb_true_iff.
        rewrite !Z.gtb_lt, Z.geb_le.
        destruct Hlim as [H|[H|[H|[H|[H1 H2]]]]].
        - left; left; left; left; lia.
        - left; left; left; right; lia.
        - left; right; lia.
        - right; lia.
        - left; left; right. split; lia. }
      rewrite Ei. eexists. split; [reflexivity|]. exact Hk.
Qed.

Lemma read_sums_refuses_out_of_limits_witness :
  it_type oversized_record = IO_TYPE_HESS_TELADCSUM
  /\ sums_out_of_limits 960 oversized_record blank
  /\ exists raw',
       read_hess_teladc_sums 960 (fun _ => 0) [oversized_record; oversized_record]
         blank
       = Some (-1, raw', [oversized_record])
       /\ known raw' = 0.
Proof.
  assert (H : sums_out_of_limits 960 oversized_record blank).
  { right. eexists. eexists. split; [vm_compute; reflexivity|]. left.
    vm_compute. reflexivity. }
  split; [reflexivity|]. split; [exact H|].
  exact (read_sums_refuses_out_of_limits 960 (fun _ => 0) oversized_record
           [oversized_record] blank eq_refl H).
Defined.

(** ** Bit fields of the identifier *)

Lemma land_shiftl_disjoint (a b k : Z) :
  0 <= a < 2 ^ k -> 0 <= k -> Z.land a (Z.shiftl b k) = 0.
Proof.
  intros Ha Hk. apply Z.bits_inj'. intros n Hn.
  rewrite Z.land_spec, Z.bits_0.
  destruct (Z.lt_ge_cases n k) as [Hlt|Hge].
  - rewrite Z.shiftl_spec_low by lia. apply andb_false_r.
  - destruct (Z.eq_dec a 0) as [->|Hne].
    + now rewrite Z.bits_0.
    + rewrite (Z.bits_above_log2 a n); [reflexivity|lia|].
      apply Z.lt_le_trans with k; [|lia].
      apply Z.log2_lt_pow2; lia.
Qed.

Lemma lor_shiftl_add (a b k : Z) :
  0 <= a < 2 ^ k -> 0 <= k -> Z.lor a (Z.shiftl b k) = a + b * 2 ^ k.
Proof.
  intros Ha Hk. pose proof (Z.add_lor_land a (Z.shiftl b k)) as E.
  rewrite land_shiftl_disjoint in E by assumption.
  rewrite Z.shiftl_mul_pow2 in E by assumption.
  rewrite Z.shiftl_mul_pow2 by assumption. lia.
Qed.

Lemma land_31 (x : Z) : Z.land x 31 = x mod 32.
Proof. change 31 with (Z.ones 5). now rewrite Z.land_ones. Qed.


Lemma land_65535 (x : Z) : Z.land x 65535 = x mod 65536.
Proof. change 65535 with (Z.ones 16). now rewrite Z.land_ones. Qed.

(** The identifier of the versions that keep the counts in the body. *)
Lemma sums_flags_sum (raw : AdcData) (version z d : Z) :
  2 <= version -> 0 <= z < 32 -> 0 <= d < 32 ->
  sums_flags raw version z d
  = z + d * 32 + (if negb (list_known raw =? 0) then 1 else 0) * 1024
    + (tel_id raw mod 65536) * 4096.
Proof.
  intros Hv Hz Hd. unfold sums_flags.
  assert (E : (version <? 2) = false) by (apply Z.ltb_ge; lia).
  rewrite E.
  set (lk := if negb (list_known raw =? 0) then 1 else 0).
  assert (Hlk : 0 <= lk <= 1) by (subst lk; destruct (negb _); lia).
  rewrite land_65535.
  rewrite (lor_shiftl_add z d 5) by lia.
  rewrite (lor_shiftl_add (z + d * 2 ^ 5) lk 10) by lia.
  rewrite (lor_shiftl_add (z + d * 2 ^ 5 + lk * 2 ^ 10) _ 12) by lia.
  reflexivity.
Qed.

Lemma sums_flags_zero_sup (raw : AdcData) (version z d : Z) :
  2 <= version -> 0 <= z < 32 -> 0 <= d < 32 ->
  Z.land (sums_flags raw version z d) 0x1f = z.
Proof.
  intros Hv Hz Hd. rewrite sums_flags_sum by assumption.
  rewrite land_31.
  set (lk := if negb (list_known raw =? 0) then 1 else 0).
  replace (z + d * 32 + lk * 1024 + tel_id raw mod 65536 * 4096)
    with (z + (d + lk * 32 + tel_id raw mod 65536 * 128) * 32) by ring.
  rewrite Z.mod_add by lia. apply Z.mod_small. lia.
Qed.

(** ** The choice of the zero-suppression scheme *)

Lemma make_pixel_list_count (sig : Z -> Z) (n : nat) (i : Z) (lst : Z -> Z)
    (nlst : Z) :
  snd (make_pixel_list sig n i lst nlst) = nlst + count_significant sig n i.
Proof.
  revert i lst nlst. induction n as [|n IH]; intros i lst nlst.
  - simpl. lia.
  - cbn [make_pixel_list count_significant].
    destruct (sig i =? 0); cbn [negb]; rewrite IH; lia.
Qed.

Lemma count_significant_range (sig : Z -> Z) (n : nat) (i : Z) :
  0 <= count_significant sig n i <= Z.of_nat n.
Proof.
  revert i. induction n as [|n IH]; intros i.
  - simpl. lia.
  - cbn [count_significant]. specialize (IH (i + 1)).
    destruct (sig i =? 0); lia.
Qed.

Lemma density_mode_range (n np : Z) : 0 <= density_mode n np <= 2.
Proof.
  unfold density_mode.
  destruct (Z.quot (17 * n) 16 >? np); [lia|].
  destruct (15 * n >? np); lia.
Qed.

Lemma sums_version_range (raw : AdcData) :
  sums_version raw = 3 \/ sums_version raw = 4.
Proof.
  unfold sums_version.
  destruct ((num_pixels raw >? 8191) && (zero_sup_mode raw >=? 2)
            && negb (data_red_mode raw =? 0)); [now right|].
  destruct ((num_pixels raw >? 32767) && (zero_sup_mode raw >=? 2)); auto.
Qed.

(** With a field [zero_sup_mode] that is not negative, a request for list
    mode or for the writer's choice is not turned into bitmap mode by
    line 3180: the camera sizes concerned get version 4. *)
Lemma sums_zero_sup_mode_kept (raw : AdcData) :
  0 <= zero_sup_mode raw ->
  sums_zero_sup_mode raw = Z.land (zero_sup_mode raw) 0x1f.
Proof.
  intros H0. unfold sums_zero_sup_mode.
  destruct ((num_pixels raw >=? 32768)
            && (Z.land (zero_sup_mode raw) 31 >=? 2)
            && (sums_version raw <? 4)) eqn:E; [|reflexivity].
  exfalso. rewrite !andb_true_iff in E. destruct E as [[E1 E2] E3].
  apply Z.geb_le in E1, E2. apply Z.ltb_lt in E3.
  rewrite land_31 in E2.
  assert (Hz : 2 <= zero_sup_mode raw).
  { pose proof (Z.mod_le (zero_sup_mode raw) 32 H0). lia. }
  unfold sums_version in E3.
  assert (Ea : (num_pixels raw >? 32767) = true) by (apply Z.gtb_lt; lia).
  assert (Eb : (zero_sup_mode raw >=? 2) = true) by (apply Z.geb_le; lia).
  rewrite Ea, Eb in E3. simpl in E3.
  destruct ((num_pixels raw >? 8191) && true
            && negb (data_red_mode raw =? 0)); lia.
Qed.

Lemma some_triple_inv {A B C : Type} (a a' : A) (b b' : B) (c c' : C) :
  Some (a, b, c) = Some (a', b', c') -> a = a' /\ b = b' /\ c = c'.
Proof. intros H. repeat split; congruence. Qed.

(** C8 (as amended).  When the writer is asked for its own choice
    (zero-suppression mode 3) it makes the list of the [n] significant
    pixels and writes plain mode when [17*n/16 > pixel_count], else bitmap
    mode when [15*n > pixel_count], else list mode; when it is asked for
    list mode and has no list yet it makes the list and stays in list
    mode, whatever the density.  Either way the mode in the header of the
    record is 0, 1 or 2. *)
Theorem sums_mode_selection (adc_list_l0 : Z -> Z) (iobuf iobuf' : IO_BUFFER)
    (raw raw' : AdcData) :
  known raw <> 0 ->
  0 <= zero_sup_mode raw ->
  Z.land (zero_sup_mode raw) 0x1f = 3
  \/ (Z.land (zero_sup_mode raw) 0x1f = 2 /\ list_known raw = 0) ->
  write_hess_teladc_sums adc_list_l0 iobuf raw = Some (0, iobuf', raw') ->
  let n := count_significant (significant raw) (Z.to_nat (num_pixels raw)) 0 in
  exists it,
    iobuf' = iobuf ++ [it]
    /\ list_known raw' = 1
    /\ list_size raw' = n
    /\ header_zero_sup_mode it
       = (if Z.land (zero_sup_mode raw) 0x1f =? 3
          then density_mode n (num_pixels raw) else 2)
    /\ 0 <= header_zero_sup_mode it <= 2.
Proof.
  intros Hk H0 Hz Hw n.
  unfold write_hess_teladc_sums in Hw.
  apply Z.eqb_neq in Hk. rewrite Hk in Hw.
  destruct (sums_unsupported raw) eqn:Eu.
  { apply some_triple_inv in Hw. lia. }
  rewrite sums_zero_sup_mode_kept in Hw by assumption.
  assert (Hd : 0 <= sums_data_red_mode raw <= 2).
  { unfold sums_unsupported in Eu. rewrite !orb_false_iff in Eu.
    destruct Eu as [[[[[[[[[_ _] _] _] Ed1] Ed2] _] _] _] _].
    apply Z.ltb_ge in Ed1. rewrite Z.gtb_ltb in Ed2.
    apply Z.ltb_ge in Ed2. lia. }
  assert (Hv : 2 <= sums_version raw)
    by (destruct (sums_version_range raw); lia).
  assert (Hsel :
    exists r z,
      sums_select_mode raw (Z.land (zero_sup_mode raw) 31) = (r, z)
      /\ list_known r = 1 /\ list_size r = n
      /\ tel_id r = tel_id raw
      /\ sums_data_red_mode r = sums_data_red_mode raw
      /\ z = (if Z.land (zero_sup_mode raw) 31 =? 3
              then density_mode n (num_pixels raw) else 2)).
  { unfold sums_select_mode.
    pose proof (make_pixel_list_count (significant raw)
                  (Z.to_nat (num_pixels raw)) 0 (adc_list raw) 0) as Hc.
    destruct (make_pixel_list (significant raw) (Z.to_nat (num_pixels raw)) 0
                (adc_list raw) 0) as [lst nlst].
    simpl in Hc. fold n in Hc. subst nlst.
    destruct Hz as [Hz|[Hz Hlk]]; rewrite Hz; [|rewrite Hlk].
    - change (3 =? 3) with true. cbn [orb]. unfold density_mode.
      cbn [num_pixels set_list_size set_list_known set_adc_list].
      destruct (Z.quot (17 * n) 16 >? num_pixels raw);
        [|destruct (15 * n >? num_pixels raw)];
        cbv beta iota zeta delta [Z.eqb Pos.eqb];
        eexists; eexists; (split; [reflexivity|]); repeat split.
    - cbv beta iota zeta delta [Z.eqb Pos.eqb orb andb].
      eexists; eexists; (split; [reflexivity|]); repeat split. }
  destruct Hsel as (r & z & Es & Hlk & Hls & Htel & Hdr & Hzv).
  rewrite Es in Hw. rewrite Hdr in Hw.
  destruct (write_sums_body adc_list_l0 r (sums_version raw) z
              (sums_data_red_mode raw)) as [body|]; [|discriminate].
  unfold put_item in Hw. apply some_triple_inv in Hw.
  destruct Hw as (_ & Hbuf & Hraw). subst raw' iobuf'.
  assert (Hzr : 0 <= z <= 2).
  { subst z. destruct (Z.land (zero_sup_mode raw) 31 =? 3);
      [apply density_mode_range|lia]. }
  eexists. split; [reflexivity|]. split; [exact Hlk|]. split; [exact Hls|].
  unfold header_zero_sup_mode. cbn [it_ident].
  rewrite sums_flags_zero_sup by lia.
  split; [exact Hzv|exact Hzr].
Qed.

Lemma sums_mode_selection_witness :
  known dense_camera_auto <> 0
  /\ 0 <= zero_sup_mode dense_camera_auto
  /\ exists it raw',
       write_hess_teladc_sums (fun _ => 0) [] dense_camera_auto
       = Some (0, [it], raw')
       /\ list_known raw' = 1
       /\ list_size raw' = 16
       /\ header_zero_sup_mode it = 0.
Proof.
  assert (Hk : known dense_camera_auto <> 0) by (vm_compute; discriminate).
  assert (H0 : 0 <= zero_sup_mode dense_camera_auto) by (vm_compute; discriminate).
  split; [exact Hk|]. split; [exact H0|].
  destruct (write_hess_teladc_sums (fun _ => 0) [] dense_camera_auto)
    as [[[rc buf] r]|] eqn:E; [|vm_compute in E; discriminate].
  assert (Hrc : rc = 0).
  { vm_compute in E. apply some_triple_inv in E. lia. }
  subst rc.
  destruct (sums_mode_selection (fun _ => 0) [] buf dense_camera_auto r
              Hk H0 (or_introl eq_refl) E) as (it & Hb & Hl & Hs & Hm & _).
  exists it, r. subst buf. split; [reflexivity|].
  split; [exact Hl|]. split; [exact Hs|]. exact Hm.
Defined.

(** C8 as stated fails on the code: asked for list mode without a list,
    the writer keeps list mode for a camera whose 16 pixels are all
    significant, where the density asks for plain mode. *)
Lemma sums_mode_selection_counterexample :
  Z.land (zero_sup_mode dense_camera) 0x1f = 2
  /\ list_known dense_camera = 0
  /\ count_significant (significant dense_camera)
       (Z.to_nat (num_pixels dense_camera)) 0 = 16
  /\ density_mode 16 (num_pixels dense_camera) = 0
  /\ exists it raw',
       write_hess_teladc_sums (fun _ => 0) [] dense_camera
       = Some (0, [it], raw')
       /\ header_zero_sup_mode it = 2.
Proof.
  split; [reflexivity|]. split; [reflexivity|]. split; [reflexivity|].
  split; [reflexivity|].
  eexists. eexists. split; [vm_compute; reflexivity|]. reflexivity.
Qed.

(** ** The 8-bit representation of the high-gain amplitude *)







(** ** The plain mode of the sum-mode reader *)

Ltac raw_simpl :=
  cbn [known tel_id num_pixels num_gains num_samples zero_sup_mode
       data_red_mode offset_hg8 scale_hg8 threshold list_known list_size
       adc_list significant adc_known adc_sum adc_sample
       set_known set_tel_id set_num_pixels set_num_gains set_num_samples
       set_zero_sup_mode set_data_red_mode set_offset_hg8 set_scale_hg8
       set_threshold set_list_known set_list_size set_adc_list
       set_significant set_adc_known set_adc_sum set_adc_sample
       set_sum set_kn set_sig set_trace] in *.

Lemma bind_some {A B : Type} (m : get A) (k : A -> get B) (s : list wire)
    (r : B * list wire) :
  (x <- m ;; k x) s = Some r ->
  exists a s', m s = Some (a, s') /\ k a s' = Some r.
Proof.
  unfold bind. destruct (m s) as [[a s']|]; [|discriminate].
  intros H. now exists a, s'.
Qed.

Lemma ret_some {A : Type} (a b : A) (s s' : list wire) :
  ret a s = Some (b, s') -> b = a /\ s' = s.
Proof. unfold ret. intros H. apply some_pair_inv in H. intuition congruence. Qed.

Lemma same_header_refl (a : AdcData) : same_header a a.
Proof. repeat split. Qed.

Lemma same_header_trans (a b c : AdcData) :
  same_header a b -> same_header b c -> same_header a c.
Proof. unfold same_header. intuition congruence. Qed.

Lemma upd2_same {A : Type} (a : Z -> Z -> A) (g i : Z) (v : A) :
  upd2 a g i v g i = v.
Proof. unfold upd2. now rewrite !upd_same. Qed.

Lemma upd2_other_index {A : Type} (a : Z -> Z -> A) (g g' i j : Z) (v : A) :
  j <> i -> upd2 a g i v g' j = a g' j.
Proof.
  intros H. unfold upd2, upd. destruct (g' =? g) eqn:E.
  - apply Z.eqb_eq in E. subst. apply Z.eqb_neq in H. now rewrite H.
  - reflexivity.
Qed.

Lemma upd2_other_gain {A : Type} (a : Z -> Z -> A) (g g' i j : Z) (v : A) :
  g' <> g -> upd2 a g i v g' j = a g' j.
Proof. intros H. unfold upd2, upd. apply Z.eqb_neq in H. now rewrite H. Qed.

Lemma marks_refl (raw : AdcData) (a : Z) : marks raw raw a a.
Proof.
  split; [apply same_header_refl|]. split; [intros p Hp; lia|].
  intros p _. split; reflexivity.
Qed.

Lemma marks_trans (r1 r2 r3 : AdcData) (a b c : Z) :
  a <= b <= c -> marks r1 r2 a b -> marks r2 r3 b c -> marks r1 r3 a c.
Proof.
  intros Habc (Hh1 & Hin1 & Hout1) (Hh2 & Hin2 & Hout2).
  split; [eapply same_header_trans; eassumption|]. split.
  - intros p Hp. destruct (Z.lt_ge_cases p b) as [Hlt|Hge].
    + destruct (Hout2 p ltac:(lia)) as [E1 E2].
      destruct (Hin1 p ltac:(lia)) as [M1 M2].
      split; congruence.
    + apply Hin2. lia.
  - intros p Hp.
    destruct (Hout2 p ltac:(lia)) as [E1 E2].
    destruct (Hout1 p ltac:(lia)) as [E3 E4].
    split; congruence.
Qed.

(** What one turn of an assignment loop does to the marks: the pixel
    [q] is marked, whatever is stored for its amplitudes and its low
    gain. *)
Lemma marks_one (raw raw1 : AdcData) (q : Z) :
  same_header raw1 raw ->
  significant raw1 = upd (significant raw) q 1 ->
  (forall p, adc_known raw1 HI_GAIN p = upd (adc_known raw HI_GAIN) q 1 p) ->
  marks raw raw1 q (q + 1).
Proof.
  intros Hh Hs Hk. split; [exact Hh|]. split.
  - intros p Hp. assert (p = q) by lia. subst p. split.
    + rewrite Hs. apply upd_same.
    + rewrite Hk. apply upd_same.
  - intros p Hp. split.
    + rewrite Hs. apply upd_other. lia.
    + rewrite Hk. apply upd_other. lia.
Qed.

Ltac known_hi :=
  intros; raw_simpl;
  repeat first
    [ rewrite upd2_other_gain by (unfold HI_GAIN, LO_GAIN; lia)
    | progress (unfold upd2 at 1; rewrite upd_same) ];
  reflexivity.

Lemma assign_z0_r1_marks (cfl : Z) (lg : list Z) (k : Z) (n : nat) :
  forall (j mlg : Z) (raw : AdcData),
    marks raw (assign_z0_r1 cfl lg k n j mlg raw)
      (k + j) (k + j + Z.of_nat n).
Proof.
  induction n as [|n IH]; intros j mlg raw.
  - simpl. rewrite Z.add_0_r. apply marks_refl.
  - cbn [assign_z0_r1].
    destruct (bit cfl j);
      (eapply marks_trans with (b := k + j + 1); [lia| |
         replace (k + j + 1) with (k + (j + 1)) by lia;
         replace (k + j + Z.of_nat (S n))
           with (k + (j + 1) + Z.of_nat n) by lia;
         apply IH]);
      (apply marks_one; [repeat split|reflexivity|known_hi]).
Qed.

Lemma assign_z0_r2_marks (so oo cfl bfl : Z) (lg hg hg8 : list Z) (k : Z)
    (n : nat) :
  forall (j mlg mhg16 mhg8 : Z) (raw : AdcData),
    marks raw (assign_z0_r2 so oo cfl bfl lg hg hg8 k n j mlg mhg16 mhg8 raw)
      (k + j) (k + j + Z.of_nat n).
Proof.
  induction n as [|n IH]; intros j mlg mhg16 mhg8 raw.
  - simpl. rewrite Z.add_0_r. apply marks_refl.
  - cbn [assign_z0_r2].
    destruct (bit cfl j); [|destruct (bit bfl j)];
      (eapply marks_trans with (b := k + j + 1); [lia| |
         replace (k + j + 1) with (k + (j + 1)) by lia;
         replace (k + j + Z.of_nat (S n))
           with (k + (j + 1) + Z.of_nat n) by lia;
         apply IH]);
      (apply marks_one; [repeat split|reflexivity|known_hi]).
Qed.


Section GroupLoop.

Variable one : Z -> Z -> AdcData -> get AdcData.

Hypothesis one_marks :
  forall k n raw s raw' s',
    0 <= n -> one k n raw s = Some (raw', s') -> marks raw raw' k (k + n).


End GroupLoop.



Lemma read_plain_gains_frame (version : Z) (n : nat) :
  forall (i : Z) (raw raw' : AdcData) (s s' : list wire),
    read_plain_gains version n i raw s = Some (raw', s') ->
    same_header raw' raw
    /\ significant raw' = significant raw
    /\ adc_known raw' = adc_known raw.
Proof.
  induction n as [|n IH]; intros i raw raw' s s' H.
  - cbn [read_plain_gains] in H. apply ret_some in H. destruct H as [-> _].
    repeat split.
  - cbn [read_plain_gains] in H.
    apply bind_some in H. destruct H as (l & s1 & _ & H).
    apply IH in H. raw_simpl. exact H.
Qed.

Lemma read_sums_header_modes (version flags : Z) (raw h : AdcData)
    (s s' : list wire) :
  read_sums_header version flags raw s = Some (h, s') ->
  zero_sup_mode h = zero_sup_mode raw /\ data_red_mode h = data_red_mode raw.
Proof.
  unfold read_sums_header, bind, ret.
  destruct ((version >=? 4) && (data_red_mode raw =? 2)).
  - destruct (get_scount32 s) as [[t s1]|]; [|discriminate].
    destruct (get_scount32 s1) as [[o s2]|]; [|discriminate].
    destruct (get_scount32 s2) as [[c s3]|]; [|discriminate].
    destruct (version =? 0);
      [intros H; apply some_pair_inv in H; destruct H as [<- _]; split; reflexivity|].
    destruct (version =? 1);
      [intros H; apply some_pair_inv in H; destruct H as [<- _]; split; reflexivity|].
    destruct (get_long s3) as [[np s4]|]; [|discriminate].
    destruct (get_short s4) as [[ng s5]|]; [|discriminate].
    intros H; apply some_pair_inv in H; destruct H as [<- _]; split; reflexivity.
  - destruct (version =? 0);
      [intros H; apply some_pair_inv in H; destruct H as [<- _]; split; reflexivity|].
    destruct (version =? 1);
      [intros H; apply some_pair_inv in H; destruct H as [<- _]; split; reflexivity|].
    destruct (get_long s) as [[np s4]|]; [|discriminate].
    destruct (get_short s4) as [[ng s5]|]; [|discriminate].
    intros H; apply some_pair_inv in H; destruct H as [<- _]; split; reflexivity.
Qed.


Lemma fill_inside (a : Z -> Z) (n v j : Z) : 0 <= j < n -> fill a n v j = v.
Proof.
  intros H. unfold fill.
  assert (E1 : (0 <=? j) = true) by (apply Z.leb_le; lia).
  assert (E2 : (j <? n) = true) by (apply Z.ltb_lt; lia).
  now rewrite E1, E2.
Qed.

Lemma fill2_inside (a : Z -> Z -> Z) (ng n v i j : Z) :
  0 <= i < ng -> 0 <= j < n -> fill2 a ng n v i j = v.
Proof.
  intros Hi Hj. unfold fill2.
  assert (E1 : (0 <=? i) = true) by (apply Z.leb_le; lia).
  assert (E2 : (i <? ng) = true) by (apply Z.ltb_lt; lia).
  rewrite E1, E2. now apply fill_inside.
Qed.


Lemma assign_z1_header (so oo drm zb cfl bfl : Z) (lg hg hg8 : list Z) (k : Z)
    (n : nat) :
  forall (j mlg mhg16 mhg8 : Z) (raw : AdcData),
    same_header
      (assign_z1 so oo drm zb cfl bfl lg hg hg8 k n j mlg mhg16 mhg8 raw) raw.
Proof.
  induction n as [|n IH]; intros j mlg mhg16 mhg8 raw.
  - apply same_header_refl.
  - cbn [assign_z1].
    destruct (bit zb j); [|apply IH].
    destruct ((drm <? 1) || bit cfl j);
      [|destruct ((drm =? 2) && bit bfl j)];
      (eapply same_header_trans; [apply IH|repeat split]).
Qed.

Lemma read_groups_header (one : Z -> Z -> AdcData -> get AdcData) :
  (forall k n raw s raw' s',
      one k n raw s = Some (raw', s') -> same_header raw' raw) ->
  forall (fuel : nat) (k : Z) (raw raw' : AdcData) (s s' : list wire),
    read_groups one fuel k raw s = Some (raw', s') -> same_header raw' raw.
Proof.
  intros Hone. induction fuel as [|fuel IH]; intros k raw raw' s s' H.
  - apply ret_some in H. destruct H as [-> _]. apply same_header_refl.
  - cbn [read_groups] in H. destruct (k <? num_pixels raw).
    + apply bind_some in H. destruct H as (r1 & s1 & H1 & H2).
      eapply same_header_trans; [eapply IH; exact H2|].
      eapply Hone; exact H1.
    + apply ret_some in H. destruct H as [-> _]. apply same_header_refl.
Qed.

Lemma read_group_z1_header (version so oo : Z) (lgval0 : Z -> Z) (k n : Z)
    (raw raw' : AdcData) (s s' : list wire) :
  read_group_z1 version so oo lgval0 k n raw s = Some (raw', s') ->
  same_header raw' raw.
Proof.
  unfold read_group_z1. intros H.
  apply bind_some in H. destruct H as (zb & s1 & _ & H).
  destruct (zb >? 0);
    [|apply ret_some in H; destruct H as [-> _]; apply same_header_refl].
  apply bind_some in H. destruct H as ([[cfl bfl] [[mlg mhg16] mhg8]] & s2 & _ & H).
  destruct (count_flags zb (Z.to_nat n) 0 >? 0);
    [|apply ret_some in H; destruct H as [-> _]; apply same_header_refl].
  apply bind_some in H. destruct H as (lg & s3 & _ & H).
  apply bind_some in H. destruct H as (hg & s4 & _ & H).
  apply bind_some in H. destruct H as (hg8 & s5 & _ & H).
  apply ret_some in H. destruct H as [-> _]. apply assign_z1_header.
Qed.

Lemma assign_list_header (version so oo : Z) (l : list Z) (lg hg hg8 : list Z) :
  forall (j mlg mhg16 mhg8 : Z) (raw : AdcData),
    same_header (assign_list version so oo l lg hg hg8 j mlg mhg16 mhg8 raw) raw.
Proof.
  induction l as [|e l IH]; intros j mlg mhg16 mhg8 raw.
  - apply same_header_refl.
  - cbn [assign_list].
    destruct (list_entry version e) as [[k wlg] rw].
    destruct rw;
      match goal with
      | |- context [if ?b then _ else _] => destruct b
      end;
      try destruct wlg;
      (eapply same_header_trans; [apply IH|repeat split]).
Qed.

Lemma read_list_header (version so oo : Z) (raw raw' : AdcData)
    (s s' : list wire) :
  read_list version so oo raw s = Some (raw', s') -> same_header raw' raw.
Proof.
  unfold read_list. intros H.
  apply bind_some in H. destruct H as (ls & s1 & _ & H).
  apply bind_some in H. destruct H as (l & s2 & _ & H).
  match type of H with
  | context [count_list ?a ?b] =>
      destruct (count_list a b) as [[mlg mhg16] mhg8]
  end.
  apply bind_some in H. destruct H as (lg & s3 & _ & H).
  apply bind_some in H. destruct H as (hg & s4 & _ & H).
  apply bind_some in H. destruct H as (hg8 & s5 & _ & H).
  apply ret_some in H. destruct H as [-> _].
  eapply same_header_trans; [apply assign_list_header|repeat split].
Qed.

Lemma marks_header (raw raw' : AdcData) (a b : Z) :
  marks raw raw' a b -> same_header raw' raw.
Proof. intros H. apply H. Qed.

Lemma read_group_z0_r1_header (version : Z) (lgval0 : Z -> Z) (k n : Z)
    (raw raw' : AdcData) (s s' : list wire) :
  read_group_z0_r1 version lgval0 k n raw s = Some (raw', s') ->
  same_header raw' raw.
Proof.
  intros H. unfold read_group_z0_r1 in H.
  apply bind_some in H. destruct H as (cfl & s1 & _ & H).
  apply bind_some in H. destruct H as (lg & s2 & _ & H).
  apply bind_some in H. destruct H as (hg & s3 & _ & H).
  apply ret_some in H. destruct H as [-> _].
  eapply same_header_trans;
    [eapply marks_header, assign_z0_r1_marks|repeat split].
Qed.

Lemma read_group_z0_r2_header (version so oo : Z) (lgval0 : Z -> Z) (k n : Z)
    (raw raw' : AdcData) (s s' : list wire) :
  read_group_z0_r2 version so oo lgval0 k n raw s = Some (raw', s') ->
  same_header raw' raw.
Proof.
  intros H. unfold read_group_z0_r2 in H.
  apply bind_some in H. destruct H as (cfl & s1 & _ & H).
  apply bind_some in H. destruct H as (bfl & s2 & _ & H).
  destruct (count_z0_r2 cfl bfl (Z.to_nat n) 0) as [[mlg mhg16] mhg8].
  apply bind_some in H. destruct H as (lg & s3 & _ & H).
  apply bind_some in H. destruct H as (hg & s4 & _ & H).
  apply bind_some in H. destruct H as (hg8 & s5 & _ & H).
  apply ret_some in H. destruct H as [-> _].
  eapply marks_header, assign_z0_r2_marks.
Qed.

(** Reading the data leaves the counts and the modes as the header gave
    them. *)
Lemma read_sums_data_header (version so oo : Z) (lgval0 : Z -> Z)
    (raw raw' : AdcData) (s s' : list wire) :
  read_sums_data version so oo lgval0 raw s = Some (raw', s') ->
  same_header raw' raw.
Proof.
  intros H. unfold read_sums_data in H.
  destruct (zero_sup_mode raw) as [|z|z]; [| |discriminate].
  - destruct (data_red_mode raw) as [|p|p]; [| |discriminate].
    + now apply read_plain_gains_frame in H.
    + destruct p as [p|p|]; [discriminate| |].
      * destruct p as [p|p|]; [discriminate|discriminate|].
        eapply read_groups_header; [|exact H].
        intros. eapply read_group_z0_r2_header; eassumption.
      * eapply read_groups_header; [|exact H].
        intros. eapply read_group_z0_r1_header; eassumption.
  - destruct z as [z|z|].
    + discriminate.
    + destruct z as [z|z|]; [discriminate|discriminate|].
      destruct (data_red_mode raw) as [|p|p]; [| |discriminate].
      * eapply read_list_header; exact H.
      * destruct p as [p|p|]; [discriminate| |].
        -- destruct p as [p|p|]; [discriminate|discriminate|].
           eapply read_list_header; exact H.
        -- eapply read_list_header; exact H.
    + destruct (data_red_mode raw) as [|p|p]; [| |discriminate].
      * eapply read_groups_header; [|exact H].
        intros. eapply read_group_z1_header; eassumption.
      * destruct p as [p|p|]; [discriminate| |].
        -- destruct p as [p|p|]; [discriminate|discriminate|].
           eapply read_groups_header; [|exact H].
           intros. eapply read_group_z1_header; eassumption.
        -- eapply read_groups_header; [|exact H].
           intros. eapply read_group_z1_header; eassumption.
Qed.




(** ** Unfolding the sum-mode reader *)

(** The reader on a record of the right type, of a known version, with a
    header within the limits. *)
Lemma read_sums_accepted (H_MAX_PIX : Z) (lgval0 : Z -> Z) (it : item)
    (rest : IO_BUFFER) (raw h : AdcData) (s : list wire) :
  it_type it = IO_TYPE_HESS_TELADCSUM ->
  (it_version it >? 4) = false ->
  sums_declared it raw = Some (h, s) ->
  sums_invalid H_MAX_PIX h = false ->
  read_hess_teladc_sums H_MAX_PIX lgval0 (it :: rest) raw
  = match (p <- read_sums_hg8 h ;;
           let '(r, scale_hg8', offset_hg8') := p in
           read_sums_data (it_version it) scale_hg8' offset_hg8' lgval0
             (init_sums r)) s with
    | None => None
    | Some (r, _) => Some (0, set_known r 1, rest)
    end.
Proof.
  intros Ht Hv Hh Hi. unfold read_hess_teladc_sums, get_item_begin.
  rewrite Ht, Z.eqb_refl, Hv. unfold sums_declared in Hh. rewrite Hh, Hi.
  reflexivity.
Qed.

Lemma read_sums_hg8_none (raw : AdcData) (s : list wire) :
  data_red_mode raw <> 2 -> read_sums_hg8 raw s = Some (raw, 1, 0, s).
Proof.
  intros H. unfold read_sums_hg8. apply Z.eqb_neq in H. now rewrite H.
Qed.

Lemma read_sums_data_list (version so oo : Z) (lgval0 : Z -> Z) (raw : AdcData) :
  zero_sup_mode raw = 2 -> 0 <= data_red_mode raw <= 2 ->
  read_sums_data version so oo lgval0 raw = read_list version so oo raw.
Proof.
  intros Hz Hd. unfold read_sums_data. rewrite Hz.
  assert (E : data_red_mode raw = 0 \/ data_red_mode raw = 1
              \/ data_red_mode raw = 2) by lia.
  destruct E as [-> | [-> | ->]]; reflexivity.
Qed.

(** ** List mode with data-reduction mode 1 *)

Lemma gap_camera_written (adc_list_l0 : Z -> Z) :
  write_hess_teladc_sums adc_list_l0 [] gap_camera
  = Some (0, [gap_record (uint16 (adc_list_l0 1))], gap_camera).
Proof. reflexivity. Qed.

Lemma gap_record_read (lgval0 : Z -> Z) (w : Z) :
  read_hess_teladc_sums 960 lgval0 [gap_record w] blank
  = match read_list 3 1 0 gap_reader_state
            [W16 2; W16 7; W16 w; WSCount 700; WSCount 50; WSCount 20] with
    | Some (raw, _) => Some (0, set_known raw 1, [])
    | None => None
    end.
Proof.
  rewrite (read_sums_accepted 960 lgval0 (gap_record w) [] blank
             (set_num_samples
                (set_num_gains
                   (set_num_pixels
                      (set_tel_id
                         (set_list_known
                            (set_data_red_mode (set_zero_sup_mode blank 2) 1) 1) 1) 8) 2) 0)
             [W16 2; W16 7; W16 w; WSCount 700; WSCount 50; WSCount 20]);
    [|reflexivity|reflexivity|vm_compute; reflexivity|vm_compute; reflexivity].
  unfold bind at 1.
  rewrite read_sums_hg8_none by (vm_compute; discriminate).
  fold gap_reader_state.
  rewrite read_sums_data_list;
    [reflexivity|reflexivity|vm_compute; split; discriminate].
Qed.

Lemma count_list_cons (version ng e : Z) (l : list Z) :
  count_list version ng (e :: l)
  = (let '(mlg, mhg16, mhg8) := count_list version ng l in
     let '(_, without_lg, reduced_width) := list_entry version e in
     if reduced_width then (mlg, mhg16, mhg8 + 1)
     else if (ng <? 2) || without_lg then (mlg, mhg16 + 1, mhg8)
     else (mlg + 1, mhg16 + 1, mhg8)).
Proof. reflexivity. Qed.

(** The counts for the list of [gap_record]: pixel 7 with both gains,
    then an entry of any content. *)
Lemma gap_counts (e1 k1 : Z) (wlg1 rw1 : bool) :
  list_entry 3 e1 = (k1, wlg1, rw1) ->
  count_list 3 2 [7; e1]
  = if rw1 then (1, 1, 1) else if wlg1 then (1, 2, 0) else (2, 2, 0).
Proof.
  intros E1. rewrite !count_list_cons, E1.
  assert (E7 : list_entry 3 7 = (7, false, false)) by reflexivity.
  rewrite E7. destruct rw1, wlg1; reflexivity.
Qed.

Lemma gap_list_read (w k1 : Z) (wlg1 rw1 : bool) :
  list_entry 3 (int16 w) = (k1, wlg1, rw1) ->
  read_list 3 1 0 gap_reader_state
    [W16 2; W16 7; W16 w; WSCount 700; WSCount 50; WSCount 20]
  = if rw1 then None
    else if wlg1
    then Some (assign_list 3 1 0 [7; int16 w] [700] [50; 70] [] 0 0 0 0
                 (set_list_size gap_reader_state 2), [])
    else None.
Proof.
  intros E1. unfold read_list.
  assert (Ea : (3 >=? 4) = false) by reflexivity.
  assert (Eb : (3 <? 2) = false) by reflexivity.
  rewrite Ea, Eb.
  unfold bind at 1. cbn [get_short].
  assert (Ec : int32 (int16 2) = 2) by reflexivity. rewrite Ec.
  unfold bind at 1.
  assert (Ed : get_vector_of_int (list_size (set_list_size gap_reader_state 2))
                 [W16 7; W16 w; WSCount 700; WSCount 50; WSCount 20]
               = Some ([7; int16 w], [WSCount 700; WSCount 50; WSCount 20]))
    by reflexivity.
  rewrite Ed.
  assert (Eg : num_gains (set_list_size gap_reader_state 2) = 2) by reflexivity.
  rewrite Eg. rewrite (gap_counts (int16 w) k1 wlg1 rw1 E1).
  assert (Ee : (2 >=? 2) = true) by reflexivity. rewrite Ee.
  destruct rw1; [|destruct wlg1].
  - vm_compute. reflexivity.
  - unfold bind, ret.
    assert (G1 : get_adcsum_differential 1 [WSCount 700; WSCount 50; WSCount 20]
                 = Some ([700], [WSCount 50; WSCount 20]))
      by (vm_compute; reflexivity).
    assert (G4 : get_adcsum_differential 2 [WSCount 50; WSCount 20]
                 = Some ([50; 70], []))
      by (vm_compute; reflexivity).
    rewrite G1, G4. reflexivity.
  - vm_compute. reflexivity.
Qed.

Lemma assign_list_cons (version so oo e : Z) (l lg hg hg8 : list Z)
    (j mlg mhg16 mhg8 : Z) (raw : AdcData) :
  assign_list version so oo (e :: l) lg hg hg8 j mlg mhg16 mhg8 raw
  = (let '(k, without_lg, reduced_width) := list_entry version e in
     let raw := set_adc_list raw (upd (adc_list raw) j k) in
     let raw := set_sig raw k 1 in
     let '(raw, mhg16, mhg8) :=
       if reduced_width
       then (set_sum raw HI_GAIN k (expand_hg8 (znth hg8 mhg8) so oo),
             mhg16, mhg8 + 1)
       else (set_sum raw HI_GAIN k (znth hg mhg16), mhg16 + 1, mhg8) in
     let raw := set_kn raw HI_GAIN k 1 in
     let '(raw, mlg) :=
       if num_gains raw <=? 1 then (set_kn raw LO_GAIN k 0, mlg)
       else if without_lg
       then (set_kn (set_sum raw LO_GAIN k 0) LO_GAIN k 0, mlg)
       else (set_kn (set_sum raw LO_GAIN k (znth lg mlg)) LO_GAIN k 1,
             mlg + 1) in
     assign_list version so oo l lg hg hg8 (j + 1) mlg mhg16 mhg8 raw).
Proof. reflexivity. Qed.

(** The amplitudes of pixel 7 after the assignments for the list
    [7; e1], when [e1] stands for a pixel [k1] without low gain. *)
Lemma gap_assigned (e1 k1 : Z) (raw : AdcData) :
  list_entry 3 e1 = (k1, true, false) ->
  num_gains raw = 2 ->
  let raw' := assign_list 3 1 0 [7; e1] [700] [50; 70] [] 0 0 0 0 raw in
  adc_sum raw' HI_GAIN 7 = (if k1 =? 7 then 70 else 50)
  /\ adc_sum raw' LO_GAIN 7 = (if k1 =? 7 then 0 else 700).
Proof.
  intros E1 Hg raw'. subst raw'.
  assert (E7 : list_entry 3 7 = (7, false, false)) by reflexivity.
  assert (E : (2 <=? 1) = false) by reflexivity.
  rewrite assign_list_cons, E7. cbv beta iota zeta.
  raw_simpl. rewrite Hg, E. cbv beta iota zeta.
  rewrite assign_list_cons, E1. cbv beta iota zeta.
  raw_simpl. rewrite Hg, E. cbv beta iota zeta.
  cbn [assign_list]. raw_simpl.
  assert (Z1 : znth [50; 70] 0 = 50) by reflexivity.
  assert (Z2 : znth [50; 70] (0 + 1) = 70) by reflexivity.
  assert (Z3 : znth [700] 0 = 700) by reflexivity.
  rewrite Z1, Z2, Z3.
  destruct (Z.eq_dec k1 7) as [->|Hne].
  - rewrite Z.eqb_refl. split.
    + rewrite upd2_other_gain by (unfold HI_GAIN, LO_GAIN; lia).
      apply upd2_same.
    + apply upd2_same.
  - assert (En : (k1 =? 7) = false) by now apply Z.eqb_neq.
    rewrite En. split.
    + rewrite upd2_other_gain by (unfold HI_GAIN, LO_GAIN; lia).
      rewrite upd2_other_index by lia.
      rewrite upd2_other_gain by (unfold HI_GAIN, LO_GAIN; lia).
      apply upd2_same.
    + rewrite upd2_other_index by lia.
      rewrite upd2_other_gain by (unfold HI_GAIN, LO_GAIN; lia).
      apply upd2_same.
Qed.

(** C1, at a failing input.  For the camera [gap_camera] (list mode,
    data-reduction mode 1, the pixel without low gain listed before the
    pixel with low gain) the writer is satisfied and returns 0, and yet,
    whatever the unassigned entry of [adc_list_l] holds, no decoding of
    the record gives back both amplitudes of pixel 7. *)
Theorem sums_list_mode_loses_pixels (adc_list_l0 lgval0 : Z -> Z) :
  exists it,
    write_hess_teladc_sums adc_list_l0 [] gap_camera
    = Some (0, [it], gap_camera)
    /\ forall rc raw' iobuf',
         read_hess_teladc_sums 960 lgval0 [it] blank = Some (rc, raw', iobuf') ->
         ~ (adc_sum raw' HI_GAIN 7 = adc_sum gap_camera HI_GAIN 7
            /\ adc_sum raw' LO_GAIN 7 = adc_sum gap_camera LO_GAIN 7).
Proof.
  exists (gap_record (uint16 (adc_list_l0 1))).
  split; [apply gap_camera_written|].
  intros rc raw' buf' H.
  rewrite gap_record_read in H.
  destruct (list_entry 3 (int16 (uint16 (adc_list_l0 1))))
    as [[k1 wlg1] rw1] eqn:E1.
  rewrite (gap_list_read _ k1 wlg1 rw1 E1) in H.
  destruct rw1; [discriminate|]. destruct wlg1; [|discriminate].
  apply some_triple_inv in H. destruct H as (_ & <- & _).
  destruct (gap_assigned _ k1 (set_list_size gap_reader_state 2) E1 eq_refl)
    as [Hhi Hlo].
  raw_simpl. rewrite Hhi, Hlo.
  assert (A1 : adc_sum gap_camera HI_GAIN 7 = 70) by reflexivity.
  assert (A2 : adc_sum gap_camera LO_GAIN 7 = 700) by reflexivity.
  rewrite A1, A2.
  destruct (k1 =? 7); intros [B1 B2]; discriminate.
Qed.

(** ** Sums and the sample-mode reader *)





Lemma upd2_other {A : Type} (a : Z -> Z -> A) (g g' i j : Z) (v : A) :
  ~ (g' = g /\ j = i) -> upd2 a g i v g' j = a g' j.
Proof.
  intros H. destruct (Z.eq_dec g' g) as [->|Hg].
  - apply upd2_other_index. intros ->. tauto.
  - now apply upd2_other_gain.
Qed.



Lemma read_channel_plain_decoded (what version igain ipix : Z)
    (raw raw1 : AdcData) (s s1 : list wire) :
  read_channel_plain what version igain ipix raw s = Some (raw1, s1) ->
  channel_decoded what raw raw1 igain ipix.
Proof.
  unfold read_channel_plain. intros H.
  apply bind_some in H. destruct H as (l & s' & _ & H).
  apply ret_some in H. destruct H as [-> _].
  unfold channel_decoded, same_but, sum_derived, sum_known, trace_sum.
  raw_simpl.
  destruct (adc_known raw igain ipix =? 0) eqn:E.
  - apply Z.eqb_eq in E.
    destruct (rawsum_wanted what); raw_simpl;
      (split; [split; [reflexivity|]; split; [reflexivity|];
               split; [reflexivity|];
               intros g p Hgp; rewrite !upd2_other by exact Hgp;
               repeat split|]);
      (split; [intros Hne; contradiction|]); intros _ Hw;
      [|discriminate].
    rewrite !upd2_same. split; reflexivity.
  - apply Z.eqb_neq in E. raw_simpl.
    split; [split; [reflexivity|]; split; [reflexivity|];
            split; [reflexivity|];
            intros g p Hgp; rewrite !upd2_other by exact Hgp;
            repeat split|].
    split; [|intros H0; contradiction].
    intros _. rewrite upd2_same. split; reflexivity.
Qed.



Section SampleLoops.

Variable P : AdcData -> AdcData -> Prop.
Hypothesis P_refl : forall a, P a a.
Hypothesis P_trans : forall a b c, P a b -> P b c -> P a c.




End SampleLoops.



Lemma same_but_refl (T : Z -> Z -> Prop) (raw : AdcData) : same_but T raw raw.
Proof. repeat split. Qed.

Lemma region_none (what : Z) (raw : AdcData) :
  region_decoded what (fun _ _ => False) raw raw.
Proof. split; [apply same_but_refl|]. intros g p []. Qed.

Lemma region_union (what : Z) (T1 T2 T : Z -> Z -> Prop)
    (raw r1 r2 : AdcData) :
  (forall g p, T g p <-> T1 g p \/ T2 g p) ->
  (forall g p, T1 g p -> T2 g p -> False) ->
  region_decoded what T1 raw r1 ->
  region_decoded what T2 r1 r2 ->
  region_decoded what T raw r2.
Proof.
  intros HT Hdis ((Ep1 & Eg1 & Es1 & Ho1) & Hd1) ((Ep2 & Eg2 & Es2 & Ho2) & Hd2).
  split.
  - split; [congruence|]. split; [congruence|]. split; [congruence|].
    intros g p Hn.
    destruct (Ho1 g p ltac:(rewrite HT in Hn; tauto)) as (A1 & A2 & A3).
    destruct (Ho2 g p ltac:(rewrite HT in Hn; tauto)) as (B1 & B2 & B3).
    repeat split; congruence.
  - intros g p Ht H0 Hw. apply HT in Ht. destruct Ht as [Ht|Ht].
    + destruct (Hd1 g p Ht H0 Hw) as [D1 D2].
      destruct (Ho2 g p ltac:(intros X; exact (Hdis g p Ht X)))
        as (B1 & B2 & B3).
      unfold sum_derived, sum_known, trace_sum in *.
      rewrite B1, B2, B3, Es2. now split.
    + apply Hd2; [exact Ht| |exact Hw].
      destruct (Ho1 g p ltac:(intros X; exact (Hdis g p X Ht))) as (A1 & _).
      congruence.
Qed.

Lemma channel_region (what : Z) (raw raw1 : AdcData) (g p : Z) :
  channel_decoded what raw raw1 g p ->
  region_decoded what (fun g' p' => g' = g /\ p' = p) raw raw1.
Proof.
  intros (Hs & _ & Hd). split; [exact Hs|].
  intros g' p' [-> ->]. exact Hd.
Qed.

Lemma read_pixels_plain_region (what version g : Z) (n : nat) :
  forall (i : Z) (raw raw' : AdcData) (s s' : list wire),
    read_pixels (read_channel_plain what version g) n i raw s
    = Some (raw', s') ->
    region_decoded what (fun g' p' => g' = g /\ i <= p' < i + Z.of_nat n)
      raw raw'.
Proof.
  induction n as [|n IH]; intros i raw raw' s s' H.
  - apply ret_some in H. destruct H as [-> _].
    split; [apply same_but_refl|]. intros g' p' [_ Hp]. lia.
  - cbn [read_pixels] in H. apply bind_some in H.
    destruct H as (r1 & s1 & H1 & H2).
    apply read_channel_plain_decoded, channel_region in H1.
    apply IH in H2.
    eapply region_union; [| |exact H1|exact H2].
    + intros g' p'. lia.
    + intros g' p' [_ ->] [_ Hp]. lia.
Qed.

Lemma read_gains_plain_region (what version : Z) (n : nat) :
  forall (i : Z) (raw raw' : AdcData) (s s' : list wire),
    read_gains
      (fun igain raw =>
         read_pixels (read_channel_plain what version igain)
           (Z.to_nat (num_pixels raw)) 0 raw) n i raw s
    = Some (raw', s') ->
    region_decoded what
      (fun g p => i <= g < i + Z.of_nat n /\ 0 <= p < num_pixels raw)
      raw raw'.
Proof.
  induction n as [|n IH]; intros i raw raw' s s' H.
  - apply ret_some in H. destruct H as [-> _].
    split; [apply same_but_refl|]. intros g' p' [Hg _]. lia.
  - cbn [read_gains] in H. apply bind_some in H.
    destruct H as (r1 & s1 & H1 & H2).
    apply read_pixels_plain_region in H1.
    apply IH in H2.
    assert (Enp : num_pixels r1 = num_pixels raw) by apply H1.
    rewrite Enp in H2.
    eapply region_union; [| |exact H1|exact H2].
    + intros g' p'. cbv beta. lia.
    + intros g' p' [-> _] [Hg _]. lia.
Qed.

Lemma read_samples_header_frame (version flags : Z) (raw h : AdcData)
    (s s' : list wire) :
  read_samples_header version flags raw s = Some (h, s') ->
  adc_known h = adc_known raw /\ adc_sum h = adc_sum raw
  /\ adc_sample h = adc_sample raw.
Proof.
  unfold read_samples_header. intros H.
  apply bind_some in H. destruct H as (r1 & s1 & H1 & H).
  apply bind_some in H. destruct H as (ns & s2 & _ & H).
  apply ret_some in H. destruct H as [-> _]. raw_simpl.
  destruct (version =? 0);
    [apply ret_some in H1; destruct H1 as [-> _]; repeat split|].
  destruct (version =? 1);
    [apply ret_some in H1; destruct H1 as [-> _]; repeat split|].
  apply bind_some in H1. destruct H1 as (np & s3 & _ & H1).
  apply bind_some in H1. destruct H1 as (ng & s4 & _ & H1).
  apply ret_some in H1. destruct H1 as [-> _]. repeat split.
Qed.


(** Reading a record without zero suppression with [RAWSUM_FLAG]
    derives the sum of every pixel and gain of which nothing was known. *)
Lemma read_samples_plain_derives (H_MAX_PIX H_MAX_SLICES what : Z)
    (it : item) (rest iobuf' : IO_BUFFER) (raw raw' : AdcData) :
  read_hess_teladc_samples H_MAX_PIX H_MAX_SLICES what (it :: rest) raw
  = Some (0, raw', iobuf') ->
  Z.land (uint32 (it_ident it)) 0x1f = 0 ->
  rawsum_wanted what = true ->
  forall g p, 0 <= g < num_gains raw' -> 0 <= p < num_pixels raw' ->
              adc_known raw g p = 0 -> sum_derived raw' g p.
Proof.
  unfold read_hess_teladc_samples, get_item_begin. intros H Hz Hw g p Hg Hp H0.
  destruct (it_type it =? IO_TYPE_HESS_TELADCSAMP);
    [|apply some_triple_inv in H; lia].
  destruct (it_version it >? 3); [apply some_triple_inv in H; lia|].
  match type of H with
  | (if ?c then _ else _) = _ => destruct c
  end; [apply some_triple_inv in H; lia|].
  match type of H with
  | match read_samples_header ?v ?f ?r ?b with _ => _ end = _ =>
      destruct (read_samples_header v f r b) as [[h s]|] eqn:Eh;
        [|discriminate]
  end.
  apply read_samples_header_frame in Eh. destruct Eh as (Ek & _ & _).
  raw_simpl.
  match type of H with
  | (if ?c then _ else _) = _ => destruct c
  end; [apply some_triple_inv in H; lia|].
  unfold read_samples_data in H. rewrite Hz in H.
  change (negb (0 =? 0)) with false in H. cbv beta iota in H.
  match type of H with
  | match ?m with _ => _ end = _ =>
      destruct m as [[[r|r] sf]|] eqn:Ed; [| |discriminate]
  end.
  { apply bind_some in Ed. destruct Ed as (r1 & s1 & _ & Ed).
    apply ret_some in Ed. destruct Ed as [Ed _]. discriminate. }
  apply bind_some in Ed. destruct Ed as (r1 & s1 & Hr & Ed).
  apply ret_some in Ed. destruct Ed as [Ed _]. injection Ed as ->.
  apply some_triple_inv in H. destruct H as (_ & <- & _).
  raw_simpl.
  apply read_gains_plain_region in Hr.
  destruct Hr as ((Enp & Eng & Ens & _) & Hd).
  rewrite Enp in Hp. rewrite Eng in Hg.
  assert (Hd' : sum_derived r1 g p).
  { apply Hd; [|rewrite Ek; exact H0|exact Hw].
    rewrite Z2Nat.id by lia. lia. }
  exact Hd'.
Qed.




(** ** The differential coder *)

Lemma int32_idem (x : Z) : int32 (int32 x) = int32 x.
Proof. apply int32_small. apply int32_range. Qed.

Lemma int32_add_sub (x y : Z) : int32 (int32 (x - y) + y) = int32 x.
Proof.
  unfold int32, to_int. change (2 ^ (32 - 1)) with (2 ^ 31).
  f_equal.
  replace ((x - y + 2 ^ 31) mod 2 ^ 32 - 2 ^ 31 + y + 2 ^ 31)
    with ((x - y + 2 ^ 31) mod 2 ^ 32 + y) by ring.
  rewrite Zplus_mod_idemp_l. f_equal. ring.
Qed.

Lemma uint32_int32 (x : Z) : uint32 (int32 x) = uint32 x.
Proof.
  unfold uint32, int32, to_uint, to_int. change (2 ^ (32 - 1)) with (2 ^ 31).
  rewrite Zminus_mod_idemp_l.
  replace (x + 2 ^ 31 - 2 ^ 31) with x by ring. reflexivity.
Qed.

Lemma adcsum_differential_from_roundtrip (l : list Z) :
  forall (prev : Z) (rest : list wire),
    int32 prev = prev ->
    get_adcsum_differential_from prev (length l)
      (put_adcsum_differential_from prev l ++ rest)
    = Some (map uint32 l, rest).
Proof.
  induction l as [|a l IH]; intros prev rest Hprev; [reflexivity|].
  cbn [length put_adcsum_differential_from get_adcsum_differential_from
       put_scount32 app map].
  unfold bind at 1. cbn [get_scount32].
  rewrite !int32_idem, int32_add_sub, int32_idem.
  unfold bind at 1. rewrite IH by apply int32_idem.
  unfold ret. now rewrite uint32_int32.
Qed.

(** The differential coder gives back the amplitudes, each as a 32-bit
    unsigned value. *)
Lemma adcsum_differential_roundtrip (l : list Z) (rest : list wire) :
  get_adcsum_differential (zlength l) (put_adcsum_differential l ++ rest)
  = Some (map uint32 l, rest).
Proof.
  unfold get_adcsum_differential, put_adcsum_differential, zlength.
  rewrite Nat2Z.id. now apply adcsum_differential_from_roundtrip.
Qed.

Lemma adcsample_differential_from_roundtrip (l : list Z) :
  forall (prev : Z) (rest : list wire),
    int32 prev = prev ->
    Forall (fun a => 0 <= a < 65536) l ->
    get_adcsample_differential_from prev (length l)
      (put_adcsample_differential_from prev l ++ rest)
    = Some (l, rest).
Proof.
  induction l as [|a l IH]; intros prev rest Hprev Hl; [reflexivity|].
  inversion Hl as [|? ? Ha Hl']; subst.
  cbn [length put_adcsample_differential_from get_adcsample_differential_from
       put_scount32 app].
  unfold bind at 1. cbn [get_scount32].
  rewrite !int32_idem, int32_add_sub.
  assert (Ea : int32 a = a) by (apply int32_small; lia).
  rewrite Ea. unfold bind at 1. rewrite IH by assumption.
  unfold ret. now rewrite uint16_small.
Qed.

(** The differential coder gives back a trace of 16-bit samples. *)
Lemma adcsample_differential_roundtrip (l : list Z) (rest : list wire) :
  Forall (fun a => 0 <= a < 65536) l ->
  get_adcsample_differential (zlength l) (put_adcsample_differential l ++ rest)
  = Some (l, rest).
Proof.
  intros Hl.
  unfold get_adcsample_differential, put_adcsample_differential, zlength.
  rewrite Nat2Z.id. now apply adcsample_differential_from_roundtrip.
Qed.

(** ** Plain mode without data reduction *)

Lemma zlength_slice {A : Type} (a : Z -> A) (k n : Z) :
  0 <= n -> zlength (slice a k (Z.to_nat n)) = n.
Proof. intros H. unfold zlength. rewrite length_slice. now apply Z2Nat.id. Qed.

Lemma put_adcsum_new (version : Z) (l : list Z) :
  3 <= version -> put_adcsum version l = put_adcsum_differential l.
Proof.
  intros H. unfold put_adcsum.
  assert (E : (version <=? 2) = false) by (apply Z.leb_gt; lia).
  now rewrite E.
Qed.

Lemma get_adcsum_new (version n : Z) :
  3 <= version -> get_adcsum version n = get_adcsum_differential n.
Proof.
  intros H. unfold get_adcsum.
  assert (E : (version <? 3) = false) by (apply Z.ltb_ge; lia).
  now rewrite E.
Qed.

Lemma adcsum_roundtrip (version : Z) (l : list Z) (rest : list wire) :
  3 <= version ->
  get_adcsum version (zlength l) (put_adcsum version l ++ rest)
  = Some (map uint32 l, rest).
Proof.
  intros H. rewrite put_adcsum_new, get_adcsum_new by assumption.
  apply adcsum_differential_roundtrip.
Qed.

(** What is written in plain mode is read to its end. *)
Lemma plain_gains_read (raw : AdcData) (version : Z) (n : nat) :
  forall (i : Z) (rawr : AdcData) (rest : list wire),
    3 <= version ->
    0 <= num_pixels raw ->
    num_pixels rawr = num_pixels raw ->
    exists r',
      read_plain_gains version n i rawr
        (write_plain_gains raw version n i ++ rest)
      = Some (r', rest).
Proof.
  induction n as [|n IH]; intros i rawr rest Hv Hnp Hr.
  - exists rawr. reflexivity.
  - cbn [read_plain_gains write_plain_gains]. rewrite <- app_assoc.
    unfold bind at 1. rewrite Hr.
    replace (get_adcsum version (num_pixels raw))
      with (get_adcsum version
              (zlength (slice (adc_sum raw i) 0 (Z.to_nat (num_pixels raw)))))
      by (now rewrite zlength_slice).
    rewrite adcsum_roundtrip by assumption.
    apply IH; assumption.
Qed.

(** ** Flag words *)

Lemma bit_testbit (x j : Z) : 0 <= j -> bit x j = Z.testbit x j.
Proof.
  intros Hj. unfold bit. rewrite Z.shiftl_1_l.
  destruct (Z.testbit x j) eqn:E.
  - apply negb_true_iff, Z.eqb_neq. intros H0.
    assert (Hb : Z.testbit (Z.land x (2 ^ j)) j = true).
    { rewrite Z.land_spec, E, Z.pow2_bits_true by assumption. reflexivity. }
    rewrite H0, Z.bits_0 in Hb. discriminate.
  - apply negb_false_iff, Z.eqb_eq. apply Z.bits_inj'. intros i Hi.
    rewrite Z.land_spec, Z.bits_0, Z.pow2_bits_eqb by assumption.
    destruct (Z.eqb_spec j i) as [->|Hne].
    + now rewrite E.
    + apply andb_false_r.
Qed.

Lemma bit_set_bit (x j i : Z) :
  0 <= j -> 0 <= i -> bit (set_bit x j) i = bit x i || (j =? i).
Proof.
  intros Hj Hi. rewrite !bit_testbit by assumption. unfold set_bit.
  rewrite Z.lor_spec, Z.shiftl_1_l, Z.pow2_bits_eqb by assumption.
  reflexivity.
Qed.

Lemma bit_high (x j i : Z) : 0 <= x < 2 ^ j -> 0 <= j <= i -> bit x i = false.
Proof.
  intros Hx Hi. rewrite bit_testbit by lia.
  destruct (Z.eq_dec x 0) as [->|Hne]; [apply Z.bits_0|].
  apply Z.bits_above_log2; [lia|].
  apply Z.lt_le_trans with j; [|lia]. apply Z.log2_lt_pow2; lia.
Qed.

Lemma set_bit_bound (x j : Z) :
  0 <= x < 2 ^ j -> 0 <= j -> 0 <= set_bit x j < 2 ^ (j + 1).
Proof.
  intros Hx Hj. unfold set_bit. rewrite lor_shiftl_add by assumption.
  rewrite Z.pow_add_r by lia. lia.
Qed.

Lemma count_flags_ext (x y : Z) (n : nat) :
  forall j0, (forall i, j0 <= i < j0 + Z.of_nat n -> bit x i = bit y i) ->
             count_flags x n j0 = count_flags y n j0.
Proof.
  induction n as [|n IH]; intros j0 H; [reflexivity|].
  cbn [count_flags]. rewrite (H j0) by lia. f_equal.
  apply IH. intros i Hi. apply H. lia.
Qed.

Lemma count_flags_snoc (x : Z) (n : nat) :
  forall j0, count_flags x (S n) j0
             = count_flags x n j0
               + (if bit x (j0 + Z.of_nat n) then 1 else 0).
Proof.
  induction n as [|n IH]; intros j0.
  - cbn [count_flags]. replace (j0 + Z.of_nat 0) with j0 by lia.
    destruct (bit x j0); reflexivity.
  - cbn [count_flags] in *. rewrite IH.
    replace (j0 + 1 + Z.of_nat n) with (j0 + Z.of_nat (S n)) by lia.
    destruct (bit x j0), (bit x (j0 + Z.of_nat (S n))); lia.
Qed.

(** Counting the bits of a flag word once one more bit has been set or
    left clear. *)
Lemma count_flags_next (x j : Z) (set : bool) :
  0 <= x < 2 ^ j -> 0 <= j ->
  count_flags (if set then set_bit x j else x) (Z.to_nat (j + 1)) 0
  = count_flags x (Z.to_nat j) 0 + (if set then 1 else 0).
Proof.
  intros Hx Hj. replace (Z.to_nat (j + 1)) with (S (Z.to_nat j)) by lia.
  rewrite count_flags_snoc. rewrite Z2Nat.id by assumption.
  rewrite Z.add_0_l.
  destruct set.
  - rewrite bit_set_bit, Z.eqb_refl, orb_true_r by lia.
    f_equal. apply count_flags_ext. intros i Hi.
    rewrite bit_set_bit by lia.
    assert (E : (j =? i) = false) by (apply Z.eqb_neq; lia).
    rewrite E. apply orb_false_r.
  - rewrite (bit_high x j j) by lia. reflexivity.
Qed.

(** ** Bitmap mode without data reduction *)

(** The writer's loop, one group at a time: the [m] pixels that complete
    the group are collected and written, and the loop goes on with the
    next group. *)
Lemma group_loop_chunk (step : group -> Z -> Z -> group)
    (flush : group -> Z -> Z -> list wire) (m : nat) :
  forall (n : nat) (j k : Z) (g : group),
    (1 <= m <= n)%nat ->
    j + Z.of_nat m = 16 \/ n = m ->
    j + Z.of_nat m <= 16 ->
    group_loop step flush n j k g
    = flush (group_accum step m j k g) (j + Z.of_nat m) (k + Z.of_nat m)
        ++ group_loop step flush (n - m) 0 (k + Z.of_nat m) group0.
Proof.
  induction m as [|m IH]; intros n j k g Hm Hend Hj; [lia|].
  destruct n as [|n]; [lia|].
  cbn [group_loop group_accum].
  destruct m as [|m].
  - (* the last pixel of the group *)
    assert (E : ((j + 1 =? 16) || Nat.eqb n 0) = true).
    { apply orb_true_iff. destruct Hend as [H|H].
      - left. apply Z.eqb_eq. lia.
      - right. apply Nat.eqb_eq. lia. }
    rewrite E. cbn [group_accum].
    replace (j + Z.of_nat 1) with (j + 1) by lia.
    replace (k + Z.of_nat 1) with (k + 1) by lia.
    replace (S n - 1)%nat with n by lia. reflexivity.
  - assert (E : ((j + 1 =? 16) || Nat.eqb n 0) = false).
    { apply orb_false_iff. split.
      - apply Z.eqb_neq. lia.
      - apply Nat.eqb_neq. lia. }
    rewrite E. rewrite (IH n (j + 1) (k + 1)) by lia.
    replace (j + 1 + Z.of_nat (S m)) with (j + Z.of_nat (S (S m))) by lia.
    replace (k + 1 + Z.of_nat (S m)) with (k + Z.of_nat (S (S m))) by lia.
    replace (S n - S (S m))%nat with (n - S m)%nat by lia. reflexivity.
Qed.

(** The flag word and the two vectors of a group go together. *)
Lemma group_accum_z1_r0 (raw : AdcData) (m : nat) :
  forall (j k : Z) (g : group),
    0 <= j ->
    0 <= zbits g < 2 ^ j ->
    zlength (hgval g) = count_flags (zbits g) (Z.to_nat j) 0 ->
    zlength (lgval g) = zlength (hgval g) ->
    let g' := group_accum (step_z1_r0 raw) m j k g in
    0 <= zbits g' < 2 ^ (j + Z.of_nat m)
    /\ zlength (hgval g') = count_flags (zbits g') (Z.to_nat (j + Z.of_nat m)) 0
    /\ zlength (lgval g') = zlength (hgval g').
Proof.
  induction m as [|m IH]; intros j k g Hj Hz Hh Hl.
  - cbn [group_accum]. rewrite Z.add_0_r. auto.
  - cbn [group_accum].
    replace (j + Z.of_nat (S m)) with (j + 1 + Z.of_nat m) by lia.
    apply IH; [lia| | |]; unfold step_z1_r0, with_zbit;
      destruct (negb (significant raw k =? 0)); cbn [zbits hgval lgval].
    + now apply set_bit_bound.
    + rewrite Z.pow_add_r by lia. lia.
    + rewrite (count_flags_next (zbits g) j true) by assumption.
      unfold zlength in *. rewrite length_app. cbn [length]. lia.
    + rewrite (count_flags_next (zbits g) j false) by assumption. lia.
    + unfold zlength in *. rewrite !length_app. cbn [length]. lia.
    + exact Hl.
Qed.

Lemma get_flags_put (x : Z) (rest : list wire) :
  0 <= x < 65536 ->
  get_flags (put_vector_of_uint16 [x] ++ rest) = Some (x, rest).
Proof.
  intros H. unfold get_flags, get_vector_of_uint16, bind.
  change (Z.to_nat 1) with (length [x]).
  rewrite get_vector_of_uint16_put. cbn [map nth]. unfold ret.
  now rewrite uint16_small.
Qed.

Lemma get_lg_put (raw rawr : AdcData) (version : Z) (lgval0 : Z -> Z)
    (l : list Z) (rest : list wire) :
  3 <= version -> num_gains rawr = num_gains raw ->
  exists l',
    get_lg version lgval0 (num_gains rawr) (zlength l)
      (put_lg raw version l ++ rest)
    = Some (l', rest).
Proof.
  intros Hv Hg. unfold get_lg, put_lg. rewrite Hg.
  destruct (num_gains raw >=? 2).
  - eexists. now apply adcsum_roundtrip.
  - eexists. reflexivity.
Qed.

(** One group written in bitmap mode without data reduction is read to
    its end. *)
Lemma read_group_z1_r0_written (raw rawr : AdcData) (version so oo : Z)
    (lgval0 : Z -> Z) (g : group) (k k' c : Z) (rest : list wire) :
  3 <= version -> 0 <= c <= 16 ->
  num_gains rawr = num_gains raw -> data_red_mode rawr = 0 ->
  0 <= zbits g < 2 ^ c ->
  zlength (hgval g) = count_flags (zbits g) (Z.to_nat c) 0 ->
  zlength (lgval g) = zlength (hgval g) ->
  exists r',
    read_group_z1 version so oo lgval0 k c rawr
      (flush_z1_r0 raw version g c k' ++ rest)
    = Some (r', rest).
Proof.
  intros Hv Hc Hg Hd Hz Hh Hl.
  assert (Hz16 : 0 <= zbits g < 65536).
  { assert (2 ^ c <= 2 ^ 16) by (apply Z.pow_le_mono_r; lia).
    change (2 ^ 16) with 65536 in *. lia. }
  unfold read_group_z1, flush_z1_r0. rewrite <- app_assoc.
  unfold bind at 1. rewrite get_flags_put by assumption.
  destruct (zbits g >? 0) eqn:Ez.
  - assert (Enz : negb (zbits g =? 0) = true).
    { apply negb_true_iff, Z.eqb_neq. apply Z.gtb_lt in Ez. lia. }
    rewrite Enz, Hd. change (0 >=? 1) with false. cbv beta iota.
    unfold bind at 1. unfold ret at 1. cbv beta iota.
    rewrite <- Hh.
    destruct (zlength (hgval g) >? 0) eqn:Em.
    + rewrite <- app_assoc. unfold bind at 1.
      destruct (get_lg_put raw rawr version lgval0 (lgval g)
                  (put_adcsum version (hgval g) ++ rest) Hv Hg) as [lg Elg].
      rewrite Hl in Elg. rewrite Elg. unfold bind at 1.
      rewrite adcsum_roundtrip by assumption.
      change (0 >? 0) with false. cbv beta iota.
      unfold bind at 1. unfold ret at 1. eexists. reflexivity.
    + (* a flag word of which no bit counts: nothing follows it *)
      assert (Eh : hgval g = []).
      { destruct (hgval g); [reflexivity|].
        unfold zlength in Em. cbn [length] in Em.
        rewrite Z.gtb_ltb in Em. apply Z.ltb_ge in Em. lia. }
      assert (El : lgval g = []).
      { destruct (lgval g); [reflexivity|].
        rewrite Eh in Hl. unfold zlength in Hl. cbn [length] in Hl. lia. }
      rewrite Eh, El. unfold put_lg, put_adcsum.
      destruct (num_gains raw >=? 2), (version <=? 2);
        eexists; reflexivity.
  - assert (Enz : negb (zbits g =? 0) = false).
    { apply negb_false_iff, Z.eqb_eq.
      rewrite Z.gtb_ltb in Ez. apply Z.ltb_ge in Ez. lia. }
    rewrite Enz. eexists. reflexivity.
Qed.

(** What is written in bitmap mode without data reduction is read to its
    end, group by group. *)
Lemma bitmap_groups_read (raw : AdcData) (version so oo : Z)
    (lgval0 : Z -> Z) (fuel : nat) :
  forall (k : Z) (rawr : AdcData) (rest : list wire),
    3 <= version ->
    0 <= k <= num_pixels raw ->
    num_pixels rawr = num_pixels raw ->
    num_gains rawr = num_gains raw ->
    data_red_mode rawr = 0 ->
    (Z.to_nat (num_pixels raw - k) <= fuel)%nat ->
    exists r',
      read_groups (read_group_z1 version so oo lgval0) fuel k rawr
        (group_loop (step_z1_r0 raw) (flush_z1_r0 raw version)
           (Z.to_nat (num_pixels raw - k)) 0 k group0 ++ rest)
      = Some (r', rest).
Proof.
  induction fuel as [|fuel IH]; intros k rawr rest Hv Hk Hnp Hng Hd Hf.
  - replace (Z.to_nat (num_pixels raw - k)) with 0%nat by lia.
    exists rawr. reflexivity.
  - cbn [read_groups]. rewrite Hnp.
    destruct (k <? num_pixels raw) eqn:Ek.
    + apply Z.ltb_lt in Ek.
      set (n := if k + 16 <=? num_pixels raw then 16 else num_pixels raw - k).
      assert (Hn : 1 <= n <= 16 /\ n <= num_pixels raw - k
                   /\ (n = 16 \/ n = num_pixels raw - k)).
      { subst n. destruct (k + 16 <=? num_pixels raw) eqn:E.
        - apply Z.leb_le in E. lia.
        - apply Z.leb_gt in E. lia. }
      destruct Hn as (Hn1 & Hn2 & Hn3).
      rewrite (group_loop_chunk (step_z1_r0 raw) (flush_z1_r0 raw version)
                 (Z.to_nat n) (Z.to_nat (num_pixels raw - k)) 0 k group0)
        by lia.
      rewrite Z2Nat.id by lia. rewrite Z.add_0_l.
      destruct (group_accum_z1_r0 raw (Z.to_nat n) 0 k group0) as (Hz & Hh & Hl);
        [lia|cbn [zbits group0]; change (2 ^ 0) with 1; lia
        |reflexivity|reflexivity|].
      rewrite Z2Nat.id, Z.add_0_l in Hz, Hh by lia.
      rewrite <- app_assoc. unfold bind at 1.
      destruct (read_group_z1_r0_written raw rawr version so oo lgval0
                  (group_accum (step_z1_r0 raw) (Z.to_nat n) 0 k group0)
                  k (k + n) n
                  (group_loop (step_z1_r0 raw) (flush_z1_r0 raw version)
                     (Z.to_nat (num_pixels raw - k) - Z.to_nat n) 0 (k + n)
                     group0 ++ rest))
        as [r1 Er1]; try assumption; [lia|].
      rewrite Er1.
      apply read_group_z1_header in Er1.
      destruct Er1 as (E1 & E2 & _ & E4).
      replace (Z.to_nat (num_pixels raw - k) - Z.to_nat n)%nat
        with (Z.to_nat (num_pixels raw - (k + n))) by lia.
      apply IH; try assumption; try lia; congruence.
    + apply Z.ltb_ge in Ek.
      replace (Z.to_nat (num_pixels raw - k)) with 0%nat by lia.
      exists rawr. reflexivity.
Qed.

(** ** Cameras of 40000 pixels *)


Lemma sums_flags_range (raw : AdcData) (version z d : Z) :
  2 <= version -> 0 <= z < 32 -> 0 <= d < 32 ->
  0 <= sums_flags raw version z d < 2 ^ 28.
Proof.
  intros Hv Hz Hd. rewrite sums_flags_sum by assumption.
  set (lk := if negb (list_known raw =? 0) then 1 else 0).
  assert (Hlk : 0 <= lk <= 1) by (subst lk; destruct (negb _); lia).
  pose proof (Z.mod_pos_bound (tel_id raw) 65536 ltac:(lia)).
  change (2 ^ 28) with 268435456. lia.
Qed.

Lemma sums_flags_data_red (raw : AdcData) (version z d : Z) :
  2 <= version -> 0 <= z < 32 -> 0 <= d < 32 ->
  Z.land (Z.shiftr (sums_flags raw version z d) 5) 0x1f = d.
Proof.
  intros Hv Hz Hd. rewrite sums_flags_sum by assumption.
  rewrite land_31, Z.shiftr_div_pow2 by lia. change (2 ^ 5) with 32.
  set (lk := if negb (list_known raw =? 0) then 1 else 0).
  replace (z + d * 32 + lk * 1024 + tel_id raw mod 65536 * 4096)
    with (z + (d + (lk + tel_id raw mod 65536 * 4) * 32) * 32) by ring.
  rewrite Z.div_add by lia. rewrite (Z.div_small z 32) by lia.
  rewrite Z.add_0_l, Z.mod_add by lia. apply Z.mod_small. lia.
Qed.

(** The choice of the scheme leaves the header fields alone and ends
    with one of the three schemes of the format. *)
Lemma sums_select_mode_frame (raw : AdcData) (z : Z) :
  same_header (fst (sums_select_mode raw z)) raw
  /\ threshold (fst (sums_select_mode raw z)) = threshold raw
  /\ offset_hg8 (fst (sums_select_mode raw z)) = offset_hg8 raw
  /\ scale_hg8 (fst (sums_select_mode raw z)) = scale_hg8 raw
  /\ tel_id (fst (sums_select_mode raw z)) = tel_id raw
  /\ (0 <= z <= 3 -> 0 <= snd (sums_select_mode raw z) <= 2)
  /\ (0 <= z <= 1 -> sums_select_mode raw z = (raw, z)).
Proof.
  unfold sums_select_mode, same_header.
  destruct (make_pixel_list (significant raw) (Z.to_nat (num_pixels raw)) 0
              (adc_list raw) 0) as [lst nlst].
  destruct (z =? 3) eqn:E3.
  - apply Z.eqb_eq in E3. subst z. cbn [orb].
    cbn [num_pixels set_list_size set_list_known set_adc_list].
    destruct (Z.quot (17 * nlst) 16 >? num_pixels raw);
      [|destruct (15 * nlst >? num_pixels raw)];
      cbv beta iota zeta delta [Z.eqb Pos.eqb fst snd];
      repeat split; try reflexivity; lia.
  - apply Z.eqb_neq in E3. cbn [orb].
    destruct ((z =? 2) && (list_known raw =? 0)) eqn:E2.
    + apply andb_true_iff in E2. destruct E2 as [E2 _].
      apply Z.eqb_eq in E2. subst z.
      cbv beta iota zeta delta [Z.eqb Pos.eqb fst snd].
      repeat split; try reflexivity; lia.
    + cbv beta iota zeta.
      destruct (z =? 2) eqn:Ez2.
      * apply Z.eqb_eq in Ez2. subst z. cbn [fst snd].
        repeat split; try reflexivity; lia.
      * apply Z.eqb_neq in Ez2. apply Z.eqb_neq in E3. rewrite E3.
        cbn [fst snd]. repeat split; try reflexivity; lia.
Qed.






Lemma write_sums_body_low (adc_list_l0 : Z -> Z) (raw : AdcData) (z : Z) :
  z = 0 \/ z = 1 ->
  write_sums_body adc_list_l0 raw 3 z 0
  = Some (put_long (num_pixels raw) ++ put_short (num_gains raw)
            ++ low_mode_data raw 3 z).
Proof.
  intros [-> | ->]; reflexivity.
Qed.

(** The header of a version-3 record: the modes come from the
    identifier, the counts from the body. *)
Lemma sums_declared_v3 (flags np ng : Z) (s : list wire) (raw0 : AdcData) :
  exists h,
    sums_declared
      (Item IO_TYPE_HESS_TELADCSUM 3 flags (put_long np ++ put_short ng ++ s))
      raw0 = Some (h, s)
    /\ zero_sup_mode h = Z.land (uint32 flags) 0x1f
    /\ data_red_mode h = Z.land (Z.shiftr (uint32 flags) 5) 0x1f
    /\ num_pixels h = int32 (uint32 np)
    /\ num_gains h = int16 (uint16 ng).
Proof.
  eexists. split.
  - unfold sums_declared, read_sums_header.
    cbv beta iota zeta delta [it_version it_ident it_body].
    change (3 >=? 4) with false. change (3 =? 0) with false.
    change (3 =? 1) with false. cbv beta iota zeta delta [andb].
    unfold bind, ret, put_long, put_short.
    cbv beta iota zeta delta [app get_long get_short]. reflexivity.
  - repeat split.
Qed.

(** A version-3 record in plain or bitmap mode without data reduction is
    read to its end, and the pixel count is the one of the body. *)
Lemma read_sums_low (H_MAX_PIX : Z) (lgval0 : Z -> Z) (raw raw0 : AdcData)
    (z : Z) (rest : IO_BUFFER) :
  z = 0 \/ z = 1 ->
  0 <= num_pixels raw <= H_MAX_PIX -> num_pixels raw < 2 ^ 31 ->
  1 <= num_gains raw <= 2 ->
  exists r,
    read_hess_teladc_sums H_MAX_PIX lgval0
      (Item IO_TYPE_HESS_TELADCSUM 3 (sums_flags raw 3 z 0)
         (put_long (num_pixels raw) ++ put_short (num_gains raw)
            ++ low_mode_data raw 3 z) :: rest) raw0
    = Some (0, r, rest)
    /\ num_pixels r = num_pixels raw.
Proof.
  intros Hz Hnp Hnp31 Hng.
  assert (Hz32 : 0 <= z < 32) by lia.
  destruct (sums_declared_v3 (sums_flags raw 3 z 0) (num_pixels raw)
              (num_gains raw) (low_mode_data raw 3 z) raw0)
    as (h & Eh & Ez & Ed & En & Eg).
  pose proof (sums_flags_range raw 3 z 0 ltac:(lia) Hz32 ltac:(lia)) as Hf.
  assert (Hf32 : 0 <= sums_flags raw 3 z 0 < 2 ^ 32).
  { change (2 ^ 28) with 268435456 in Hf.
    change (2 ^ 32) with 4294967296. lia. }
  rewrite (uint32_small _ Hf32) in Ez, Ed.
  rewrite sums_flags_zero_sup in Ez by lia.
  rewrite sums_flags_data_red in Ed by lia.
  rewrite int32_uint32 in En by lia.
  rewrite int16_uint16 in Eg by (change (2 ^ 15) with 32768; lia).
  rewrite (read_sums_accepted H_MAX_PIX lgval0
             (Item IO_TYPE_HESS_TELADCSUM 3 (sums_flags raw 3 z 0)
                (put_long (num_pixels raw) ++ put_short (num_gains raw)
                   ++ low_mode_data raw 3 z))
             rest raw0 h (low_mode_data raw 3 z) eq_refl eq_refl Eh).
  2:{ unfold sums_invalid. rewrite En, Eg, Ez, Ed.
      assert (E1 : (num_pixels raw >? H_MAX_PIX) = false)
        by (rewrite Z.gtb_ltb; apply Z.ltb_ge; lia).
      assert (E2 : (num_gains raw >? H_MAX_GAINS) = false)
        by (rewrite Z.gtb_ltb; apply Z.ltb_ge; unfold H_MAX_GAINS; lia).
      assert (E3 : (z >? 1) = false)
        by (rewrite Z.gtb_ltb; apply Z.ltb_ge; lia).
      assert (E4 : (z >? 2) = false)
        by (rewrite Z.gtb_ltb; apply Z.ltb_ge; lia).
      rewrite E1, E2, E3, E4, andb_false_r. reflexivity. }
  unfold bind at 1. rewrite read_sums_hg8_none by lia.
  cbv beta iota zeta delta [it_version].
  assert (Hzi : zero_sup_mode (init_sums h) = z) by exact Ez.
  assert (Hdi : data_red_mode (init_sums h) = 0) by exact Ed.
  assert (Hni : num_pixels (init_sums h) = num_pixels raw) by exact En.
  assert (Hgi : num_gains (init_sums h) = num_gains raw) by exact Eg.
  assert (Er : exists r,
             read_sums_data 3 1 0 lgval0 (init_sums h) (low_mode_data raw 3 z)
             = Some (r, [])).
  { unfold read_sums_data, low_mode_data. rewrite Hzi, Hdi, Hni, Hgi.
    destruct Hz as [-> | ->]; cbv beta iota zeta delta [Z.eqb Pos.eqb].
    - rewrite <- (app_nil_r (write_plain_gains raw 3 _ 0)).
      apply plain_gains_read; [lia|lia|exact Hni].
    - pose proof (bitmap_groups_read raw 3 1 0 lgval0
                    (Z.to_nat (num_pixels raw)) 0 (init_sums h) []
                    ltac:(lia) ltac:(lia) Hni Hgi Hdi) as Hb.
      rewrite Z.sub_0_r, app_nil_r in Hb. apply Hb. lia. }
  destruct Er as (r & Er). rewrite Er.
  exists (set_known r 1). split; [reflexivity|].
  apply read_sums_data_header in Er. destruct Er as (E & _).
  cbn [num_pixels set_known]. congruence.
Qed.

Lemma some_inv {A : Type} (a b : A) : Some a = Some b -> a = b.
Proof. congruence. Qed.




(** ** The lists of pixel ranges *)






(** ** Reading the traces that were written *)














(** ** The sample-mode record and its header *)







(** ** The data of the record *)










(** ** The telescope index lookup *)

Lemma set_tel_idx_loop_some (H_MAX_TEL : Z) (idx : Z -> Z) (n : nat) :
  forall (i : Z) (row row' : Z -> Z),
    0 <= i ->
    set_tel_idx_loop H_MAX_TEL idx n i row = Some row' ->
    (forall j, i <= j < i + Z.of_nat n ->
       0 <= idx j <= H_MAX_TEL /\ row (idx j) = -1 /\ row' (idx j) = j)
    /\ (forall t, (forall j, i <= j < i + Z.of_nat n -> idx j <> t) ->
          row' t = row t).
Proof.
  induction n as [|n IH]; intros i row row' Hi H.
  - apply some_inv in H. subst row'. split; [intros j Hj; lia|reflexivity].
  - cbn [set_tel_idx_loop] in H.
    destruct ((idx i <? 0) || (idx i >=? H_MAX_TEL + 1)) eqn:Er;
      [discriminate|].
    apply orb_false_iff in Er. destruct Er as [Er1 Er2].
    apply Z.ltb_ge in Er1. rewrite Z.geb_leb in Er2. apply Z.leb_gt in Er2.
    destruct (negb (row (idx i) =? -1)) eqn:Ef; [discriminate|].
    apply negb_false_iff, Z.eqb_eq in Ef.
    destruct (IH (i + 1) (upd row (idx i) i) row' ltac:(lia) H) as [A B].
    assert (Hne : forall j, i + 1 <= j < i + 1 + Z.of_nat n -> idx j <> idx i).
    { intros j Hj E. destruct (A j Hj) as (_ & A2 & _).
      rewrite E, upd_same in A2. lia. }
    split.
    + intros j Hj. destruct (Z.eq_dec j i) as [->|Hji].
      * split; [lia|]. split; [exact Ef|].
        rewrite B by (intros j Hj' E; exact (Hne j Hj' E)).
        apply upd_same.
      * assert (Hj' : i + 1 <= j < i + 1 + Z.of_nat n) by lia.
        destruct (A j Hj') as (A1 & A2 & A3).
        split; [exact A1|]. split; [|exact A3].
        rewrite upd_other in A2 by (now apply Hne). exact A2.
    + intros t Ht. rewrite B by (intros j Hj; apply Ht; lia).
      apply upd_other. intros E. apply (Ht i); [lia|now symmetry].
Qed.

Lemma set_tel_idx_loop_none (H_MAX_TEL : Z) (idx : Z -> Z) (n : nat) :
  forall (i : Z) (row : Z -> Z),
    set_tel_idx_loop H_MAX_TEL idx n i row = None ->
    exists j, i <= j < i + Z.of_nat n
              /\ (idx j < 0 \/ H_MAX_TEL < idx j \/ row (idx j) <> -1
                  \/ exists j', i <= j' < j /\ idx j' = idx j).
Proof.
  induction n as [|n IH]; intros i row H; [discriminate|].
  cbn [set_tel_idx_loop] in H.
  destruct ((idx i <? 0) || (idx i >=? H_MAX_TEL + 1)) eqn:Er.
  { exists i. split; [lia|]. apply orb_true_iff in Er.
    destruct Er as [Er|Er]; [left; now apply Z.ltb_lt|right; left].
    rewrite Z.geb_leb in Er. apply Z.leb_le in Er. lia. }
  destruct (negb (row (idx i) =? -1)) eqn:Ef.
  { exists i. split; [lia|]. right. right. left.
    now apply negb_true_iff, Z.eqb_neq in Ef. }
  destruct (IH (i + 1) _ H) as (j & Hj & Hc).
  exists j. split; [lia|].
  destruct Hc as [Hc|[Hc|[Hc|(j' & Hj' & Hc)]]];
    [now left|right; now left| |].
  - destruct (Z.eq_dec (idx j) (idx i)) as [E|E].
    + right. right. right. exists i. split; [lia|now symmetry].
    + right. right. left. now rewrite upd_other in Hc.
  - right. right. right. exists j'. split; [lia|exact Hc].
Qed.

(** X1.  After [set_tel_idx] has set up the table in use with the IDs
    [idx[0..ntel-1]], whatever the table held before, [find_tel_idx]
    answers the position in that list for each of these IDs and -1 for
    every other ID; the table in use stays the same. *)
Theorem find_tel_idx_after_set (H_MAX_TEL ntel : Z) (idx : Z -> Z)
    (st st' : TelIdx) :
  set_tel_idx H_MAX_TEL ntel idx st = Some st' ->
  g_tel_idx_ref st' = g_tel_idx_ref st
  /\ (forall i, 0 <= i < ntel -> find_tel_idx H_MAX_TEL (idx i) st' = i)
  /\ (forall t, (forall i, 0 <= i < ntel -> idx i <> t) ->
        find_tel_idx H_MAX_TEL t st' = -1).
Proof.
  unfold set_tel_idx. intros H.
  destruct (set_tel_idx_loop H_MAX_TEL idx (Z.to_nat ntel) 0
              (fill (g_tel_idx st (g_tel_idx_ref st)) (H_MAX_TEL + 1) (-1)))
    as [row|] eqn:El; [|discriminate].
  apply some_inv in H. subst st'.
  destruct (set_tel_idx_loop_some _ _ _ _ _ _ (Z.le_refl 0) El) as [A B].
  split; [reflexivity|].
  unfold find_tel_idx. cbn [g_tel_idx g_tel_idx_init g_tel_idx_ref].
  rewrite !upd_same. change (1 =? 0) with false. cbv iota.
  split.
  - intros i Hi. destruct (A i ltac:(lia)) as (A1 & _ & A3).
    assert (E : ((idx i <? 0) || (idx i >=? H_MAX_TEL + 1)) = false).
    { apply orb_false_iff. split; [apply Z.ltb_ge; lia|].
      rewrite Z.geb_leb. apply Z.leb_gt. lia. }
    rewrite E. exact A3.
  - intros t Ht.
    destruct ((t <? 0) || (t >=? H_MAX_TEL + 1)) eqn:E; [reflexivity|].
    rewrite B by (intros j Hj; apply Ht; lia).
    apply orb_false_iff in E. destruct E as [E1 E2].
    apply Z.ltb_ge in E1. rewrite Z.geb_leb in E2. apply Z.leb_gt in E2.
    unfold fill.
    assert (Ei : ((0 <=? t) && (t <? H_MAX_TEL + 1)) = true).
    { apply andb_true_iff. split; [apply Z.leb_le|apply Z.ltb_lt]; lia. }
    now rewrite Ei.
Qed.

Lemma find_tel_idx_after_set_witness :
  exists st',
    set_tel_idx 16 3 three_telescopes tel_idx_start = Some st'
    /\ find_tel_idx 16 7 st' = 1
    /\ find_tel_idx 16 4 st' = -1.
Proof.
  destruct (set_tel_idx 16 3 three_telescopes tel_idx_start) as [st'|] eqn:E;
    [|vm_compute in E; discriminate].
  exists st'. split; [reflexivity|].
  destruct (find_tel_idx_after_set 16 3 three_telescopes tel_idx_start st' E)
    as (_ & A & B).
  split.
  - exact (A 1 ltac:(lia)).
  - apply B. intros i Hi.
    assert (Hc : i = 0 \/ i = 1 \/ i = 2) by lia.
    destruct Hc as [-> | [-> | ->]]; vm_compute; discriminate.
Defined.

(** X2.  [set_tel_idx] ends the program exactly when one of the [ntel]
    IDs lies outside [0, H_MAX_TEL] or occurs a second time in the
    list. *)
Theorem set_tel_idx_exits (H_MAX_TEL ntel : Z) (idx : Z -> Z) (st : TelIdx) :
  set_tel_idx H_MAX_TEL ntel idx st = None
  <-> exists j, 0 <= j < ntel
                /\ (idx j < 0 \/ H_MAX_TEL < idx j
                    \/ exists j', 0 <= j' < j /\ idx j' = idx j).
Proof.
  unfold set_tel_idx.
  destruct (set_tel_idx_loop H_MAX_TEL idx (Z.to_nat ntel) 0
              (fill (g_tel_idx st (g_tel_idx_ref st)) (H_MAX_TEL + 1) (-1)))
    as [row|] eqn:El.
  - split; [discriminate|]. intros (j & Hj & Hc). exfalso.
    destruct (set_tel_idx_loop_some _ _ _ _ _ _ (Z.le_refl 0) El) as [A _].
    destruct (A j ltac:(lia)) as (A1 & _ & A3).
    destruct Hc as [Hc|[Hc|(j' & Hj' & Hc)]]; [lia|lia|].
    destruct (A j' ltac:(lia)) as (_ & _ & A3').
    rewrite Hc, A3 in A3'. lia.
  - split; [intros _|reflexivity].
    destruct (set_tel_idx_loop_none _ _ _ _ _ El) as (j & Hj & Hc).
    exists j. split; [lia|].
    destruct Hc as [Hc|[Hc|[Hc|(j' & Hj' & Hc)]]];
      [now left|right; now left| |].
    + (* an ID within the range meets a fresh entry *)
      destruct (Z_lt_ge_dec (idx j) 0) as [Hlt|Hge]; [now left|].
      destruct (Z_lt_ge_dec H_MAX_TEL (idx j)) as [Hgt|Hle];
        [right; now left|].
      exfalso. apply Hc. unfold fill.
      assert (Ei : ((0 <=? idx j) && (idx j <? H_MAX_TEL + 1)) = true).
      { apply andb_true_iff. split; [apply Z.leb_le|apply Z.ltb_lt]; lia. }
      now rewrite Ei.
    + right. right. exists j'. split; [lia|exact Hc].
Qed.

(** X3.  The three lookup tables are independent: setting up the table
    in use changes no answer of another table, and a table that was
    never set up answers -2 whatever was done to the others. *)
Theorem tel_idx_tables_independent (H_MAX_TEL ntel b : Z) (idx : Z -> Z)
    (st st' : TelIdx) :
  set_tel_idx H_MAX_TEL ntel idx st = Some st' ->
  0 <= b < 3 -> b <> g_tel_idx_ref st ->
  (forall t, find_tel_idx H_MAX_TEL t (set_tel_idx_ref b st')
             = find_tel_idx H_MAX_TEL t (set_tel_idx_ref b st))
  /\ (g_tel_idx_init st b = 0 ->
      forall t, find_tel_idx H_MAX_TEL t (set_tel_idx_ref b st') = -2).
Proof.
  unfold set_tel_idx. intros H Hb Hne.
  destruct (set_tel_idx_loop H_MAX_TEL idx (Z.to_nat ntel) 0
              (fill (g_tel_idx st (g_tel_idx_ref st)) (H_MAX_TEL + 1) (-1)))
    as [row|]; [|discriminate].
  apply some_inv in H. subst st'.
  unfold set_tel_idx_ref, find_tel_idx.
  assert (E : ((b >=? 0) && (b <? 3)) = true).
  { apply andb_true_iff. split; [apply Z.geb_le|apply Z.ltb_lt]; lia. }
  rewrite E. cbn [g_tel_idx g_tel_idx_init g_tel_idx_ref].
  rewrite !upd_other by exact Hne.
  split; [reflexivity|]. intros H0 t. now rewrite H0.
Qed.

Lemma tel_idx_tables_independent_witness :
  exists st',
    set_tel_idx 16 3 three_telescopes tel_idx_start = Some st'
    /\ find_tel_idx 16 7 (set_tel_idx_ref 2 st') = -2.
Proof.
  destruct (set_tel_idx 16 3 three_telescopes tel_idx_start) as [st'|] eqn:E;
    [|vm_compute in E; discriminate].
  exists st'. split; [reflexivity|].
  destruct (tel_idx_tables_independent 16 3 2 three_telescopes tel_idx_start
              st' E ltac:(lia) ltac:(vm_compute; discriminate)) as [_ B].
  apply B. reflexivity.
Defined.

(** ** Resetting the raw data *)

Lemma reset_on_refl (raw : AdcData) : reset_on (fun _ _ => False) raw raw.
Proof.
  unfold reset_on. split; [repeat split|].
  split; [intros g p []|]. split; [intros g p H; exact H|].
  split; [intros p H; exact H|]. split; [intros g p _; repeat split|].
  intros p _. reflexivity.
Qed.

Lemma reset_on_trans (R1 R2 : Z -> Z -> Prop) (a b c : AdcData) :
  reset_on R1 a b -> reset_on R2 b c ->
  reset_on (fun g p => R1 g p \/ R2 g p) a c.
Proof.
  intros (A1 & B1 & C1 & D1 & E1 & F1) (A2 & B2 & C2 & D2 & E2 & F2).
  unfold reset_on. split; [intuition congruence|].
  split.
  { intros g p [H|H].
    - destruct (B1 g p H) as [Hc Hs]. split; [now apply C2|now apply D2].
    - now apply B2. }
  split; [intros g p H; now apply C2, C1|].
  split; [intros p H; now apply D2, D1|].
  split.
  { intros g p H.
    destruct (E1 g p ltac:(tauto)) as (X1 & X2 & X3).
    destruct (E2 g p ltac:(tauto)) as (Y1 & Y2 & Y3).
    repeat split; congruence. }
  intros p H. rewrite F2, F1; [reflexivity| |]; intros g Hg; apply (H g); tauto.
Qed.

Lemma reset_on_ext (R R' : Z -> Z -> Prop) (a b : AdcData) :
  (forall g p, R g p <-> R' g p) -> reset_on R a b -> reset_on R' a b.
Proof.
  intros HR (A & B & C & D & E & F). unfold reset_on.
  split; [exact A|]. split; [intros g p H; apply B, HR, H|].
  split; [exact C|]. split; [exact D|].
  split; [intros g p H; apply E; intros H'; apply H, HR, H'|].
  intros p H. apply F. intros g Hg. apply (H g), HR, Hg.
Qed.

Lemma adc_reset_pixel_on (igain ipix : Z) (raw : AdcData) :
  reset_on (fun g p => g = igain /\ p = ipix) raw
    (adc_reset_pixel igain ipix raw).
Proof.
  unfold reset_on, adc_reset_pixel, channel_clear. raw_simpl.
  split; [repeat split|].
  split.
  { intros g p [-> ->]. rewrite !upd2_same, upd_same.
    repeat split. intros i Hi. unfold fill.
    assert (E : ((0 <=? i) && (i <? num_samples raw)) = true).
    { apply andb_true_iff. split; [apply Z.leb_le|apply Z.ltb_lt]; lia. }
    now rewrite E. }
  split.
  { intros g p (H1 & H2 & H3).
    destruct (Z.eq_dec g igain) as [->|Hg];
      [destruct (Z.eq_dec p ipix) as [->|Hp]|].
    - rewrite !upd2_same. repeat split. intros i Hi. unfold fill.
      destruct ((0 <=? i) && (i <? num_samples raw)); [reflexivity|].
      now apply H3.
    - rewrite !upd2_other by tauto. repeat split; assumption.
    - rewrite !upd2_other by tauto. repeat split; assumption. }
  split.
  { intros p H. destruct (Z.eq_dec p ipix) as [->|Hp];
      [apply upd_same|now rewrite upd_other]. }
  split.
  { intros g p H. rewrite !upd2_other by exact H. repeat split. }
  intros p H. apply upd_other. intros ->. apply (H igain). tauto.
Qed.

Lemma adc_reset_pixels_on (igain : Z) (n : nat) :
  forall (ipix : Z) (raw : AdcData),
    reset_on (fun g p => g = igain /\ ipix <= p < ipix + Z.of_nat n) raw
      (adc_reset_pixels igain n ipix raw).
Proof.
  induction n as [|n IH]; intros ipix raw.
  - eapply reset_on_ext; [|apply reset_on_refl].
    intros g p. cbv beta. split; [tauto|]. intros [_ H]. lia.
  - cbn [adc_reset_pixels].
    eapply reset_on_ext;
      [|exact (reset_on_trans _ _ _ _ _ (adc_reset_pixel_on igain ipix raw)
                 (IH (ipix + 1) (adc_reset_pixel igain ipix raw)))].
    intros g p. cbv beta. split.
    + intros [[-> ->]|[-> H]]; (split; [reflexivity|lia]).
    + intros [-> H]. destruct (Z.eq_dec p ipix) as [->|Hne];
        [left; tauto|right; split; [reflexivity|lia]].
Qed.

Lemma adc_reset_gains_on (np : Z) (n : nat) :
  forall (igain : Z) (raw : AdcData),
    num_pixels raw = np ->
    reset_on (fun g p => igain <= g < igain + Z.of_nat n
                         /\ 0 <= p < 0 + Z.of_nat (Z.to_nat np))
      raw (adc_reset_gains n igain raw).
Proof.
  induction n as [|n IH]; intros igain raw Hnp.
  - eapply reset_on_ext; [|apply reset_on_refl].
    intros g p. cbv beta. split; [tauto|]. intros [H _]. lia.
  - cbn [adc_reset_gains]. rewrite Hnp.
    pose proof (adc_reset_pixels_on igain (Z.to_nat np) 0 raw) as H1.
    assert (Hnp1 : num_pixels (adc_reset_pixels igain (Z.to_nat np) 0 raw) = np).
    { destruct H1 as ((_ & _ & E & _) & _). congruence. }
    eapply reset_on_ext;
      [|exact (reset_on_trans _ _ _ _ _ H1 (IH (igain + 1) _ Hnp1))].
    intros g p. cbv beta. split.
    + intros [[-> H]|[H1' H2]]; (split; [lia|assumption]).
    + intros [H1' H2]. destruct (Z.eq_dec g igain) as [->|Hne];
        [left; tauto|right; split; [lia|assumption]].
Qed.

Lemma adc_reset_on (raw : AdcData) :
  known (adc_reset raw) = 0
  /\ list_known (adc_reset raw) = 0
  /\ list_size (adc_reset raw) = 0
  /\ reset_on (fun g p => 0 <= g < num_gains raw /\ 0 <= p < num_pixels raw)
       (set_list_size (set_list_known (set_known raw 0) 0) 0)
       (adc_reset raw).
Proof.
  unfold adc_reset.
  set (r0 := set_list_size (set_list_known (set_known raw 0) 0) 0).
  assert (Hnp : num_pixels r0 = num_pixels raw) by reflexivity.
  change (num_gains r0) with (num_gains raw).
  pose proof (adc_reset_gains_on (num_pixels raw) (Z.to_nat (num_gains raw))
                0 r0 Hnp) as H.
  assert (H' : reset_on
                 (fun g p => 0 <= g < num_gains raw /\ 0 <= p < num_pixels raw)
                 r0 (adc_reset_gains (Z.to_nat (num_gains raw)) 0 r0)).
  { eapply reset_on_ext; [|exact H]. intros g p. cbv beta. lia. }
  destruct H' as ((A1 & A2 & A3 & A4 & A5 & A6 & A7 & A8 & A9) & Hrest).
  split; [exact A1|]. split; [exact A8|]. split; [exact A9|].
  split; [|exact Hrest]. repeat split; assumption.
Qed.

(** X4.  [adc_reset] marks the structure as holding no data and no pixel
    list and keeps the counts; for every gain and pixel within the
    counts the sum, the [num_samples] samples, [adc_known] and the
    significance are zero afterwards, and what lies beyond the counts
    is left as it was (the significance of all pixels when the number of
    gains is not positive). *)
Theorem adc_reset_clears (raw : AdcData) :
  known (adc_reset raw) = 0
  /\ list_known (adc_reset raw) = 0
  /\ list_size (adc_reset raw) = 0
  /\ num_pixels (adc_reset raw) = num_pixels raw
  /\ num_gains (adc_reset raw) = num_gains raw
  /\ num_samples (adc_reset raw) = num_samples raw
  /\ (forall g p, 0 <= g < num_gains raw -> 0 <= p < num_pixels raw ->
        channel_clear (adc_reset raw) g p
        /\ significant (adc_reset raw) p = 0)
  /\ (forall g p, ~ (0 <= g < num_gains raw /\ 0 <= p < num_pixels raw) ->
        adc_known (adc_reset raw) g p = adc_known raw g p
        /\ adc_sum (adc_reset raw) g p = adc_sum raw g p
        /\ adc_sample (adc_reset raw) g p = adc_sample raw g p)
  /\ (forall p, ~ (0 < num_gains raw /\ 0 <= p < num_pixels raw) ->
        significant (adc_reset raw) p = significant raw p).
Proof.
  destruct (adc_reset_on raw)
    as (K1 & K2 & K3 & (_ & _ & A3 & A4 & A5 & _) & B & _ & _ & E & F).
  split; [exact K1|]. split; [exact K2|]. split; [exact K3|].
  split; [exact A3|]. split; [exact A4|]. split; [exact A5|].
  split; [intros g p Hg Hp; apply B; lia|].
  split.
  - intros g p H. apply (E g p). exact H.
  - intros p H. apply (F p). intros g Hg. lia.
Qed.

(** X5.  The way [read_hess_televent] reads samples that no sums
    precede: when a sample-mode record without zero suppression is read
    with [RAWSUM_FLAG] into a structure that [adc_reset] has cleared,
    and the counts of the record do not exceed the counts the structure
    had when it was cleared, every pixel and gain of the record gets the
    sum of its trace as its sum, marked as known. *)
Theorem reset_then_read_samples (H_MAX_PIX H_MAX_SLICES what : Z)
    (it : item) (rest iobuf' : IO_BUFFER) (raw raw' : AdcData) :
  read_hess_teladc_samples H_MAX_PIX H_MAX_SLICES what (it :: rest)
    (adc_reset raw) = Some (0, raw', iobuf') ->
  Z.land (uint32 (it_ident it)) 0x1f = 0 ->
  rawsum_wanted what = true ->
  num_pixels raw' <= num_pixels raw ->
  num_gains raw' <= num_gains raw ->
  forall g p, 0 <= g < num_gains raw' -> 0 <= p < num_pixels raw' ->
    adc_sum raw' g p = trace_sum raw' g p
    /\ Z.land (adc_known raw' g p) 1 = 1.
Proof.
  intros H Hz Hw Hnp Hng g p Hg Hp.
  destruct (adc_reset_on raw) as (_ & _ & _ & _ & B & _).
  destruct (B g p ltac:(lia)) as [(Hk & _) _].
  exact (read_samples_plain_derives _ _ _ _ _ _ _ _ H Hz Hw g p Hg Hp Hk).
Qed.

Lemma reset_then_read_samples_witness :
  exists raw',
    read_hess_teladc_samples 960 128 RAWSUM_FLAG [short_trace_record]
      (adc_reset stale_pixel) = Some (0, raw', [])
    /\ adc_sum stale_pixel 0 0 = 77
    /\ adc_sum raw' 0 0 = 6.
Proof.
  destruct (read_hess_teladc_samples 960 128 RAWSUM_FLAG [short_trace_record]
              (adc_reset stale_pixel)) as [[[rc r] b]|] eqn:E;
    [|vm_compute in E; discriminate].
  pose proof E as E'. vm_compute in E'. apply some_triple_inv in E'.
  destruct E' as (Hrc & Hr & Hb). subst rc b.
  assert (Hnp : num_pixels r = 1) by (rewrite <- Hr; reflexivity).
  assert (Hng : num_gains r = 1) by (rewrite <- Hr; reflexivity).
  assert (Ht : trace_sum r 0 0 = 6) by (rewrite <- Hr; reflexivity).
  exists r. split; [reflexivity|]. split; [reflexivity|].
  rewrite <- Ht.
  apply (reset_then_read_samples 960 128 RAWSUM_FLAG short_trace_record []
           [] stale_pixel r E);
    [reflexivity|reflexivity|rewrite Hnp; vm_compute; discriminate
    |rewrite Hng; vm_compute; discriminate|rewrite Hng; lia|rewrite Hnp; lia].
Defined.

(** ** Vectors of the primitive codec *)

Lemma int32_of_uint32 (x : Z) : int32 (uint32 x) = int32 x.
Proof.
  unfold int32, uint32, to_int, to_uint. change (2 ^ (32 - 1)) with (2 ^ 31).
  now rewrite Zplus_mod_idemp_l.
Qed.

Lemma int16_of_uint16 (x : Z) : int16 (uint16 x) = int16 x.
Proof.
  unfold int16, uint16, to_int, to_uint. change (2 ^ (16 - 1)) with (2 ^ 15).
  now rewrite Zplus_mod_idemp_l.
Qed.

Lemma get_vector_map {A : Type} (g : get A) (enc : Z -> wire) (dec : Z -> A) :
  (forall v s, g (enc v :: s) = Some (dec v, s)) ->
  forall (l : list Z) (rest : list wire),
    get_vector g (length l) (map enc l ++ rest) = Some (map dec l, rest).
Proof.
  intros Hg. induction l as [|v l IH]; intros rest; [reflexivity|].
  cbn [length get_vector map app]. unfold bind at 1. rewrite Hg.
  unfold bind at 1. rewrite IH. reflexivity.
Qed.

Lemma map_slice_id {A : Type} (f : A -> A) (a : Z -> A) (n : nat) :
  forall k, (forall i, k <= i < k + Z.of_nat n -> f (a i) = a i) ->
            map f (slice a k n) = slice a k n.
Proof.
  induction n as [|n IH]; intros k H; [reflexivity|].
  cbn [slice map]. rewrite H by lia. rewrite IH; [reflexivity|].
  intros i Hi. apply H. lia.
Qed.

(** A vector of [n] C [int]s comes back as it was written, as 32-bit
    fields and as variable-length fields; as 16-bit fields when the
    elements have 16 bits. *)
Lemma get_vector_of_int32_put (a : Z -> Z) (n : Z) (rest : list wire) :
  (forall i, 0 <= i < n -> is_int (a i)) ->
  get_vector_of_int32 n (put_vector_of_int32 (slice a 0 (Z.to_nat n)) ++ rest)
  = Some (slice a 0 (Z.to_nat n), rest).
Proof.
  intros Ha. unfold get_vector_of_int32, put_vector_of_int32.
  rewrite <- (length_slice (Z.to_nat n) a 0) at 1.
  rewrite (get_vector_map get_int32 (fun v => W32 (uint32 v))
             (fun v => int32 (uint32 v))) by reflexivity.
  rewrite map_slice_id; [reflexivity|].
  intros i Hi. apply int32_uint32. apply Ha. lia.
Qed.

Lemma get_vector_of_int_scount_put (a : Z -> Z) (n : Z) (rest : list wire) :
  (forall i, 0 <= i < n -> is_int (a i)) ->
  get_vector_of_int_scount n
    (put_vector_of_int_scount (slice a 0 (Z.to_nat n)) ++ rest)
  = Some (slice a 0 (Z.to_nat n), rest).
Proof.
  intros Ha. unfold get_vector_of_int_scount, put_vector_of_int_scount.
  rewrite <- (length_slice (Z.to_nat n) a 0) at 1.
  rewrite (get_vector_map (v <- get_scount ;; ret (int32 v))
             (fun v => WSCount v) int32) by reflexivity.
  rewrite map_slice_id; [reflexivity|].
  intros i Hi. apply int32_small. apply Ha. lia.
Qed.

Lemma get_vector_of_int_put (a : Z -> Z) (n : Z) (rest : list wire) :
  (forall i, 0 <= i < n -> - 2 ^ 15 <= a i < 2 ^ 15) ->
  get_vector_of_int n (put_vector_of_int (slice a 0 (Z.to_nat n)) ++ rest)
  = Some (slice a 0 (Z.to_nat n), rest).
Proof.
  intros Ha. unfold get_vector_of_int, put_vector_of_int.
  rewrite <- (length_slice (Z.to_nat n) a 0) at 1.
  rewrite (get_vector_map get_short (fun v => W16 (uint16 v))
             (fun v => int16 (uint16 v))) by reflexivity.
  rewrite map_slice_id; [reflexivity|].
  intros i Hi. apply int16_uint16. apply Ha. lia.
Qed.

Lemma get_int32_put (v : Z) (rest : list wire) :
  is_int v -> get_int32 (put_int32 v ++ rest) = Some (v, rest).
Proof.
  intros H. unfold get_int32, put_int32. cbn [app].
  now rewrite int32_uint32.
Qed.

(** What a stored vector leaves of the array. *)
Lemma store_slice_at (a b : Z -> Z) (n i : Z) :
  store a 0 (slice b 0 (Z.to_nat n)) i
  = if (0 <=? i) && (i <? n) then b i else a i.
Proof.
  destruct ((0 <=? i) && (i <? n)) eqn:E.
  - apply andb_true_iff in E. destruct E as [E1 E2].
    apply Z.leb_le in E1. apply Z.ltb_lt in E2.
    apply store_slice. lia.
  - apply andb_false_iff in E.
    destruct (Z_lt_ge_dec i 0) as [Hlt|Hge].
    + apply store_below. lia.
    + apply store_above. unfold zlength. rewrite length_slice.
      destruct E as [E|E]; [apply Z.leb_gt in E; lia|].
      apply Z.ltb_ge in E. lia.
Qed.

(** ** Lists of pixels *)

Lemma pixel_list_ident (t c : Z) :
  0 <= t < 1000000 -> 0 <= c <= 2146 ->
  int32 (Z.quot (int32 (t + int32 (1000000 * c))) 1000000) = c
  /\ int32 (Z.rem (int32 (t + int32 (1000000 * c))) 1000000) = t.
Proof.
  intros Ht Hc.
  assert (H31 : 2 ^ 31 = 2147483648) by reflexivity.
  rewrite (int32_small (1000000 * c)) by lia.
  rewrite (int32_small (t + 1000000 * c)) by lia.
  rewrite Z.quot_div_nonneg, Z.rem_mod_nonneg by lia.
  replace (t + 1000000 * c) with (t + c * 1000000) by ring.
  rewrite Z.div_add, Z.mod_add by lia.
  rewrite Z.div_small, Z.mod_small by lia.
  split; apply int32_small; lia.
Qed.

(** The record written for a list of pixels, whatever the version. *)
Lemma pixel_list_written (Hw Hr : Z) (pl pl0 : PixelList.t)
    (telescope telescope0 : Z) (iobuf rest : IO_BUFFER) :
  0 <= telescope < 1000000 -> 0 <= PixelList.code pl <= 2146 ->
  0 <= PixelList.pixels pl <= Hw -> Hw < 2 ^ 31 ->
  (forall i, 0 <= i < PixelList.pixels pl ->
             0 <= PixelList.pixel_list pl i < Hw) ->
  exists it,
    write_hess_pixel_list Hw iobuf pl telescope = (0, iobuf ++ [it])
    /\ read_hess_pixel_list Hr (it :: rest) pl0 telescope0
       = if PixelList.pixels pl >? Hr
         then Some (-1, PixelList.mk (PixelList.code pl) 0
                          (PixelList.pixel_list pl0), telescope, rest)
         else Some (0, PixelList.mk (PixelList.code pl) (PixelList.pixels pl)
                         (store (PixelList.pixel_list pl0) 0
                            (slice (PixelList.pixel_list pl) 0
                               (Z.to_nat (PixelList.pixels pl)))),
                    telescope, rest).
Proof.
  intros Ht Hc Hn H31 Hl.
  assert (E31 : 2 ^ 31 = 2147483648) by reflexivity.
  destruct (pixel_list_ident telescope (PixelList.code pl) Ht Hc) as [Ec Et].
  unfold write_hess_pixel_list, put_item. eexists. split; [reflexivity|].
  unfold read_hess_pixel_list, get_item_begin.
  cbv beta iota zeta delta [it_type it_version it_ident it_body].
  rewrite Z.eqb_refl, Ec, Et. unfold pixel_list_version.
  destruct (Hw >=? 32768) eqn:Ev.
  - change (1 >? 1) with false. change (1 <? 1) with false. cbv iota.
    rewrite <- (app_nil_r (put_vector_of_int_scount _)).
    unfold put_scount. cbn [app get_scount32].
    rewrite int32_small by lia.
    destruct (PixelList.pixels pl >? Hr); [reflexivity|].
    rewrite get_vector_of_int_scount_put; [reflexivity|].
    intros i Hi. specialize (Hl i Hi). unfold is_int. lia.
  - rewrite Z.geb_leb in Ev. apply Z.leb_gt in Ev.
    change (0 >? 1) with false. change (0 <? 1) with true. cbv iota.
    rewrite <- (app_nil_r (put_vector_of_int _)).
    unfold put_short. cbn [app get_short].
    rewrite int16_uint16 by (change (2 ^ 15) with 32768; lia).
    destruct (PixelList.pixels pl >? Hr); [reflexivity|].
    rewrite get_vector_of_int_put; [reflexivity|].
    intros i Hi. specialize (Hl i Hi). change (2 ^ 15) with 32768. lia.
Qed.

(** X6.  A list of pixel IDs written by [write_hess_pixel_list] is read
    back by [read_hess_pixel_list] with its code, its telescope, its
    length and its entries, the rest of the array being left alone; this
    holds between libraries built for different numbers of pixels (the
    writer for [Hw], the reader for [Hr]) as long as the list is not
    longer than the reader's limit. *)
Theorem pixel_list_round_trip (Hw Hr : Z) (pl pl0 : PixelList.t)
    (telescope telescope0 : Z) (iobuf rest : IO_BUFFER) :
  0 <= telescope < 1000000 -> 0 <= PixelList.code pl <= 2146 ->
  0 <= PixelList.pixels pl <= Hw -> Hw < 2 ^ 31 ->
  (forall i, 0 <= i < PixelList.pixels pl ->
             0 <= PixelList.pixel_list pl i < Hw) ->
  PixelList.pixels pl <= Hr ->
  exists it pl',
    write_hess_pixel_list Hw iobuf pl telescope = (0, iobuf ++ [it])
    /\ read_hess_pixel_list Hr (it :: rest) pl0 telescope0
       = Some (0, pl', telescope, rest)
    /\ PixelList.code pl' = PixelList.code pl
    /\ PixelList.pixels pl' = PixelList.pixels pl
    /\ forall i, PixelList.pixel_list pl' i
                 = if (0 <=? i) && (i <? PixelList.pixels pl)
                   then PixelList.pixel_list pl i
                   else PixelList.pixel_list pl0 i.
Proof.
  intros Ht Hc Hn H31 Hl Hr'.
  destruct (pixel_list_written Hw Hr pl pl0 telescope telescope0 iobuf rest
              Ht Hc Hn H31 Hl) as (it & Hw' & Hrd).
  assert (E : (PixelList.pixels pl >? Hr) = false)
    by (rewrite Z.gtb_ltb; apply Z.ltb_ge; lia).
  rewrite E in Hrd.
  exists it. eexists. split; [exact Hw'|]. split; [exact Hrd|].
  cbn [PixelList.code PixelList.pixels PixelList.pixel_list].
  split; [reflexivity|]. split; [reflexivity|].
  intros i. apply store_slice_at.
Qed.

Lemma pixel_list_round_trip_witness :
  exists it pl',
    write_hess_pixel_list 40000 [] two_pixels 12 = (0, [it])
    /\ read_hess_pixel_list 960 [it] (PixelList.mk 0 0 (fun _ => 0)) 0
       = Some (0, pl', 12, [])
    /\ PixelList.pixels pl' = 2
    /\ PixelList.pixel_list pl' 1 = 230.
Proof.
  destruct (pixel_list_round_trip 40000 960 two_pixels
              (PixelList.mk 0 0 (fun _ => 0)) 12 0 [] [])
    as (it & pl' & Hw & Hr & _ & Hn & Hl).
  - lia.
  - cbn; lia.
  - cbn; lia.
  - reflexivity.
  - intros i Hi. cbn in *. destruct (i =? 0); lia.
  - cbn; lia.
  - exists it, pl'. split; [exact Hw|]. split; [exact Hr|].
    split; [exact Hn|]. exact (Hl 1).
Defined.

(** X7.  A list of pixels that is longer than the limit the reading
    library is built for is refused: [read_hess_pixel_list] returns -1
    and leaves a list of length 0, with the entries of the array
    untouched. *)
Theorem pixel_list_too_long (Hw Hr : Z) (pl pl0 : PixelList.t)
    (telescope telescope0 : Z) (iobuf rest : IO_BUFFER) :
  0 <= telescope < 1000000 -> 0 <= PixelList.code pl <= 2146 ->
  0 <= PixelList.pixels pl <= Hw -> Hw < 2 ^ 31 ->
  (forall i, 0 <= i < PixelList.pixels pl ->
             0 <= PixelList.pixel_list pl i < Hw) ->
  Hr < PixelList.pixels pl ->
  exists it pl',
    write_hess_pixel_list Hw iobuf pl telescope = (0, iobuf ++ [it])
    /\ read_hess_pixel_list Hr (it :: rest) pl0 telescope0
       = Some (-1, pl', telescope, rest)
    /\ PixelList.pixels pl' = 0
    /\ PixelList.pixel_list pl' = PixelList.pixel_list pl0.
Proof.
  intros Ht Hc Hn H31 Hl Hr'.
  destruct (pixel_list_written Hw Hr pl pl0 telescope telescope0 iobuf rest
              Ht Hc Hn H31 Hl) as (it & Hw' & Hrd).
  assert (E : (PixelList.pixels pl >? Hr) = true) by (apply Z.gtb_lt; lia).
  rewrite E in Hrd.
  exists it. eexists. split; [exact Hw'|]. split; [exact Hrd|].
  split; reflexivity.
Qed.

Lemma pixel_list_too_long_witness :
  exists it pl',
    write_hess_pixel_list 40000 [] two_pixels 12 = (0, [it])
    /\ read_hess_pixel_list 1 [it] (PixelList.mk 0 0 (fun _ => 0)) 0
       = Some (-1, pl', 12, [])
    /\ PixelList.pixels pl' = 0.
Proof.
  destruct (pixel_list_too_long 40000 1 two_pixels
              (PixelList.mk 0 0 (fun _ => 0)) 12 0 [] [])
    as (it & pl' & Hw & Hr & Hn & _).
  - lia.
  - cbn; lia.
  - cbn; lia.
  - reflexivity.
  - intros i Hi. cbn in *. destruct (i =? 0); lia.
  - cbn; lia.
  - exists it, pl'. split; [exact Hw|]. split; [exact Hr|]. exact Hn.
Defined.

(** ** Disabled pixels *)

(** X8.  The lists of disabled pixels written by [write_hess_pixeldis]
    are read back by [read_hess_pixeldis], counts and entries, into a
    structure that is set up for the same telescope or for any
    telescope (a negative [tel_id]); the [tel_id] of the structure is
    not changed. *)
Theorem pixeldis_round_trip (H_MAX_PIX : Z) (pd pd0 : PixelDisabled.t)
    (iobuf rest : IO_BUFFER) :
  0 <= PixelDisabled.num_trig_disabled pd <= H_MAX_PIX ->
  0 <= PixelDisabled.num_HV_disabled pd <= H_MAX_PIX ->
  H_MAX_PIX < 2 ^ 31 ->
  (forall i, 0 <= i < PixelDisabled.num_trig_disabled pd ->
             is_int (PixelDisabled.trigger_disabled pd i)) ->
  (forall i, 0 <= i < PixelDisabled.num_HV_disabled pd ->
             is_int (PixelDisabled.HV_disabled pd i)) ->
  PixelDisabled.tel_id pd0 < 0
  \/ PixelDisabled.tel_id pd0 = PixelDisabled.tel_id pd ->
  exists it pd',
    write_hess_pixeldis iobuf pd = (0, iobuf ++ [it])
    /\ read_hess_pixeldis H_MAX_PIX (it :: rest) pd0 = Some (0, pd', rest)
    /\ PixelDisabled.tel_id pd' = PixelDisabled.tel_id pd0
    /\ PixelDisabled.num_trig_disabled pd' = PixelDisabled.num_trig_disabled pd
    /\ PixelDisabled.num_HV_disabled pd' = PixelDisabled.num_HV_disabled pd
    /\ (forall i, 0 <= i < PixelDisabled.num_trig_disabled pd ->
          PixelDisabled.trigger_disabled pd' i
          = PixelDisabled.trigger_disabled pd i)
    /\ (forall i, 0 <= i < PixelDisabled.num_HV_disabled pd ->
          PixelDisabled.HV_disabled pd' i = PixelDisabled.HV_disabled pd i).
Proof.
  intros Hnt Hnh H31 Hlt Hlh Htel.
  assert (E31 : 2 ^ 31 = 2147483648) by reflexivity.
  unfold write_hess_pixeldis, put_item. eexists. eexists.
  split; [reflexivity|].
  unfold read_hess_pixeldis, get_item_begin.
  cbv beta iota zeta delta [it_type it_version it_ident it_body].
  rewrite Z.eqb_refl. change (negb (0 =? 0)) with false. cbv iota.
  assert (Et : ((PixelDisabled.tel_id pd0 >=? 0)
                && negb (PixelDisabled.tel_id pd =? PixelDisabled.tel_id pd0))
               = false).
  { destruct Htel as [H|H].
    - apply andb_false_iff. left. rewrite Z.geb_leb. apply Z.leb_gt. lia.
    - rewrite H, Z.eqb_refl. apply andb_false_r. }
  rewrite Et.
  unfold read_pixeldis_body.
  unfold bind at 1. rewrite get_int32_put by (unfold is_int; lia).
  assert (E1 : ((PixelDisabled.num_trig_disabled pd <? 0)
                || (PixelDisabled.num_trig_disabled pd >? H_MAX_PIX)) = false).
  { apply orb_false_iff. split; [apply Z.ltb_ge; lia|].
    rewrite Z.gtb_ltb. apply Z.ltb_ge. lia. }
  rewrite E1. unfold bind at 1.
  rewrite get_vector_of_int32_put by assumption.
  unfold bind at 1. rewrite get_int32_put by (unfold is_int; lia).
  assert (E2 : ((PixelDisabled.num_HV_disabled pd <? 0)
                || (PixelDisabled.num_HV_disabled pd >? H_MAX_PIX)) = false).
  { apply orb_false_iff. split; [apply Z.ltb_ge; lia|].
    rewrite Z.gtb_ltb. apply Z.ltb_ge. lia. }
  rewrite E2. unfold bind at 1.
  rewrite <- (app_nil_r (put_vector_of_int32 _)).
  rewrite get_vector_of_int32_put by assumption.
  unfold ret. split; [reflexivity|].
  cbn [PixelDisabled.tel_id PixelDisabled.num_trig_disabled
       PixelDisabled.num_HV_disabled PixelDisabled.trigger_disabled
       PixelDisabled.HV_disabled].
  split; [reflexivity|]. split; [reflexivity|]. split; [reflexivity|].
  split; intros i Hi; apply store_slice; lia.
Qed.

Lemma pixeldis_round_trip_witness :
  exists it pd',
    write_hess_pixeldis [] some_disabled = (0, [it])
    /\ read_hess_pixeldis 960 [it]
         (PixelDisabled.mk (-1) 0 (fun _ => 0) 0 (fun _ => 0))
       = Some (0, pd', [])
    /\ PixelDisabled.num_trig_disabled pd' = 2
    /\ PixelDisabled.trigger_disabled pd' 1 = 9.
Proof.
  destruct (pixeldis_round_trip 960 some_disabled
              (PixelDisabled.mk (-1) 0 (fun _ => 0) 0 (fun _ => 0)) [] [])
    as (it & pd' & Hw & Hr & _ & Hn & _ & Hl & _).
  - cbn; lia.
  - cbn; lia.
  - reflexivity.
  - intros i Hi. unfold is_int. cbn in *.
    change (2 ^ 31) with 2147483648. destruct (i =? 0); lia.
  - intros i Hi. unfold is_int. cbn in *.
    change (2 ^ 31) with 2147483648. lia.
  - left. cbn. lia.
  - exists it, pd'. split; [exact Hw|]. split; [exact Hr|].
    split; [exact Hn|]. apply (Hl 1). cbn. lia.
Defined.

(** X9.  [read_hess_pixeldis] refuses a record of another telescope
    than the one the structure is set up for, and a record of another
    version than 0: it returns -1 and changes nothing in the
    structure. *)
Theorem pixeldis_other_telescope (H_MAX_PIX : Z) (it : item)
    (pd0 : PixelDisabled.t) (rest : IO_BUFFER) :
  it_type it = IO_TYPE_HESS_PIXELDISABLE ->
  it_version it <> 0
  \/ (0 <= PixelDisabled.tel_id pd0
      /\ it_ident it <> PixelDisabled.tel_id pd0) ->
  read_hess_pixeldis H_MAX_PIX (it :: rest) pd0 = Some (-1, pd0, rest).
Proof.
  intros Ht H. unfold read_hess_pixeldis, get_item_begin.
  rewrite Ht, Z.eqb_refl.
  destruct (it_version it =? 0) eqn:Ev; [|reflexivity].
  apply Z.eqb_eq in Ev. destruct H as [H|[H1 H2]]; [contradiction|].
  cbn [negb].
  assert (E : ((PixelDisabled.tel_id pd0 >=? 0)
               && negb (it_ident it =? PixelDisabled.tel_id pd0)) = true).
  { apply andb_true_iff. split; [apply Z.geb_le; lia|].
    apply negb_true_iff, Z.eqb_neq. exact H2. }
  now rewrite E.
Qed.

Lemma pixeldis_other_telescope_witness :
  exists it,
    write_hess_pixeldis [] some_disabled = (0, [it])
    /\ read_hess_pixeldis 960 [it]
         (PixelDisabled.mk 5 0 (fun _ => 0) 0 (fun _ => 0))
       = Some (-1, PixelDisabled.mk 5 0 (fun _ => 0) 0 (fun _ => 0), []).
Proof.
  eexists. split; [reflexivity|].
  apply pixeldis_other_telescope; [reflexivity|].
  right. cbn. split; [lia|discriminate].
Defined.

(** ** Camera software settings *)

(** X10.  The settings written by [write_hess_camsoftset] are read back
    by [read_hess_camsoftset], the scalar settings and the thresholds in
    use, into a structure that is set up for the same telescope or for
    any telescope; the [tel_id] of the structure is not changed. *)
Theorem camsoftset_round_trip (cs cs0 : CameraSoftSet.t)
    (iobuf rest : IO_BUFFER) :
  camsoftset_valid cs ->
  CameraSoftSet.tel_id cs0 < 0
  \/ CameraSoftSet.tel_id cs0 = CameraSoftSet.tel_id cs ->
  exists it cs',
    write_hess_camsoftset iobuf cs = (0, iobuf ++ [it])
    /\ read_hess_camsoftset (it :: rest) cs0 = Some (0, cs', rest)
    /\ CameraSoftSet.tel_id cs' = CameraSoftSet.tel_id cs0
    /\ same_settings cs' cs
    /\ (forall i, 0 <= i < CameraSoftSet.zero_sup_num_thr cs ->
          CameraSoftSet.zero_sup_thresholds cs' i
          = CameraSoftSet.zero_sup_thresholds cs i).
Proof.
  intros (V1 & V2 & V3 & V4 & V5 & V6 & Vn & Vl & V7 & V8 & V9 & V10 & V11
          & V12 & V13 & V14) Htel.
  assert (Vn' : is_int (CameraSoftSet.zero_sup_num_thr cs)).
  { unfold is_int. change (2 ^ 31) with 2147483648. lia. }
  unfold write_hess_camsoftset, put_item. eexists. eexists.
  split; [reflexivity|].
  unfold read_hess_camsoftset, get_item_begin.
  cbv beta iota zeta delta [it_type it_version it_ident it_body].
  rewrite Z.eqb_refl. change (negb (0 =? 0)) with false. cbv iota.
  assert (Et : ((CameraSoftSet.tel_id cs0 >=? 0)
                && negb (CameraSoftSet.tel_id cs =? CameraSoftSet.tel_id cs0))
               = false).
  { destruct Htel as [H|H].
    - apply andb_false_iff. left. rewrite Z.geb_leb. apply Z.leb_gt. lia.
    - rewrite H, Z.eqb_refl. apply andb_false_r. }
  rewrite Et.
  unfold read_camsoftset_body.
  do 7 (unfold bind at 1; rewrite get_int32_put by assumption).
  assert (En : ((CameraSoftSet.zero_sup_num_thr cs <? 0)
                || (CameraSoftSet.zero_sup_num_thr cs >? 10)) = false).
  { apply orb_false_iff. split; [apply Z.ltb_ge; lia|].
    rewrite Z.gtb_ltb. apply Z.ltb_ge. lia. }
  rewrite En. unfold bind at 1.
  rewrite get_vector_of_int32_put by assumption.
  do 7 (unfold bind at 1; rewrite get_int32_put by assumption).
  unfold bind at 1. rewrite <- (app_nil_r (put_int32 _)).
  rewrite get_int32_put by assumption.
  unfold ret. split; [reflexivity|].
  split; [reflexivity|]. split; [repeat split|].
  intros i Hi.
  cbn [CameraSoftSet.zero_sup_thresholds]. apply store_slice. lia.
Qed.

Lemma camsoftset_round_trip_witness :
  exists it cs',
    write_hess_camsoftset [] some_settings = (0, [it])
    /\ read_hess_camsoftset [it] no_settings = Some (0, cs', [])
    /\ CameraSoftSet.zero_sup_num_thr cs' = 2
    /\ CameraSoftSet.zero_sup_thresholds cs' 1 = -5.
Proof.
  assert (Hv : camsoftset_valid some_settings).
  { unfold camsoftset_valid, is_int. change (2 ^ 31) with 2147483648.
    cbn. repeat split; try lia;
      match goal with |- context [?i =? 0] => destruct (i =? 0) end; lia. }
  destruct (camsoftset_round_trip some_settings no_settings [] [] Hv)
    as (it & cs' & Hw & Hr & _ & Hs & Hl).
  - left. cbn. lia.
  - exists it, cs'. split; [exact Hw|]. split; [exact Hr|].
    destruct Hs as (_ & _ & _ & _ & _ & _ & Hn & _).
    split; [exact Hn|]. apply (Hl 1). cbn. lia.
Defined.

(** X11.  A record of camera software settings that names more than
    the 10 thresholds of the array, or a negative number of them, is
    refused by [read_hess_camsoftset]: it returns -1 with the six
    settings in front of the count stored, the number of thresholds set
    to 0 and the thresholds and the other settings of the structure
    untouched. *)
Theorem camsoftset_bad_threshold_count (cs0 : CameraSoftSet.t)
    (tel a1 a2 a3 a4 a5 a6 n : Z) (tail : list wire) (rest : IO_BUFFER) :
  is_int a1 -> is_int a2 -> is_int a3 -> is_int a4 -> is_int a5 ->
  is_int a6 -> is_int n ->
  n < 0 \/ 10 < n ->
  CameraSoftSet.tel_id cs0 < 0 \/ CameraSoftSet.tel_id cs0 = tel ->
  read_hess_camsoftset
    (Item IO_TYPE_HESS_CAMSOFTSET 0 tel
       (put_int32 a1 ++ put_int32 a2 ++ put_int32 a3 ++ put_int32 a4
          ++ put_int32 a5 ++ put_int32 a6 ++ put_int32 n ++ tail) :: rest)
    cs0
  = Some (-1,
          CameraSoftSet.mk (CameraSoftSet.tel_id cs0) a1 a2 a3 a4 a5 a6 0
            (CameraSoftSet.zero_sup_thresholds cs0)
            (CameraSoftSet.unbiased_scale cs0)
            (CameraSoftSet.dyn_ped_mode cs0)
            (CameraSoftSet.dyn_ped_events cs0)
            (CameraSoftSet.dyn_ped_period cs0)
            (CameraSoftSet.monitor_cur_period cs0)
            (CameraSoftSet.report_cur_period cs0)
            (CameraSoftSet.monitor_HV_period cs0)
            (CameraSoftSet.report_HV_period cs0),
          rest).
Proof.
  intros V1 V2 V3 V4 V5 V6 Vn Hbad Htel.
  unfold read_hess_camsoftset, get_item_begin.
  cbv beta iota zeta delta [it_type it_version it_ident it_body].
  rewrite Z.eqb_refl. change (negb (0 =? 0)) with false. cbv iota.
  assert (Et : ((CameraSoftSet.tel_id cs0 >=? 0)
                && negb (tel =? CameraSoftSet.tel_id cs0)) = false).
  { destruct Htel as [H|H].
    - apply andb_false_iff. left. rewrite Z.geb_leb. apply Z.leb_gt. lia.
    - rewrite H, Z.eqb_refl. apply andb_false_r. }
  rewrite Et.
  unfold read_camsoftset_body.
  do 7 (unfold bind at 1; rewrite get_int32_put by assumption).
  assert (En : ((n <? 0) || (n >? 10)) = true).
  { apply orb_true_iff. destruct Hbad as [H|H];
      [left; now apply Z.ltb_lt|right; now apply Z.gtb_lt]. }
  rewrite En. reflexivity.
Qed.

Lemma camsoftset_bad_threshold_count_witness :
  exists cs',
    read_hess_camsoftset
      [Item IO_TYPE_HESS_CAMSOFTSET 0 4
         (put_int32 1 ++ put_int32 20 ++ put_int32 0 ++ put_int32 0
            ++ put_int32 2 ++ put_int32 1 ++ put_int32 12 ++ [])]
      no_settings
    = Some (-1, cs', [])
    /\ CameraSoftSet.zero_sup_num_thr cs' = 0.
Proof.
  eexists. split.
  - apply camsoftset_bad_threshold_count;
      try (unfold is_int; change (2 ^ 31) with 2147483648; lia).
    left. cbn. lia.
  - reflexivity.
Defined.

(** ** Run statistics and times *)

(** X12.  The statistics of a run of at most [H_MAX_TEL] telescopes
    written by [write_hess_run_stat] are read back by
    [read_hess_run_stat]: the run number, the counts and, for each of
    the telescopes, the ID and the three numbers of triggers and
    events. *)
Theorem run_stat_round_trip (H_MAX_TEL : Z) (rs rs0 : RunStat.t)
    (iobuf rest : IO_BUFFER) :
  0 <= RunStat.num_tel rs <= H_MAX_TEL -> H_MAX_TEL < 2 ^ 31 ->
  is_int (RunStat.run_num rs) -> is_int (RunStat.num_central_trig rs) ->
  (forall i, 0 <= i < RunStat.num_tel rs ->
     is_int (RunStat.tel_ids rs i) /\ is_int (RunStat.num_local_trig rs i)
     /\ is_int (RunStat.num_local_sys_trig rs i)
     /\ is_int (RunStat.num_events rs i)) ->
  exists it rs',
    write_hess_run_stat iobuf rs = (0, iobuf ++ [it])
    /\ read_hess_run_stat (it :: rest) rs0 = Some (0, rs', rest)
    /\ RunStat.run_num rs' = RunStat.run_num rs
    /\ RunStat.num_tel rs' = RunStat.num_tel rs
    /\ RunStat.num_central_trig rs' = RunStat.num_central_trig rs
    /\ forall i, 0 <= i < RunStat.num_tel rs ->
         RunStat.tel_ids rs' i = RunStat.tel_ids rs i
         /\ RunStat.num_local_trig rs' i = RunStat.num_local_trig rs i
         /\ RunStat.num_local_sys_trig rs' i = RunStat.num_local_sys_trig rs i
         /\ RunStat.num_events rs' i = RunStat.num_events rs i.
Proof.
  intros Hn H31 Hrun Hc Hl.
  assert (Hn' : is_int (RunStat.num_tel rs)).
  { unfold is_int. change (2 ^ 31) with 2147483648 in *. lia. }
  unfold write_hess_run_stat, put_item. eexists. eexists.
  split; [reflexivity|].
  unfold read_hess_run_stat, get_item_begin.
  cbv beta iota zeta delta [it_type it_version it_ident it_body].
  rewrite Z.eqb_refl. change (negb (0 =? 0)) with false. cbv iota.
  unfold read_run_stat_body.
  do 2 (unfold bind at 1; rewrite get_int32_put by assumption).
  do 3 (unfold bind at 1;
        rewrite get_vector_of_int32_put by (intros i Hi; now apply Hl)).
  unfold bind at 1. rewrite <- (app_nil_r (put_vector_of_int32 _)).
  rewrite get_vector_of_int32_put by (intros i Hi; now apply Hl).
  unfold ret. split; [reflexivity|].
  cbn [RunStat.run_num RunStat.num_tel RunStat.num_central_trig
       RunStat.tel_ids RunStat.num_local_trig RunStat.num_local_sys_trig
       RunStat.num_events].
  split; [now apply int32_small|]. split; [reflexivity|].
  split; [reflexivity|].
  intros i Hi. repeat split; apply store_slice; lia.
Qed.

Lemma run_stat_round_trip_witness :
  exists it rs',
    write_hess_run_stat [] two_tel_stat = (0, [it])
    /\ read_hess_run_stat [it]
         (RunStat.mk 0 0 (fun _ => 0) 0 (fun _ => 0) (fun _ => 0) (fun _ => 0))
       = Some (0, rs', [])
    /\ RunStat.run_num rs' = 1234
    /\ RunStat.tel_ids rs' 1 = 2.
Proof.
  destruct (run_stat_round_trip 16 two_tel_stat
              (RunStat.mk 0 0 (fun _ => 0) 0 (fun _ => 0) (fun _ => 0)
                 (fun _ => 0)) [] [])
    as (it & rs' & Hw & Hr & Hrun & _ & _ & Hl).
  - cbn; lia.
  - reflexivity.
  - unfold is_int. change (2 ^ 31) with 2147483648. cbn. lia.
  - unfold is_int. change (2 ^ 31) with 2147483648. cbn. lia.
  - intros i Hi. unfold is_int. change (2 ^ 31) with 2147483648.
    cbn in *. lia.
  - exists it, rs'. split; [exact Hw|]. split; [exact Hr|].
    split; [exact Hrun|]. apply (Hl 1). cbn. lia.
Defined.

(** X13.  The time written by [put_time_blob] comes back from
    [get_time_blob] with both fields reduced to 32 bits, sign included:
    the seconds and nanoseconds of a [long] survive exactly when they
    fit 32 bits. *)
Theorem time_blob_round_trip (t : HTime.t) (rest : list wire) :
  get_time_blob (put_time_blob t ++ rest)
  = Some (HTime.mk (int32 (HTime.seconds t)) (int32 (HTime.nanoseconds t)),
          rest)
  /\ (is_int (HTime.seconds t) -> is_int (HTime.nanoseconds t) ->
      get_time_blob (put_time_blob t ++ rest) = Some (t, rest)).
Proof.
  assert (E : get_time_blob (put_time_blob t ++ rest)
              = Some (HTime.mk (int32 (HTime.seconds t))
                        (int32 (HTime.nanoseconds t)), rest)).
  { unfold get_time_blob, put_time_blob, put_long, bind, ret.
    cbn [app get_long]. now rewrite !int32_of_uint32. }
  split; [exact E|]. intros Hs Hn. rewrite E.
  rewrite !int32_small by assumption. now destruct t.
Qed.

Lemma time_blob_round_trip_witness :
  get_time_blob (put_time_blob (HTime.mk 1541548800 250) ++ [])
  = Some (HTime.mk 1541548800 250, [])
  /\ get_time_blob (put_time_blob (HTime.mk 2147483648 0) ++ [])
     = Some (HTime.mk (-2147483648) 0, []).
Proof.
  split.
  - apply (time_blob_round_trip (HTime.mk 1541548800 250) []);
      unfold is_int; change (2 ^ 31) with 2147483648; cbn; lia.
  - exact (proj1 (time_blob_round_trip (HTime.mk 2147483648 0) [])).
Defined.

(** X14.  The statistics of a simulation run written by
    [write_hess_mc_run_stat] are read back by [read_hess_mc_run_stat],
    whatever the structure held before; a record of another version
    than 0 is refused with -1 and leaves the structure alone. *)
Theorem mc_run_stat_round_trip (mcrs mcrs0 : MCRunStat.t)
    (iobuf rest : IO_BUFFER) :
  is_int (MCRunStat.run_num mcrs) -> is_int (MCRunStat.num_showers mcrs) ->
  is_int (MCRunStat.num_events mcrs) ->
  (exists it,
      write_hess_mc_run_stat iobuf mcrs = (0, iobuf ++ [it])
      /\ read_hess_mc_run_stat (it :: rest) mcrs0 = Some (0, mcrs, rest))
  /\ (forall v ident body,
        v <> 0 ->
        read_hess_mc_run_stat
          (Item IO_TYPE_HESS_MC_RUNSTAT v ident body :: rest) mcrs0
        = Some (-1, mcrs0, rest)).
Proof.
  intros Hr Hs He. split.
  - unfold write_hess_mc_run_stat, put_item. eexists.
    split; [reflexivity|].
    unfold read_hess_mc_run_stat, get_item_begin.
    cbv beta iota zeta delta [it_type it_version it_ident it_body].
    rewrite Z.eqb_refl. change (negb (0 =? 0)) with false. cbv iota.
    unfold bind at 1. rewrite get_int32_put by assumption.
    unfold bind at 1. rewrite <- (app_nil_r (put_int32 _)).
    rewrite get_int32_put by assumption.
    unfold ret. rewrite int32_small by assumption. now destruct mcrs.
  - intros v ident body Hv. unfold read_hess_mc_run_stat, get_item_begin.
    cbv beta iota zeta delta [it_type it_version it_ident it_body].
    rewrite Z.eqb_refl. apply Z.eqb_neq in Hv. now rewrite Hv.
Qed.

Lemma mc_run_stat_round_trip_witness :
  exists it,
    write_hess_mc_run_stat [] (MCRunStat.mk 1234 5000 320) = (0, [it])
    /\ read_hess_mc_run_stat [it] (MCRunStat.mk 0 0 0)
       = Some (0, MCRunStat.mk 1234 5000 320, []).
Proof.
  apply (mc_run_stat_round_trip (MCRunStat.mk 1234 5000 320)
           (MCRunStat.mk 0 0 0) [] []);
    unfold is_int; change (2 ^ 31) with 2147483648; cbn; lia.
Defined.

(** ** The differential coders *)

Lemma map_id_in {A : Type} (f : A -> A) (l : list A) :
  Forall (fun a => f a = a) l -> map f l = l.
Proof.
  intros H. induction H as [|a l Ha _ IH]; [reflexivity|].
  cbn [map]. now rewrite Ha, IH.
Qed.

(** X15.  The differential coders lose nothing over the whole range of
    their element types: a vector of 32-bit amplitudes written by
    [put_adcsum_differential] comes back from [get_adcsum_differential]
    as it was, although the differences are taken in 32-bit signed
    arithmetic, and so does a trace of 16-bit samples through
    [put_adcsample_differential] and [get_adcsample_differential]; the
    data that follows is left in the buffer. *)
Theorem differential_coders_lossless (sums samples : list Z)
    (rest : list wire) :
  Forall (fun a => 0 <= a < 2 ^ 32) sums ->
  Forall (fun a => 0 <= a < 65536) samples ->
  get_adcsum_differential (zlength sums)
    (put_adcsum_differential sums ++ rest) = Some (sums, rest)
  /\ get_adcsample_differential (zlength samples)
       (put_adcsample_differential samples ++ rest) = Some (samples, rest).
Proof.
  intros H32 H16. split.
  - rewrite adcsum_differential_roundtrip. rewrite map_id_in; [reflexivity|].
    eapply Forall_impl; [|exact H32]. cbv beta. intros a Ha.
    now apply uint32_small.
  - now apply adcsample_differential_roundtrip.
Qed.

Lemma differential_coders_lossless_witness :
  get_adcsum_differential 4
    (put_adcsum_differential [0; 4294967295; 7; 2147483648] ++ [W8 1])
  = Some ([0; 4294967295; 7; 2147483648], [W8 1])
  /\ get_adcsample_differential 3
       (put_adcsample_differential [65535; 0; 300] ++ [W8 1])
     = Some ([65535; 0; 300], [W8 1]).
Proof.
  apply (differential_coders_lossless [0; 4294967295; 7; 2147483648]
           [65535; 0; 300] [W8 1]).
  - repeat constructor; change (2 ^ 32) with 4294967296; lia.
  - repeat constructor; lia.
Defined.

(** ** The sum-mode round trip without data reduction *)

Lemma plain_gains_read_values (x : AdcData) (version : Z) (n : nat) :
  forall (i : Z) (rawr : AdcData) (rest : list wire),
    3 <= version ->
    0 <= num_pixels x ->
    num_pixels rawr = num_pixels x ->
    (forall g p, 0 <= adc_sum x g p < 2 ^ 32) ->
    exists r',
      read_plain_gains version n i rawr
        (write_plain_gains x version n i ++ rest) = Some (r', rest)
      /\ (forall g p, i <= g < i + Z.of_nat n -> 0 <= p < num_pixels x ->
            adc_sum r' g p = adc_sum x g p)
      /\ (forall g, ~ (i <= g < i + Z.of_nat n) ->
            adc_sum r' g = adc_sum rawr g).
Proof.
  induction n as [|n IH]; intros i rawr rest Hv Hnp Hr Hs.
  - exists rawr. split; [reflexivity|]. split; [intros g p Hg; lia|reflexivity].
  - cbn [read_plain_gains write_plain_gains]. rewrite <- app_assoc.
    unfold bind at 1. rewrite Hr.
    replace (get_adcsum version (num_pixels x))
      with (get_adcsum version
              (zlength (slice (adc_sum x i) 0 (Z.to_nat (num_pixels x)))))
      by (now rewrite zlength_slice).
    rewrite adcsum_roundtrip by assumption.
    rewrite map_slice_id
      by (intros j Hj; apply uint32_small; apply Hs).
    set (r1 := set_adc_sum rawr
                 (upd (adc_sum rawr) i
                    (store (adc_sum rawr i) 0
                       (slice (adc_sum x i) 0 (Z.to_nat (num_pixels x)))))).
    assert (Hr1 : num_pixels r1 = num_pixels x) by exact Hr.
    destruct (IH (i + 1) r1 rest Hv Hnp Hr1 Hs) as (r' & E & A & B).
    exists r'. split; [exact E|]. split.
    + intros g p Hg Hp. destruct (Z.eq_dec g i) as [->|Hne].
      * rewrite B by lia. subst r1. raw_simpl. rewrite upd_same.
        apply store_slice. lia.
      * apply A; lia.
    + intros g Hg. rewrite B by lia. subst r1. raw_simpl.
      apply upd_other. lia.
Qed.

Lemma sums_declared_v3_fields (flags np ng : Z) (s : list wire)
    (raw0 : AdcData) :
  exists h,
    sums_declared
      (Item IO_TYPE_HESS_TELADCSUM 3 flags (put_long np ++ put_short ng ++ s))
      raw0 = Some (h, s)
    /\ zero_sup_mode h = Z.land (uint32 flags) 0x1f
    /\ data_red_mode h = Z.land (Z.shiftr (uint32 flags) 5) 0x1f
    /\ num_pixels h = int32 (uint32 np)
    /\ num_gains h = int16 (uint16 ng)
    /\ tel_id h = Z.land (Z.shiftr (uint32 flags) 12) 0xffff
    /\ significant h = significant raw0
    /\ adc_known h = adc_known raw0
    /\ adc_sum h = adc_sum raw0.
Proof.
  eexists. split.
  - unfold sums_declared, read_sums_header.
    cbv beta iota zeta delta [it_version it_ident it_body].
    change (3 >=? 4) with false. change (3 =? 0) with false.
    change (3 =? 1) with false. cbv beta iota zeta delta [andb].
    unfold bind, ret, put_long, put_short.
    cbv beta iota zeta delta [app get_long get_short]. reflexivity.
  - repeat split.
Qed.

Lemma sums_flags_tel (raw : AdcData) (version z d : Z) :
  2 <= version -> 0 <= z < 32 -> 0 <= d < 32 ->
  Z.land (Z.shiftr (sums_flags raw version z d) 12) 0xffff
  = tel_id raw mod 65536.
Proof.
  intros Hv Hz Hd. rewrite sums_flags_sum by assumption.
  set (lk := if negb (list_known raw =? 0) then 1 else 0).
  assert (Hlk : 0 <= lk <= 1) by (subst lk; destruct (negb _); lia).
  pose proof (Z.mod_pos_bound (tel_id raw) 65536 ltac:(lia)) as Ht.
  rewrite land_65535, Z.shiftr_div_pow2 by lia. change (2 ^ 12) with 4096.
  rewrite Z.div_add by lia. rewrite Z.div_small by lia.
  rewrite Z.add_0_l. apply Z.mod_small. lia.
Qed.

(** The reader on a version-3 record in plain or bitmap mode without
    data reduction: the header it takes from the record and the data it
    reads after the initialisation. *)
Lemma read_sums_low_data (H_MAX_PIX : Z) (lgval0 : Z -> Z)
    (raw raw0 : AdcData) (z : Z) (rest : IO_BUFFER) :
  z = 0 \/ z = 1 ->
  0 <= num_pixels raw <= H_MAX_PIX -> num_pixels raw < 2 ^ 31 ->
  1 <= num_gains raw <= 2 ->
  exists h r1 s',
    read_hess_teladc_sums H_MAX_PIX lgval0
      (Item IO_TYPE_HESS_TELADCSUM 3 (sums_flags raw 3 z 0)
         (put_long (num_pixels raw) ++ put_short (num_gains raw)
            ++ low_mode_data raw 3 z) :: rest) raw0
    = Some (0, set_known r1 1, rest)
    /\ read_sums_data 3 1 0 lgval0 (init_sums h) (low_mode_data raw 3 z)
       = Some (r1, s')
    /\ zero_sup_mode h = z /\ data_red_mode h = 0
    /\ num_pixels h = num_pixels raw /\ num_gains h = num_gains raw
    /\ tel_id h = tel_id raw mod 65536.
Proof.
  intros Hz Hnp Hnp31 Hng.
  assert (Hz32 : 0 <= z < 32) by lia.
  destruct (sums_declared_v3_fields (sums_flags raw 3 z 0) (num_pixels raw)
              (num_gains raw) (low_mode_data raw 3 z) raw0)
    as (h & Eh & Ez & Ed & En & Eg & Et & _).
  pose proof (sums_flags_range raw 3 z 0 ltac:(lia) Hz32 ltac:(lia)) as Hf.
  assert (Hf32 : 0 <= sums_flags raw 3 z 0 < 2 ^ 32).
  { change (2 ^ 28) with 268435456 in Hf.
    change (2 ^ 32) with 4294967296. lia. }
  rewrite (uint32_small _ Hf32) in Ez, Ed, Et.
  rewrite sums_flags_zero_sup in Ez by lia.
  rewrite sums_flags_data_red in Ed by lia.
  rewrite sums_flags_tel in Et by lia.
  rewrite int32_uint32 in En by lia.
  rewrite int16_uint16 in Eg by (change (2 ^ 15) with 32768; lia).
  destruct (read_sums_low H_MAX_PIX lgval0 raw raw0 z rest Hz Hnp Hnp31 Hng)
    as (r & Er & _).
  rewrite (read_sums_accepted H_MAX_PIX lgval0
             (Item IO_TYPE_HESS_TELADCSUM 3 (sums_flags raw 3 z 0)
                (put_long (num_pixels raw) ++ put_short (num_gains raw)
                   ++ low_mode_data raw 3 z))
             rest raw0 h (low_mode_data raw 3 z) eq_refl eq_refl Eh) in Er.
  2:{ unfold sums_invalid. rewrite En, Eg, Ez, Ed.
      assert (E1 : (num_pixels raw >? H_MAX_PIX) = false)
        by (rewrite Z.gtb_ltb; apply Z.ltb_ge; lia).
      assert (E2 : (num_gains raw >? H_MAX_GAINS) = false)
        by (rewrite Z.gtb_ltb; apply Z.ltb_ge; unfold H_MAX_GAINS; lia).
      assert (E3 : (z >? 1) = false)
        by (rewrite Z.gtb_ltb; apply Z.ltb_ge; lia).
      assert (E4 : (z >? 2) = false)
        by (rewrite Z.gtb_ltb; apply Z.ltb_ge; lia).
      rewrite E1, E2, E3, E4, andb_false_r. reflexivity. }
  unfold bind at 1 in Er. rewrite read_sums_hg8_none in Er by lia.
  cbv beta iota zeta delta [it_version] in Er.
  destruct (read_sums_data 3 1 0 lgval0 (init_sums h) (low_mode_data raw 3 z))
    as [[r1 s']|] eqn:Ed1; [|discriminate].
  exists h, r1, s'.
  rewrite (read_sums_accepted H_MAX_PIX lgval0
             (Item IO_TYPE_HESS_TELADCSUM 3 (sums_flags raw 3 z 0)
                (put_long (num_pixels raw) ++ put_short (num_gains raw)
                   ++ low_mode_data raw 3 z))
             rest raw0 h (low_mode_data raw 3 z) eq_refl eq_refl Eh).
  2:{ unfold sums_invalid. rewrite En, Eg, Ez, Ed.
      assert (E1 : (num_pixels raw >? H_MAX_PIX) = false)
        by (rewrite Z.gtb_ltb; apply Z.ltb_ge; lia).
      assert (E2 : (num_gains raw >? H_MAX_GAINS) = false)
        by (rewrite Z.gtb_ltb; apply Z.ltb_ge; unfold H_MAX_GAINS; lia).
      assert (E3 : (z >? 1) = false)
        by (rewrite Z.gtb_ltb; apply Z.ltb_ge; lia).
      assert (E4 : (z >? 2) = false)
        by (rewrite Z.gtb_ltb; apply Z.ltb_ge; lia).
      rewrite E1, E2, E3, E4, andb_false_r. reflexivity. }
  unfold bind at 1. rewrite read_sums_hg8_none by lia.
  cbv beta iota zeta delta [it_version]. rewrite Ed1.
  repeat split; assumption.
Qed.

Lemma read_plain_gains_tel (version : Z) (n : nat) :
  forall (i : Z) (raw raw' : AdcData) (s s' : list wire),
    read_plain_gains version n i raw s = Some (raw', s') ->
    tel_id raw' = tel_id raw.
Proof.
  induction n as [|n IH]; intros i raw raw' s s' H.
  - cbn [read_plain_gains] in H. apply ret_some in H. destruct H as [-> _].
    reflexivity.
  - cbn [read_plain_gains] in H.
    apply bind_some in H. destruct H as (l & s1 & _ & H).
    apply IH in H. raw_simpl. exact H.
Qed.

Lemma write_sums_low (adc_list_l0 : Z -> Z) (iobuf : IO_BUFFER)
    (x : AdcData) (z : Z) :
  known x <> 0 -> sums_unsupported x = false ->
  sums_version x = 3 -> sums_zero_sup_mode x = z -> z = 0 \/ z = 1 ->
  sums_data_red_mode x = 0 ->
  write_hess_teladc_sums adc_list_l0 iobuf x
  = Some (0, iobuf ++ [Item IO_TYPE_HESS_TELADCSUM 3 (sums_flags x 3 z 0)
                         (put_long (num_pixels x) ++ put_short (num_gains x)
                            ++ low_mode_data x 3 z)], x).
Proof.
  intros Hk Hu Hv Hz Hz01 Hd. unfold write_hess_teladc_sums.
  apply Z.eqb_neq in Hk. rewrite Hk, Hu, Hz.
  destruct (sums_select_mode_frame x z) as (_ & _ & _ & _ & _ & _ & Hs).
  rewrite Hs by lia. rewrite Hd, Hv.
  rewrite (write_sums_body_low adc_list_l0 x z Hz01). reflexivity.
Qed.

Lemma sums_modes_plain_request (x : AdcData) (z : Z) :
  zero_sup_mode x = z -> z = 0 \/ z = 1 -> data_red_mode x = 0 ->
  0 <= list_known x <= 2 -> 0 <= num_pixels x -> 1 <= num_gains x <= 2 ->
  sums_version x = 3 /\ sums_zero_sup_mode x = z
  /\ sums_data_red_mode x = 0 /\ sums_unsupported x = false.
Proof.
  intros Hz Hz01 Hd Hlk Hnp Hng.
  assert (Ev : sums_version x = 3).
  { unfold sums_version. rewrite Hz.
    assert (E : (z >=? 2) = false)
      by (rewrite Z.geb_leb; apply Z.leb_gt; lia).
    rewrite E, !andb_false_r. reflexivity. }
  assert (Ez : sums_zero_sup_mode x = z).
  { unfold sums_zero_sup_mode. rewrite Hz.
    destruct Hz01 as [-> | ->]; cbn [Z.land Pos.land];
      rewrite andb_false_r; reflexivity. }
  assert (Ed : sums_data_red_mode x = 0).
  { unfold sums_data_red_mode. rewrite Hd. cbn [Z.land].
    destruct (threshold x =? 0); now rewrite andb_false_r. }
  split; [exact Ev|]. split; [exact Ez|]. split; [exact Ed|].
  unfold sums_unsupported. rewrite Ev, Ez, Ed.
  change (3 <? 2) with false. rewrite andb_false_r.
  change (0 <? 0) with false. change (0 >? 2) with false.
  assert (E1 : (list_known x <? 0) = false) by (apply Z.ltb_ge; lia).
  assert (E2 : (list_known x >? 2) = false)
    by (rewrite Z.gtb_ltb; apply Z.ltb_ge; lia).
  assert (E3 : (z <? 0) = false) by (apply Z.ltb_ge; lia).
  assert (E4 : (z >? 4) = false) by (rewrite Z.gtb_ltb; apply Z.ltb_ge; lia).
  assert (E5 : (num_pixels x <? 0) = false) by (apply Z.ltb_ge; lia).
  assert (E6 : (num_gains x <? 1) = false) by (apply Z.ltb_ge; lia).
  assert (E7 : (num_gains x >? 2) = false)
    by (rewrite Z.gtb_ltb; apply Z.ltb_ge; lia).
  now rewrite E1, E2, E3, E4, E5, E6, E7.
Qed.

(** X16.  Without zero suppression and data reduction the sum-mode
    round trip is exact: for a structure with data, 32-bit sums and
    counts within the reader's limits, [write_hess_teladc_sums] appends
    one version-3 record and leaves the structure alone, and
    [read_hess_teladc_sums] reads the record to its end and has the
    counts, the telescope ID (16 bits of it) and, for every gain and
    pixel, the sum that was written, marked as known, every pixel being
    significant. *)
Theorem sums_plain_round_trip (H_MAX_PIX : Z) (lgval0 adc_list_l0 : Z -> Z)
    (iobuf rest : IO_BUFFER) (x raw0 : AdcData) :
  known x <> 0 -> zero_sup_mode x = 0 -> data_red_mode x = 0 ->
  0 <= list_known x <= 2 ->
  0 <= num_pixels x <= H_MAX_PIX -> num_pixels x < 2 ^ 31 ->
  1 <= num_gains x <= 2 ->
  (forall g p, 0 <= adc_sum x g p < 2 ^ 32) ->
  exists it r,
    write_hess_teladc_sums adc_list_l0 iobuf x = Some (0, iobuf ++ [it], x)
    /\ it_version it = 3
    /\ read_hess_teladc_sums H_MAX_PIX lgval0 (it :: rest) raw0
       = Some (0, r, rest)
    /\ known r = 1
    /\ num_pixels r = num_pixels x /\ num_gains r = num_gains x
    /\ tel_id r = tel_id x mod 65536
    /\ zero_sup_mode r = 0 /\ data_red_mode r = 0
    /\ forall g p, 0 <= g < num_gains x -> 0 <= p < num_pixels x ->
         adc_sum r g p = adc_sum x g p
         /\ adc_known r g p = 1 /\ significant r p = 1.
Proof.
  intros Hk Hz Hd Hlk Hnp H31 Hng Hs.
  destruct (sums_modes_plain_request x 0 Hz (or_introl eq_refl) Hd Hlk
              (proj1 Hnp) Hng) as (Ev & Ez & Ed & Eu).
  pose proof (write_sums_low adc_list_l0 iobuf x 0 Hk Eu Ev Ez
                (or_introl eq_refl) Ed) as Hw.
  destruct (read_sums_low_data H_MAX_PIX lgval0 x raw0 0 rest
              (or_introl eq_refl) Hnp H31 Hng)
    as (h & r1 & s' & Er & Edat & Hz' & Hd' & Hnp' & Hng' & Ht').
  assert (Hzi : zero_sup_mode (init_sums h) = 0) by exact Hz'.
  assert (Hdi : data_red_mode (init_sums h) = 0) by exact Hd'.
  assert (Hni : num_pixels (init_sums h) = num_pixels x) by exact Hnp'.
  assert (Hgi : num_gains (init_sums h) = num_gains x) by exact Hng'.
  assert (Hti : tel_id (init_sums h) = tel_id x mod 65536) by exact Ht'.
  unfold read_sums_data, low_mode_data in Edat.
  rewrite Hzi, Hdi, Hgi in Edat. change (0 =? 0) with true in Edat.
  cbv beta iota in Edat.
  destruct (plain_gains_read_values x 3 (Z.to_nat (num_gains x)) 0
              (init_sums h) [] ltac:(lia) (proj1 Hnp) Hni Hs)
    as (r' & Er' & A & _).
  rewrite app_nil_r in Er'. rewrite Er' in Edat.
  apply some_pair_inv in Edat. destruct Edat as [<- _].
  destruct (read_plain_gains_frame _ _ _ _ _ _ _ Er')
    as ((F1 & F2 & F3 & F4) & Fs & Fk).
  eexists. exists (set_known r' 1).
  split; [exact Hw|]. split; [reflexivity|]. split; [exact Er|].
  raw_simpl.
  split; [reflexivity|]. split; [congruence|]. split; [congruence|].
  split; [rewrite (read_plain_gains_tel _ _ _ _ _ _ _ Er'); exact Hti|].
  split; [congruence|]. split; [congruence|].
  intros g p Hg Hp. split.
  - apply A; [rewrite Z2Nat.id by lia; lia|exact Hp].
  - rewrite Fk, Fs. unfold init_sums. raw_simpl. rewrite Hz', Hd'.
    change ((0 =? 0) && (0 =? 0)) with true. cbv iota.
    rewrite Hnp', Hng'.
    split; [now apply fill2_inside|now apply fill_inside].
Qed.

Lemma sums_plain_round_trip_witness :
  exists it r,
    write_hess_teladc_sums (fun _ => 0) [] plain_camera
    = Some (0, [it], plain_camera)
    /\ read_hess_teladc_sums 960 (fun _ => 0) [it] blank = Some (0, r, [])
    /\ tel_id r = 4464
    /\ adc_sum r 1 1 = 4294967295
    /\ adc_sum r 1 2 = 7.
Proof.
  destruct (sums_plain_round_trip 960 (fun _ => 0) (fun _ => 0) [] []
              plain_camera blank)
    as (it & r & Hw & _ & Hr & _ & _ & _ & Ht & _ & _ & Hs).
  - discriminate.
  - reflexivity.
  - reflexivity.
  - cbn; lia.
  - cbn; lia.
  - reflexivity.
  - cbn; lia.
  - intros g p. cbn. change (2 ^ 32) with 4294967296.
    destruct (p =? 1); [lia|]. destruct (g =? 0); lia.
  - exists it, r. split; [exact Hw|]. split; [exact Hr|].
    split; [exact Ht|].
    split; [apply (Hs 1 1); cbn; lia|apply (Hs 1 2); cbn; lia].
Defined.

(** ** The sum-mode round trip in bitmap mode *)

Lemma znth_app_last (l : list Z) (v : Z) : znth (l ++ [v]) (zlength l) = v.
Proof.
  unfold znth, zlength. rewrite Nat2Z.id. apply nth_middle.
Qed.

Lemma znth_app_first (l : list Z) (v i : Z) :
  0 <= i < zlength l -> znth (l ++ [v]) i = znth l i.
Proof.
  unfold znth, zlength. intros H. apply app_nth1. lia.
Qed.

Lemma znth_map_uint32 (l : list Z) (i : Z) :
  znth (map uint32 l) i = uint32 (znth l i).
Proof.
  unfold znth. change 0 with (uint32 0) at 1. apply map_nth.
Qed.

Lemma znth_slice (a : Z -> Z) (n : nat) (i : Z) :
  0 <= i < Z.of_nat n -> znth (slice a 0 n) i = a i.
Proof.
  intros H. unfold znth.
  assert (G : forall (m : nat) (k : Z) (q : nat),
             (q < m)%nat -> nth q (slice a k m) 0 = a (k + Z.of_nat q)).
  { induction m as [|m IH]; intros k q Hq; [lia|].
    cbn [slice]. destruct q as [|q]; [cbn; f_equal; lia|].
    cbn [nth]. rewrite IH by lia. f_equal. lia. }
  rewrite G by lia. f_equal. lia.
Qed.

Lemma count_flags_step (x j : Z) :
  0 <= j ->
  count_flags x (Z.to_nat (j + 1)) 0
  = count_flags x (Z.to_nat j) 0 + (if bit x j then 1 else 0).
Proof.
  intros Hj. replace (Z.to_nat (j + 1)) with (S (Z.to_nat j)) by lia.
  rewrite count_flags_snoc. rewrite Z.add_0_l, Z2Nat.id by lia. reflexivity.
Qed.

Lemma count_flags_mono (x : Z) (m : nat) :
  forall j, 0 <= j ->
    count_flags x (Z.to_nat j) 0 <= count_flags x (Z.to_nat (j + Z.of_nat m)) 0.
Proof.
  induction m as [|m IH]; intros j Hj.
  - rewrite Z.add_0_r. lia.
  - replace (j + Z.of_nat (S m)) with (j + Z.of_nat m + 1) by lia.
    rewrite count_flags_step by lia. specialize (IH j Hj).
    destruct (bit x (j + Z.of_nat m)); lia.
Qed.

Lemma count_flags_below (x j' j : Z) :
  0 <= j' < j -> bit x j' = true ->
  0 <= count_flags x (Z.to_nat j') 0 < count_flags x (Z.to_nat j) 0.
Proof.
  intros Hj Hb. split.
  - pose proof (count_flags_mono x (Z.to_nat j') 0 ltac:(lia)) as H.
    rewrite Z.add_0_l, Z2Nat.id in H by lia. cbn [Z.to_nat count_flags] in H.
    exact H.
  - pose proof (count_flags_mono x (Z.to_nat (j - (j' + 1))) (j' + 1)
                  ltac:(lia)) as H.
    rewrite Z2Nat.id in H by lia.
    replace (j' + 1 + (j - (j' + 1))) with j in H by lia.
    rewrite count_flags_step in H by lia. rewrite Hb in H. lia.
Qed.

Lemma count_flags_set_bit (x j j' : Z) :
  0 <= j' <= j ->
  count_flags (set_bit x j) (Z.to_nat j') 0 = count_flags x (Z.to_nat j') 0.
Proof.
  intros H. apply count_flags_ext. intros i Hi.
  rewrite bit_set_bit by lia.
  assert (E : (j =? i) = false) by (apply Z.eqb_neq; lia).
  rewrite E. apply orb_false_r.
Qed.

Lemma group_holds_step (x : AdcData) (k0 : Z) (g : group) (j : Z) :
  0 <= j -> group_holds x k0 g j ->
  group_holds x k0 (step_z1_r0 x g j (k0 + j)) (j + 1).
Proof.
  intros Hj (Hz & Hh & Hl & Hv).
  unfold step_z1_r0, with_zbit.
  destruct (negb (significant x (k0 + j) =? 0)) eqn:Es;
    cbn [zbits hgval lgval]; unfold group_holds; cbn [zbits hgval lgval].
  - split; [now apply set_bit_bound|].
    split.
    { rewrite (count_flags_next (zbits g) j true) by assumption.
      unfold zlength in *. rewrite length_app. cbn [length]. lia. }
    split; [unfold zlength in *; rewrite !length_app; cbn [length]; lia|].
    intros j' Hj'. rewrite bit_set_bit by lia.
    rewrite count_flags_set_bit by lia.
    destruct (Z.eq_dec j' j) as [->|Hne].
    + rewrite Z.eqb_refl, orb_true_r. split; [now rewrite Es|]. intros _.
      rewrite <- Hh. split; [apply znth_app_last|].
      rewrite <- Hl. apply znth_app_last.
    + assert (E : (j =? j') = false) by (apply Z.eqb_neq; lia).
      rewrite E, orb_false_r.
      destruct (Hv j' ltac:(lia)) as [Hb Hval].
      split; [exact Hb|]. intros Hbit.
      destruct (Hval Hbit) as [V1 V2].
      pose proof (count_flags_below (zbits g) j' j ltac:(lia) Hbit) as Hc.
      rewrite !znth_app_first by lia. split; assumption.
  - split; [rewrite Z.pow_add_r by lia; lia|].
    split.
    { rewrite (count_flags_next (zbits g) j false) by assumption. lia. }
    split; [exact Hl|].
    intros j' Hj'. destruct (Z.eq_dec j' j) as [->|Hne].
    + rewrite (bit_high (zbits g) j j) by lia.
      split; [now rewrite Es|discriminate].
    + apply Hv. lia.
Qed.

Lemma group_holds_accum (x : AdcData) (k0 : Z) (m : nat) :
  forall (j : Z) (g : group),
    0 <= j -> group_holds x k0 g j ->
    group_holds x k0 (group_accum (step_z1_r0 x) m j (k0 + j) g)
      (j + Z.of_nat m).
Proof.
  induction m as [|m IH]; intros j g Hj H.
  - cbn [group_accum]. now rewrite Z.add_0_r.
  - cbn [group_accum].
    replace (j + Z.of_nat (S m)) with (j + 1 + Z.of_nat m) by lia.
    replace (k0 + j + 1) with (k0 + (j + 1)) by lia.
    apply IH; [lia|]. now apply group_holds_step.
Qed.

Lemma group_holds_start (x : AdcData) (k0 : Z) : group_holds x k0 group0 0.
Proof.
  unfold group_holds. cbn [zbits hgval lgval group0].
  split; [change (2 ^ 0) with 1; lia|]. split; [reflexivity|].
  split; [reflexivity|]. intros j' Hj'. lia.
Qed.

Lemma pixel_same_refl (a : AdcData) (p : Z) : pixel_same a a p.
Proof. split; [reflexivity|]. intros g. split; reflexivity. Qed.

Lemma pixel_same_trans (a b c : AdcData) (p : Z) :
  pixel_same a b p -> pixel_same b c p -> pixel_same a c p.
Proof.
  intros [H1 H2] [H3 H4]. split; [congruence|].
  intros g. destruct (H2 g), (H4 g). split; congruence.
Qed.

Lemma pixel_restored_same (x a b : AdcData) (p : Z) :
  pixel_restored x a p -> pixel_same a b p -> pixel_restored x b p.
Proof.
  intros (R1 & R2 & R3 & R4 & R5) [S1 S2].
  destruct (S2 HI_GAIN) as [K0 V0]. destruct (S2 LO_GAIN) as [K1 V1].
  unfold pixel_restored. rewrite S1, K0, K1, V0, V1. auto.
Qed.

Lemma bitmap_decoded_refl (x raw : AdcData) (a : Z) :
  bitmap_decoded x a a raw raw.
Proof.
  split; [apply same_header_refl|]. split; [reflexivity|].
  intros p. split; [lia|]. intros _. apply pixel_same_refl.
Qed.

Lemma bitmap_decoded_trans (x r0 r1 r2 : AdcData) (a b c : Z) :
  a <= b <= c ->
  bitmap_decoded x a b r0 r1 -> bitmap_decoded x b c r1 r2 ->
  bitmap_decoded x a c r0 r2.
Proof.
  intros Habc (H1 & T1 & P1) (H2 & T2 & P2).
  split; [eapply same_header_trans; eassumption|]. split; [congruence|].
  intros p. destruct (P1 p) as [A1 B1]. destruct (P2 p) as [A2 B2]. split.
  - intros Hp Hs. destruct (Z_lt_dec p b) as [Hlt|Hge].
    + apply pixel_restored_same with r1; [apply A1; [lia|exact Hs]|].
      apply B2. lia.
    + apply A2; [lia|exact Hs].
  - intros Hn. apply pixel_same_trans with r1; [apply B1|apply B2];
      intros [Hr Hs]; apply Hn; (split; [lia|exact Hs]).
Qed.

(** The assignments of one group without data reduction: a pixel whose
    bit is set has the next value of each vector, the other pixels are
    left alone. *)
Lemma assign_z1_r0 (so oo zb : Z) (lg hg : list Z) (k : Z) (n : nat) :
  forall (j : Z) (raw : AdcData),
    0 <= j ->
    let r := assign_z1 so oo 0 zb 0 0 lg hg [] k n j
               (count_flags zb (Z.to_nat j) 0)
               (count_flags zb (Z.to_nat j) 0) 0 raw in
    same_header r raw /\ tel_id r = tel_id raw
    /\ forall p,
         (forall j', j <= j' < j + Z.of_nat n -> p = k + j' ->
            bit zb j' = true ->
            significant r p = 1
            /\ adc_known r HI_GAIN p = 1 /\ adc_known r LO_GAIN p = 1
            /\ adc_sum r HI_GAIN p = znth hg (count_flags zb (Z.to_nat j') 0)
            /\ adc_sum r LO_GAIN p = znth lg (count_flags zb (Z.to_nat j') 0))
         /\ ((forall j', j <= j' < j + Z.of_nat n -> p = k + j' ->
                bit zb j' = false) -> pixel_same raw r p).
Proof.
  induction n as [|n IH]; intros j raw Hj.
  - cbn [assign_z1]. split; [apply same_header_refl|]. split; [reflexivity|].
    intros p. split; [intros j' Hj'; lia|]. intros _. apply pixel_same_refl.
  - cbn [assign_z1]. change (0 <? 1) with true. cbn [orb].
    destruct (bit zb j) eqn:Eb.
    + cbv beta iota zeta.
      set (c := count_flags zb (Z.to_nat j) 0).
      set (raw1 := set_kn
                     (set_kn
                        (set_sum
                           (set_sum (set_sig raw (k + j) 1) LO_GAIN (k + j)
                              (znth lg c)) HI_GAIN (k + j) (znth hg c))
                        LO_GAIN (k + j) 1) HI_GAIN (k + j) 1).
      assert (Ec : c + 1 = count_flags zb (Z.to_nat (j + 1)) 0).
      { subst c. rewrite count_flags_step by assumption. now rewrite Eb. }
      rewrite Ec.
      destruct (IH (j + 1) raw1 ltac:(lia)) as (Hh & Ht & Hp).
      split; [exact Hh|]. split; [exact Ht|].
      intros p. destruct (Hp p) as [A B]. split.
      * intros j' Hj' Ep Hb. destruct (Z.eq_dec j' j) as [->|Hne].
        -- assert (Hs : pixel_same raw1 (assign_z1 so oo 0 zb 0 0 lg hg [] k n
                          (j + 1) (count_flags zb (Z.to_nat (j + 1)) 0)
                          (count_flags zb (Z.to_nat (j + 1)) 0) 0 raw1) p).
           { apply B. intros j2 Hj2 Ep2. lia. }
           destruct Hs as [S1 S2].
           destruct (S2 HI_GAIN) as [K0 V0]. destruct (S2 LO_GAIN) as [K1 V1].
           rewrite S1, K0, K1, V0, V1. subst raw1 p.
           unfold set_kn, set_sum, set_sig. raw_simpl.
           rewrite upd_same. rewrite !upd2_same.
           rewrite !(upd2_other_gain _ HI_GAIN LO_GAIN)
             by (unfold HI_GAIN, LO_GAIN; lia).
           rewrite !upd2_same. fold c. repeat split.
        -- apply A; [lia|exact Ep|exact Hb].
      * intros Hall. apply pixel_same_trans with raw1.
        -- assert (Hne : p <> k + j).
           { intros Ep. specialize (Hall j ltac:(lia) Ep). congruence. }
           subst raw1. unfold pixel_same, set_kn, set_sum, set_sig. raw_simpl.
           split; [now apply upd_other|].
           intros g. rewrite !upd2_other_index by exact Hne. split; reflexivity.
        -- apply B. intros j' Hj' Ep. apply Hall; [lia|exact Ep].
    + cbv beta iota zeta.
      assert (Ec : count_flags zb (Z.to_nat j) 0
                   = count_flags zb (Z.to_nat (j + 1)) 0).
      { rewrite count_flags_step by assumption. rewrite Eb. lia. }
      rewrite Ec.
      destruct (IH (j + 1) raw ltac:(lia)) as (Hh & Ht & Hp).
      split; [exact Hh|]. split; [exact Ht|].
      intros p. destruct (Hp p) as [A B]. split.
      * intros j' Hj' Ep Hb. destruct (Z.eq_dec j' j) as [->|Hne];
          [congruence|]. apply A; [lia|exact Ep|exact Hb].
      * intros Hall. apply B. intros j' Hj' Ep. apply Hall; [lia|exact Ep].
Qed.

Lemma bit_zero (j : Z) : bit 0 j = false.
Proof. reflexivity. Qed.

(** A group of which no pixel is significant leaves the structure as it
    is. *)
Lemma bitmap_decoded_none (x raw : AdcData) (k c : Z) :
  (forall p, k <= p < k + c -> significant x p = 0) ->
  bitmap_decoded x k (k + c) raw raw.
Proof.
  intros H. split; [apply same_header_refl|]. split; [reflexivity|].
  intros p. split.
  - intros Hp Hs. specialize (H p Hp). contradiction.
  - intros _. apply pixel_same_refl.
Qed.

(** One group written in bitmap mode without data reduction is read to
    its end and gives the significant pixels of the group their sums. *)
Lemma read_group_z1_r0_decoded (x rawr : AdcData) (version so oo : Z)
    (lgval0 : Z -> Z) (g : group) (k k' c : Z) (rest : list wire) :
  3 <= version -> 0 <= c <= 16 ->
  num_gains rawr = num_gains x -> data_red_mode rawr = 0 ->
  (forall i p, 0 <= adc_sum x i p < 2 ^ 32) ->
  group_holds x k g c ->
  exists r',
    read_group_z1 version so oo lgval0 k c rawr
      (flush_z1_r0 x version g c k' ++ rest)
    = Some (r', rest)
    /\ bitmap_decoded x k (k + c) rawr r'.
Proof.
  intros Hv Hc Hg Hd Hs (Hz & Hh & Hl & Hval).
  assert (Hz16 : 0 <= zbits g < 65536).
  { assert (2 ^ c <= 2 ^ 16) by (apply Z.pow_le_mono_r; lia).
    change (2 ^ 16) with 65536 in *. lia. }
  assert (Hsig : forall p, k <= p < k + c -> significant x p <> 0 ->
                   bit (zbits g) (p - k) = true).
  { intros p Hp Hne. destruct (Hval (p - k) ltac:(lia)) as [Hb _].
    rewrite Hb. replace (k + (p - k)) with p by lia.
    apply negb_true_iff, Z.eqb_neq. exact Hne. }
  unfold read_group_z1, flush_z1_r0. rewrite <- app_assoc.
  unfold bind at 1. rewrite get_flags_put by assumption.
  destruct (zbits g >? 0) eqn:Ez.
  - assert (Enz : negb (zbits g =? 0) = true).
    { apply negb_true_iff, Z.eqb_neq. apply Z.gtb_lt in Ez. lia. }
    rewrite Enz, Hd. change (0 >=? 1) with false. cbv beta iota.
    unfold bind at 1. unfold ret at 1. cbv beta iota.
    rewrite <- Hh.
    destruct (zlength (hgval g) >? 0) eqn:Em.
    + rewrite <- app_assoc. unfold bind at 1.
      assert (Elg : exists lg,
                 get_lg version lgval0 (num_gains rawr) (zlength (hgval g))
                   (put_lg x version (lgval g)
                      ++ put_adcsum version (hgval g) ++ rest)
                 = Some (lg, put_adcsum version (hgval g) ++ rest)
                 /\ (2 <= num_gains x -> lg = map uint32 (lgval g))).
      { unfold get_lg, put_lg. rewrite Hg.
        destruct (num_gains x >=? 2) eqn:E2.
        - eexists. split; [rewrite <- Hl; now apply adcsum_roundtrip|].
          reflexivity.
        - eexists. split; [reflexivity|]. intros H2.
          rewrite Z.geb_leb in E2. apply Z.leb_gt in E2. lia. }
      destruct Elg as (lg & Elg & Hlg). rewrite Elg.
      unfold bind at 1. rewrite adcsum_roundtrip by assumption.
      change (0 >? 0) with false. cbv beta iota.
      unfold bind at 1. unfold ret at 1. eexists. split; [reflexivity|].
      destruct (assign_z1_r0 so oo (zbits g) lg (map uint32 (hgval g)) k
                  (Z.to_nat c) 0 rawr ltac:(lia)) as (Ah & At & Ap).
      change (count_flags (zbits g) (Z.to_nat 0) 0) with 0 in Ah, At, Ap.
      split; [exact Ah|]. split; [exact At|].
      intros p. destruct (Ap p) as [A B]. split.
      * intros Hp Hne. pose proof (Hsig p Hp Hne) as Hb.
        destruct (A (p - k) ltac:(lia) ltac:(lia) Hb)
          as (R1 & R2 & R3 & R4 & R5).
        destruct (Hval (p - k) ltac:(lia)) as [_ Hv2].
        destruct (Hv2 Hb) as [V1 V2].
        replace (k + (p - k)) with p in V1, V2 by lia.
        split; [exact R1|]. split; [exact R2|]. split; [exact R3|]. split.
        -- rewrite R4, znth_map_uint32, V1. apply uint32_small, Hs.
        -- intros H2. rewrite R5, (Hlg H2), znth_map_uint32, V2.
           apply uint32_small, Hs.
      * intros Hn. apply B. intros j' Hj' Ep.
        destruct (Hval j' ltac:(lia)) as [Hb _]. rewrite Hb.
        apply negb_false_iff, Z.eqb_eq.
        destruct (Z.eq_dec (significant x (k + j')) 0) as [E|E]; [exact E|].
        exfalso. apply Hn. split; [lia|]. rewrite Ep. exact E.
    + (* a flag word of which no bit counts: nothing follows it *)
      assert (Eh : hgval g = []).
      { destruct (hgval g); [reflexivity|].
        unfold zlength in Em. cbn [length] in Em.
        rewrite Z.gtb_ltb in Em. apply Z.ltb_ge in Em. lia. }
      assert (El : lgval g = []).
      { destruct (lgval g); [reflexivity|].
        rewrite Eh in Hl. unfold zlength in Hl. cbn [length] in Hl. lia. }
      assert (Hno : forall p, k <= p < k + c -> significant x p = 0).
      { intros p Hp.
        destruct (Z.eq_dec (significant x p) 0) as [E|E]; [exact E|].
        pose proof (Hsig p Hp E) as Hb.
        pose proof (count_flags_below (zbits g) (p - k) c ltac:(lia) Hb) as Hcf.
        rewrite <- Hh, Eh in Hcf. unfold zlength in Hcf. cbn [length] in Hcf.
        lia. }
      exists rawr. split; [|now apply bitmap_decoded_none].
      rewrite Eh, El. unfold put_lg, put_adcsum.
      destruct (num_gains x >=? 2), (version <=? 2); reflexivity.
  - assert (Enz : negb (zbits g =? 0) = false).
    { apply negb_false_iff, Z.eqb_eq.
      rewrite Z.gtb_ltb in Ez. apply Z.ltb_ge in Ez. lia. }
    rewrite Enz. exists rawr. split; [reflexivity|].
    apply bitmap_decoded_none. intros p Hp.
    destruct (Z.eq_dec (significant x p) 0) as [E|E]; [exact E|].
    pose proof (Hsig p Hp E) as Hb.
    assert (E0 : zbits g = 0).
    { rewrite Z.gtb_ltb in Ez. apply Z.ltb_ge in Ez. lia. }
    rewrite E0, bit_zero in Hb. discriminate.
Qed.

(** What is written in bitmap mode without data reduction is read to its
    end, and every significant pixel from [k] on has its sums. *)
Lemma bitmap_groups_decoded (x : AdcData) (version so oo : Z)
    (lgval0 : Z -> Z) (fuel : nat) :
  forall (k : Z) (rawr : AdcData) (rest : list wire),
    3 <= version ->
    0 <= k <= num_pixels x ->
    num_pixels rawr = num_pixels x ->
    num_gains rawr = num_gains x ->
    data_red_mode rawr = 0 ->
    (forall i p, 0 <= adc_sum x i p < 2 ^ 32) ->
    (Z.to_nat (num_pixels x - k) <= fuel)%nat ->
    exists r',
      read_groups (read_group_z1 version so oo lgval0) fuel k rawr
        (group_loop (step_z1_r0 x) (flush_z1_r0 x version)
           (Z.to_nat (num_pixels x - k)) 0 k group0 ++ rest)
      = Some (r', rest)
      /\ bitmap_decoded x k (num_pixels x) rawr r'.
Proof.
  induction fuel as [|fuel IH]; intros k rawr rest Hv Hk Hnp Hng Hd Hs Hf.
  - replace (Z.to_nat (num_pixels x - k)) with 0%nat by lia.
    exists rawr. split; [reflexivity|].
    replace (num_pixels x) with k by lia. apply bitmap_decoded_refl.
  - cbn [read_groups]. rewrite Hnp.
    destruct (k <? num_pixels x) eqn:Ek.
    + apply Z.ltb_lt in Ek.
      set (n := if k + 16 <=? num_pixels x then 16 else num_pixels x - k).
      assert (Hn : 1 <= n <= 16 /\ n <= num_pixels x - k
                   /\ (n = 16 \/ n = num_pixels x - k)).
      { subst n. destruct (k + 16 <=? num_pixels x) eqn:E.
        - apply Z.leb_le in E. lia.
        - apply Z.leb_gt in E. lia. }
      destruct Hn as (Hn1 & Hn2 & Hn3).
      rewrite (group_loop_chunk (step_z1_r0 x) (flush_z1_r0 x version)
                 (Z.to_nat n) (Z.to_nat (num_pixels x - k)) 0 k group0)
        by lia.
      rewrite Z2Nat.id by lia. rewrite Z.add_0_l.
      pose proof (group_holds_accum x k (Z.to_nat n) 0 group0 ltac:(lia)
                    (group_holds_start x k)) as Hgh.
      rewrite Z2Nat.id, Z.add_0_l, Z.add_0_r in Hgh by lia.
      rewrite <- app_assoc. unfold bind at 1.
      destruct (read_group_z1_r0_decoded x rawr version so oo lgval0
                  (group_accum (step_z1_r0 x) (Z.to_nat n) 0 k group0)
                  k (k + n) n
                  (group_loop (step_z1_r0 x) (flush_z1_r0 x version)
                     (Z.to_nat (num_pixels x - k) - Z.to_nat n) 0 (k + n)
                     group0 ++ rest))
        as (r1 & Er1 & D1); try assumption; [lia|].
      rewrite Er1.
      destruct D1 as (Hh1 & Ht1 & Hp1).
      destruct Hh1 as (E1 & E2 & E3 & E4).
      replace (Z.to_nat (num_pixels x - k) - Z.to_nat n)%nat
        with (Z.to_nat (num_pixels x - (k + n))) by lia.
      destruct (IH (k + n) r1 rest Hv ltac:(lia) ltac:(congruence)
                  ltac:(congruence) ltac:(congruence) Hs ltac:(lia))
        as (r' & Er' & D').
      exists r'. split; [exact Er'|].
      apply bitmap_decoded_trans with r1 (k + n); [lia| |exact D'].
      split; [repeat split; assumption|]. split; assumption.
    + apply Z.ltb_ge in Ek.
      replace (Z.to_nat (num_pixels x - k)) with 0%nat by lia.
      exists rawr. split; [reflexivity|].
      replace (num_pixels x) with k by lia. apply bitmap_decoded_refl.
Qed.

(** X17.  In bitmap mode without data reduction the sum-mode round trip
    restores what was written of the significant pixels and nothing
    else: for a structure with data, 32-bit sums and counts within the
    reader's limits, [write_hess_teladc_sums] appends one record and
    [read_hess_teladc_sums] reads it to its end; a pixel that was
    significant comes back significant with both gains marked as known,
    its high-gain sum and, when there are two gains, its low-gain sum;
    a pixel that was not significant comes back not significant, with
    unknown, zero sums. *)
Theorem sums_bitmap_round_trip (H_MAX_PIX : Z) (lgval0 adc_list_l0 : Z -> Z)
    (iobuf rest : IO_BUFFER) (x raw0 : AdcData) :
  known x <> 0 -> zero_sup_mode x = 1 -> data_red_mode x = 0 ->
  0 <= list_known x <= 2 ->
  0 <= num_pixels x <= H_MAX_PIX -> num_pixels x < 2 ^ 31 ->
  1 <= num_gains x <= 2 ->
  (forall g p, 0 <= adc_sum x g p < 2 ^ 32) ->
  exists it r,
    write_hess_teladc_sums adc_list_l0 iobuf x = Some (0, iobuf ++ [it], x)
    /\ read_hess_teladc_sums H_MAX_PIX lgval0 (it :: rest) raw0
       = Some (0, r, rest)
    /\ known r = 1
    /\ num_pixels r = num_pixels x /\ num_gains r = num_gains x
    /\ tel_id r = tel_id x mod 65536
    /\ zero_sup_mode r = 1 /\ data_red_mode r = 0
    /\ forall p, 0 <= p < num_pixels x ->
         (significant x p <> 0 -> pixel_restored x r p)
         /\ (significant x p = 0 ->
             significant r p = 0
             /\ forall g, 0 <= g < num_gains x ->
                  adc_known r g p = 0 /\ adc_sum r g p = 0).
Proof.
  intros Hk Hz Hd Hlk Hnp H31 Hng Hs.
  destruct (sums_modes_plain_request x 1 Hz (or_intror eq_refl) Hd Hlk
              (proj1 Hnp) Hng) as (Ev & Ez & Ed & Eu).
  pose proof (write_sums_low adc_list_l0 iobuf x 1 Hk Eu Ev Ez
                (or_intror eq_refl) Ed) as Hw.
  destruct (read_sums_low_data H_MAX_PIX lgval0 x raw0 1 rest
              (or_intror eq_refl) Hnp H31 Hng)
    as (h & r1 & s' & Er & Edat & Hz' & Hd' & Hnp' & Hng' & Ht').
  assert (Hzi : zero_sup_mode (init_sums h) = 1) by exact Hz'.
  assert (Hdi : data_red_mode (init_sums h) = 0) by exact Hd'.
  assert (Hni : num_pixels (init_sums h) = num_pixels x) by exact Hnp'.
  assert (Hgi : num_gains (init_sums h) = num_gains x) by exact Hng'.
  assert (Hti : tel_id (init_sums h) = tel_id x mod 65536) by exact Ht'.
  unfold read_sums_data, low_mode_data in Edat.
  rewrite Hzi, Hdi, Hni in Edat. change (1 =? 0) with false in Edat.
  cbv beta iota in Edat.
  destruct (bitmap_groups_decoded x 3 1 0 lgval0 (Z.to_nat (num_pixels x)) 0
              (init_sums h) [] ltac:(lia) ltac:(lia) Hni Hgi Hdi Hs
              ltac:(lia))
    as (r' & Er' & (F1 & F2 & F3 & F4) & Ft & Fp).
  rewrite Z.sub_0_r, app_nil_r in Er'. rewrite Er' in Edat.
  apply some_pair_inv in Edat. destruct Edat as [<- _].
  eexists. exists (set_known r' 1).
  split; [exact Hw|]. split; [exact Er|].
  raw_simpl.
  split; [reflexivity|]. split; [congruence|]. split; [congruence|].
  split; [congruence|]. split; [congruence|]. split; [congruence|].
  intros p Hp. destruct (Fp p) as [A B]. split.
  - intros Hne. apply A; [lia|exact Hne].
  - intros E0.
    destruct B as [B1 B2]; [intros [_ Hne]; contradiction|].
    split.
    + rewrite B1. unfold init_sums. raw_simpl. rewrite Hz', Hd', Hnp'.
      change ((1 =? 0) && (0 =? 0)) with false. cbv iota.
      now apply fill_inside.
    + intros g Hg. destruct (B2 g) as [K V]. rewrite K, V.
      unfold init_sums. raw_simpl. rewrite Hz', Hd', Hnp', Hng'.
      change ((1 =? 0) && (0 =? 0)) with false. cbv iota.
      split; now apply fill2_inside.
Qed.

Lemma sums_bitmap_round_trip_witness :
  exists it r,
    write_hess_teladc_sums (fun _ => 0) [] bitmap_camera
    = Some (0, [it], bitmap_camera)
    /\ read_hess_teladc_sums 960 (fun _ => 0) [it] blank = Some (0, r, [])
    /\ pixel_restored bitmap_camera r 17
    /\ significant r 4 = 0 /\ adc_sum r 0 4 = 0.
Proof.
  destruct (sums_bitmap_round_trip 960 (fun _ => 0) (fun _ => 0) [] []
              bitmap_camera blank)
    as (it & r & Hw & Hr & _ & _ & _ & _ & _ & _ & Hs).
  - discriminate.
  - reflexivity.
  - reflexivity.
  - cbn; lia.
  - cbn; lia.
  - reflexivity.
  - cbn; lia.
  - intros g p. cbn. change (2 ^ 32) with 4294967296.
    destruct (g =? 0); lia.
  - exists it, r. split; [exact Hw|]. split; [exact Hr|].
    destruct (Hs 17 ltac:(cbn; lia)) as [A _].
    destruct (Hs 4 ltac:(cbn; lia)) as [_ B].
    split; [apply A; discriminate|].
    destruct (B eq_refl) as [B1 B2].
    split; [exact B1|]. apply (B2 0). cbn; lia.
Defined.

(** ** The status of the sum-mode reader *)

Lemma read_sums_header_data (version flags : Z) (raw h : AdcData)
    (s s' : list wire) :
  read_sums_header version flags raw s = Some (h, s') ->
  significant h = significant raw /\ adc_known h = adc_known raw
  /\ adc_sum h = adc_sum raw /\ adc_sample h = adc_sample raw.
Proof.
  unfold read_sums_header, bind, ret.
  destruct ((version >=? 4) && (data_red_mode raw =? 2)).
  - destruct (get_scount32 s) as [[t s1]|]; [|discriminate].
    destruct (get_scount32 s1) as [[o s2]|]; [|discriminate].
    destruct (get_scount32 s2) as [[c s3]|]; [|discriminate].
    destruct (version =? 0);
      [intros H; apply some_pair_inv in H; destruct H as [<- _];
       repeat split|].
    destruct (version =? 1);
      [intros H; apply some_pair_inv in H; destruct H as [<- _];
       repeat split|].
    destruct (get_long s3) as [[np s4]|]; [|discriminate].
    destruct (get_short s4) as [[ng s5]|]; [|discriminate].
    intros H; apply some_pair_inv in H; destruct H as [<- _]; repeat split.
  - destruct (version =? 0);
      [intros H; apply some_pair_inv in H; destruct H as [<- _];
       repeat split|].
    destruct (version =? 1);
      [intros H; apply some_pair_inv in H; destruct H as [<- _];
       repeat split|].
    destruct (get_long s) as [[np s4]|]; [|discriminate].
    destruct (get_short s4) as [[ng s5]|]; [|discriminate].
    intros H; apply some_pair_inv in H; destruct H as [<- _]; repeat split.
Qed.

(** X18.  Whenever [read_hess_teladc_sums] returns, its status and the
    [known] flag agree: either the status is 0 and [known] is 1, or the
    status is negative, [known] and the pixel count are 0 and the
    significance, the sums and their marks are as they were before the
    call; a record of the type that was at the head of the buffer is
    consumed in both cases, anything else stays in the buffer. *)
Theorem read_sums_status (H_MAX_PIX : Z) (lgval0 : Z -> Z)
    (iobuf rest' : IO_BUFFER) (raw r : AdcData) (rc : Z) :
  read_hess_teladc_sums H_MAX_PIX lgval0 iobuf raw = Some (rc, r, rest') ->
  ((rc = 0 /\ known r = 1)
   \/ (rc < 0 /\ known r = 0 /\ num_pixels r = 0
       /\ significant r = significant raw
       /\ adc_known r = adc_known raw /\ adc_sum r = adc_sum raw))
  /\ (rest' = match iobuf with
              | it :: rest =>
                  if it_type it =? IO_TYPE_HESS_TELADCSUM then rest else iobuf
              | [] => []
              end).
Proof.
  unfold read_hess_teladc_sums, get_item_begin.
  destruct iobuf as [|it rest].
  - intros H. apply some_triple_inv in H. destruct H as (<- & <- & <-).
    split; [right; repeat split; lia|reflexivity].
  - destruct (it_type it =? IO_TYPE_HESS_TELADCSUM).
    2:{ intros H. apply some_triple_inv in H. destruct H as (<- & <- & <-).
        split; [right; repeat split; lia|reflexivity]. }
    destruct (it_version it >? 4).
    { intros H. apply some_triple_inv in H. destruct H as (<- & <- & <-).
      split; [right; repeat split; lia|reflexivity]. }
    destruct (read_sums_header (it_version it) (uint32 (it_ident it))
                _ (it_body it)) as [[h s]|] eqn:Eh; [|discriminate].
    pose proof (read_sums_header_known _ _ _ _ _ _ Eh) as Hk.
    pose proof (read_sums_header_data _ _ _ _ _ _ Eh) as (D1 & D2 & D3 & _).
    raw_simpl.
    destruct (sums_invalid H_MAX_PIX h).
    { intros H. apply some_triple_inv in H. destruct H as (<- & <- & <-).
      split; [|reflexivity]. right. raw_simpl.
      repeat split; try assumption; lia. }
    match goal with
    | |- match ?m with _ => _ end = _ -> _ =>
        destruct m as [[r1 s1]|]; [|discriminate]
    end.
    intros H. apply some_triple_inv in H. destruct H as (<- & <- & <-).
    split; [left; split; reflexivity|reflexivity].
Qed.

Lemma read_sums_status_witness :
  exists r,
    read_hess_teladc_sums 960 (fun _ => 0)
      [Item IO_TYPE_HESS_TELADCSUM 3 0 [W32 2000; W16 1]; short_trace_record]
      stale_pixel
    = Some (-1, r, [short_trace_record])
    /\ known r = 0 /\ num_pixels r = 0
    /\ adc_sum r = adc_sum stale_pixel.
Proof.
  destruct (read_hess_teladc_sums 960 (fun _ => 0)
              [Item IO_TYPE_HESS_TELADCSUM 3 0 [W32 2000; W16 1];
               short_trace_record] stale_pixel)
    as [[[rc r] rest']|] eqn:E; [|vm_compute in E; discriminate].
  destruct (read_sums_status 960 (fun _ => 0) _ _ _ _ _ E) as [Hs Hr].
  assert (Hrc : rc = -1).
  { vm_compute in E. apply some_triple_inv in E. destruct E as (<- & _ & _).
    reflexivity. }
  cbn in Hr. subst rc rest'. exists r. split; [reflexivity|].
  destruct Hs as [[H _]|(_ & H1 & H2 & _ & _ & H3)]; [discriminate|].
  repeat split; assumption.
Defined.

(** ** The list of significant pixels *)

Lemma make_pixel_list_lists (sig : Z -> Z) (i0 : Z) (n : nat) :
  forall (i : Z) (lst : Z -> Z) (nlst : Z),
    i0 <= i ->
    lists_significant sig i0 i lst nlst ->
    lists_significant sig i0 (i + Z.of_nat n)
      (fst (make_pixel_list sig n i lst nlst))
      (snd (make_pixel_list sig n i lst nlst)).
Proof.
  induction n as [|n IH]; intros i lst nlst Hi H.
  - cbn [make_pixel_list fst snd]. now rewrite Z.add_0_r.
  - cbn [make_pixel_list].
    replace (i + Z.of_nat (S n)) with (i + 1 + Z.of_nat n) by lia.
    destruct H as (Hn & Hin & Hasc & Hall).
    destruct (negb (sig i =? 0)) eqn:Es.
    + apply negb_true_iff, Z.eqb_neq in Es.
      apply IH; [lia|]. split; [lia|]. split; [|split].
      * intros a Ha. destruct (Z.eq_dec a nlst) as [->|Hne].
        -- rewrite upd_same. split; [lia|exact Es].
        -- rewrite upd_other by exact Hne.
           destruct (Hin a ltac:(lia)) as [H1 H2]. split; [lia|exact H2].
      * intros a b Hab Hb. rewrite (upd_other lst nlst a) by lia.
        destruct (Z.eq_dec b nlst) as [->|Hne].
        -- rewrite upd_same. destruct (Hin a ltac:(lia)). lia.
        -- rewrite upd_other by exact Hne. apply Hasc; lia.
      * intros p Hp Hsp. destruct (Z.eq_dec p i) as [->|Hne].
        -- exists nlst. split; [lia|apply upd_same].
        -- destruct (Hall p ltac:(lia) Hsp) as (a & Ha & Ea).
           exists a. split; [lia|]. rewrite upd_other by lia. exact Ea.
    + apply negb_false_iff, Z.eqb_eq in Es.
      apply IH; [lia|]. split; [lia|]. split; [|split].
      * intros a Ha. destruct (Hin a Ha) as [H1 H2]. split; [lia|exact H2].
      * exact Hasc.
      * intros p Hp Hsp. destruct (Z.eq_dec p i) as [->|Hne];
          [contradiction|]. apply Hall; [lia|exact Hsp].
Qed.

(** The list made where the mode is chosen: the pixels with a
    significance bit, in ascending order. *)
Lemma select_mode_lists_significant (raw : AdcData) (z : Z) :
  z = 3 \/ (z = 2 /\ list_known raw = 0) ->
  0 <= num_pixels raw ->
  let r := fst (sums_select_mode raw z) in
  list_known r = 1
  /\ lists_significant (significant raw) 0 (num_pixels raw)
       (adc_list r) (list_size r)
  /\ significant r = significant raw /\ adc_sum r = adc_sum raw
  /\ adc_known r = adc_known raw.
Proof.
  intros Hz Hnp.
  pose proof (make_pixel_list_lists (significant raw) 0
                (Z.to_nat (num_pixels raw)) 0 (adc_list raw) 0 ltac:(lia))
    as Hl.
  rewrite Z2Nat.id, Z.add_0_l in Hl by assumption.
  assert (H0 : lists_significant (significant raw) 0 0 (adc_list raw) 0).
  { split; [lia|]. split; [intros a Ha; lia|].
    split; [intros a b Hab Hb; lia|intros p Hp; lia]. }
  specialize (Hl H0). clear H0.
  unfold sums_select_mode.
  assert (E : ((z =? 3) || ((z =? 2) && (list_known raw =? 0))) = true).
  { destruct Hz as [->|[-> ->]]; reflexivity. }
  rewrite E.
  destruct (make_pixel_list (significant raw) (Z.to_nat (num_pixels raw)) 0
              (adc_list raw) 0) as [lst nlst].
  cbn [fst snd] in Hl. raw_simpl.
  destruct (z =? 3) eqn:E3.
  - destruct (Z.quot (17 * nlst) 16 >? num_pixels raw);
      [|destruct (15 * nlst >? num_pixels raw)];
      cbv beta iota zeta; cbn [Z.eqb Pos.eqb fst]; raw_simpl;
      (split; [reflexivity|]); (split; [exact Hl|]);
      (split; [reflexivity|split; reflexivity]).
  - destruct (z =? 2);
      cbv beta iota zeta; raw_simpl; rewrite ?E3; cbn [fst]; raw_simpl;
      (split; [reflexivity|]); (split; [exact Hl|]);
      (split; [reflexivity|split; reflexivity]).
Qed.

(** X19.  When [write_hess_teladc_sums] is left the choice of the mode
    (mode 3), or is asked for list mode without a list, it leaves in the
    structure the list of the pixels: after the call [list_known] is 1
    and the first [list_size] entries of [adc_list] are, in ascending
    order, exactly the pixels of the camera with a significance bit; the
    significance, the sums and their marks are not touched. *)
Theorem write_sums_lists_significant (adc_list_l0 : Z -> Z)
    (iobuf iobuf' : IO_BUFFER) (x x' : AdcData) (rc : Z) :
  write_hess_teladc_sums adc_list_l0 iobuf x = Some (rc, iobuf', x') ->
  known x <> 0 -> sums_unsupported x = false ->
  sums_zero_sup_mode x = 3
  \/ (sums_zero_sup_mode x = 2 /\ list_known x = 0) ->
  list_known x' = 1
  /\ lists_significant (significant x) 0 (num_pixels x)
       (adc_list x') (list_size x')
  /\ significant x' = significant x /\ adc_sum x' = adc_sum x
  /\ adc_known x' = adc_known x.
Proof.
  intros H Hk Hu Hz.
  assert (Hnp : 0 <= num_pixels x).
  { unfold sums_unsupported in Hu. rewrite !orb_false_iff in Hu.
    destruct Hu as [[[Hu _] _] _]. destruct Hu as [_ Hu].
    apply Z.ltb_ge in Hu. exact Hu. }
  pose proof (select_mode_lists_significant x (sums_zero_sup_mode x) Hz Hnp)
    as Hl.
  unfold write_hess_teladc_sums in H.
  apply Z.eqb_neq in Hk. rewrite Hk, Hu in H.
  destruct (sums_select_mode x (sums_zero_sup_mode x)) as [r z'].
  cbn [fst] in Hl.
  destruct (write_sums_body adc_list_l0 r (sums_version x) z'
              (sums_data_red_mode r)) as [body|]; [|discriminate].
  destruct (put_item iobuf IO_TYPE_HESS_TELADCSUM (sums_version x)
              (sums_flags r (sums_version x) z' (sums_data_red_mode r)) body)
    as [rc1 b1].
  apply some_triple_inv in H. destruct H as (_ & _ & <-). exact Hl.
Qed.

Lemma write_sums_lists_significant_witness :
  exists it x',
    write_hess_teladc_sums (fun _ => 0) [] unlisted_camera
    = Some (0, [it], x')
    /\ list_known x' = 1 /\ list_size x' = 2
    /\ adc_list x' 0 = 1 /\ adc_list x' 1 = 4
    /\ lists_significant (significant unlisted_camera) 0 6
         (adc_list x') (list_size x').
Proof.
  destruct (write_hess_teladc_sums (fun _ => 0) [] unlisted_camera)
    as [[[rc b] x']|] eqn:E; [|vm_compute in E; discriminate].
  destruct (write_sums_lists_significant _ _ _ _ _ _ E) as (H1 & H2 & _).
  - discriminate.
  - reflexivity.
  - left. reflexivity.
  - vm_compute in E. apply some_triple_inv in E.
    destruct E as (<- & <- & <-).
    eexists. eexists. split; [reflexivity|].
    split; [reflexivity|]. split; [reflexivity|].
    split; [reflexivity|]. split; [reflexivity|]. exact H2.
Defined.

(** ** The status of the sample-mode reader *)

Lemma read_samples_header_known (version flags : Z) (raw h : AdcData)
    (s s' : list wire) :
  read_samples_header version flags raw s = Some (h, s') ->
  known h = known raw.
Proof.
  unfold read_samples_header. intros H.
  apply bind_some in H. destruct H as (r1 & s1 & H1 & H).
  apply bind_some in H. destruct H as (ns & s2 & _ & H).
  apply ret_some in H. destruct H as [-> _]. raw_simpl.
  destruct (version =? 0);
    [apply ret_some in H1; destruct H1 as [-> _]; reflexivity|].
  destruct (version =? 1);
    [apply ret_some in H1; destruct H1 as [-> _]; reflexivity|].
  apply bind_some in H1. destruct H1 as (np & s3 & _ & H1).
  apply bind_some in H1. destruct H1 as (ng & s4 & _ & H1).
  apply ret_some in H1. destruct H1 as [-> _]. reflexivity.
Qed.

(** The way out of the data part for a list of ranges that is too long:
    no trace has been read then. *)
Lemma read_samples_data_refused (H_MAX_PIX what version z d : Z)
    (raw r : AdcData) (s s' : list wire) :
  read_samples_data H_MAX_PIX what version z d raw s = Some (inl r, s') ->
  r = clear_sample_bits raw.
Proof.
  unfold read_samples_data. destruct (negb (z =? 0)).
  - intros H. apply bind_some in H. destruct H as (ls & s1 & _ & H).
    destruct (ls >? H_MAX_PIX).
    { apply ret_some in H. destruct H as [H _]. congruence. }
    apply bind_some in H. destruct H as (pl & s2 & _ & H).
    destruct (negb (d =? 0) && (num_gains (clear_sample_bits raw) >? 1)).
    + apply bind_some in H. destruct H as (ls2 & s3 & _ & H).
      destruct (ls2 >? H_MAX_PIX).
      { apply ret_some in H. destruct H as [H _]. congruence. }
      apply bind_some in H. destruct H as (pl2 & s4 & _ & H).
      apply bind_some in H. destruct H as (r1 & s5 & _ & H).
      apply bind_some in H. destruct H as (r2 & s6 & _ & H).
      apply ret_some in H. destruct H as [H _]. discriminate.
    + apply bind_some in H. destruct H as (r1 & s5 & _ & H).
      apply ret_some in H. destruct H as [H _]. discriminate.
  - intros H. apply bind_some in H. destruct H as (r1 & s5 & _ & H).
    apply ret_some in H. destruct H as [H _]. discriminate.
Qed.

(** X20.  Whenever [read_hess_teladc_samples] returns, either the status
    is 0 and the [known] flag has its bit 1 set, or the status is
    negative and the structure is refused as it came: the [known] flag,
    the traces and the sums are what they were before the call (unlike
    the reader of the sums, which clears [known] first). *)
Theorem read_samples_status (H_MAX_PIX H_MAX_SLICES what : Z)
    (iobuf rest' : IO_BUFFER) (raw r : AdcData) (rc : Z) :
  read_hess_teladc_samples H_MAX_PIX H_MAX_SLICES what iobuf raw
  = Some (rc, r, rest') ->
  (rc = 0 /\ Z.land (known r) 2 = 2)
  \/ (rc < 0 /\ known r = known raw
      /\ adc_sample r = adc_sample raw /\ adc_sum r = adc_sum raw).
Proof.
  unfold read_hess_teladc_samples, get_item_begin.
  destruct iobuf as [|it rest].
  - intros H. apply some_triple_inv in H. destruct H as (<- & <- & <-).
    right. repeat split; lia.
  - destruct (it_type it =? IO_TYPE_HESS_TELADCSAMP).
    2:{ intros H. apply some_triple_inv in H. destruct H as (<- & <- & <-).
        right. repeat split; lia. }
    destruct (it_version it >? 3).
    { intros H. apply some_triple_inv in H. destruct H as (<- & <- & <-).
      right. repeat split; lia. }
    match goal with
    | |- (if ?c then _ else _) = _ -> _ => destruct c
    end.
    { intros H. apply some_triple_inv in H. destruct H as (<- & <- & <-).
      right. repeat split; lia. }
    destruct (read_samples_header (it_version it) (uint32 (it_ident it))
                _ (it_body it)) as [[h s]|] eqn:Eh; [|discriminate].
    pose proof (read_samples_header_known _ _ _ _ _ _ Eh) as Hk.
    pose proof (read_samples_header_frame _ _ _ _ _ _ Eh) as (_ & D2 & D3).
    raw_simpl.
    match goal with
    | |- (if ?c then _ else _) = _ -> _ => destruct c
    end.
    { intros H. apply some_triple_inv in H. destruct H as (<- & <- & <-).
      right. raw_simpl. repeat split; try assumption; lia. }
    match goal with
    | |- match ?m with _ => _ end = _ -> _ =>
        destruct m as [[[r1|r1] s1]|] eqn:Ed; [| |discriminate]
    end.
    + apply read_samples_data_refused in Ed. subst r1.
      intros H. apply some_triple_inv in H. destruct H as (<- & <- & <-).
      right. unfold clear_sample_bits. raw_simpl.
      repeat split; try assumption; lia.
    + intros H. apply some_triple_inv in H. destruct H as (<- & <- & <-).
      left. split; [reflexivity|]. raw_simpl.
      apply Z.bits_inj'. intros n Hn.
      rewrite Z.land_spec, Z.lor_spec.
      destruct (Z.eq_dec n 1) as [->|Hne].
      * change (Z.testbit 2 1) with true. now rewrite orb_true_r.
      * assert (E2 : Z.testbit 2 n = false).
        { change 2 with (2 ^ 1). apply Z.pow2_bits_false. lia. }
        rewrite E2. apply andb_false_r.
Qed.

Lemma read_samples_status_witness :
  exists r,
    read_hess_teladc_samples 960 64 0
      [Item IO_TYPE_HESS_TELADCSAMP 3 0 [W32 2000; W16 1; W16 3]] sum_present
    = Some (-1, r, [])
    /\ known r = known sum_present
    /\ adc_sum r = adc_sum sum_present.
Proof.
  destruct (read_hess_teladc_samples 960 64 0
              [Item IO_TYPE_HESS_TELADCSAMP 3 0 [W32 2000; W16 1; W16 3]]
              sum_present)
    as [[[rc r] rest']|] eqn:E; [|vm_compute in E; discriminate].
  pose proof (read_samples_status 960 64 0 _ _ _ _ _ E) as Hs.
  assert (Hrc : rc = -1 /\ rest' = []).
  { vm_compute in E. apply some_triple_inv in E. destruct E as (<- & _ & <-).
    split; reflexivity. }
  destruct Hrc as [-> ->]. exists r. split; [reflexivity|].
  destruct Hs as [[H _]|(_ & H1 & _ & H3)]; [discriminate|].
  split; assumption.
Defined.
